(** * The training driver [train.py]: a shallow embedding and its properties

    The driver is one sequential script: it builds two networks, allocates two
    accuracy arrays, and runs [n_steps] iterations of a loop that fetches a
    batch, counts its labels, trains both networks and, every
    [n_test_interval] steps, evaluates them over a fixed pool of batches and
    saves the results.

    The networks, the data loaders, the spike encoder and the file system are
    collaborators of the driver; they appear here as the fields of a record
    [World].  What the driver itself does (the control flow, the indices, the
    counters, the learning-rate schedule, the files it names and writes, the
    exceptions it lets escape) is modelled statement by statement in a state
    and exception monad.

    Numbers.  Python integers are [Z]; a loop counter produced by [range] is
    a [nat].  The label counter is a numpy [int64] vector, so its additions
    wrap.  Learning rates are binary64 numbers ([spec_float] with precision
    53 and maximal exponent 1024), and [/ 2] is the IEEE division [SFdiv]
    with its rounding.  The two ceilings computed with [np.ceil] on a
    binary64 quotient are written in the driver's model as exact integer
    ceilings; [float_ceil_div] computes them in binary64, the two agree for
    arguments of at most 53 bits ([float_ceil_div_exact]), and the theorems
    on the shapes of the arrays are stated for that range.

    Objects.  The optimizers are distinct objects, each with its own
    parameter groups, and nobody but the driver changes a learning rate.
    One presentation of a batch to a network (spike encoding, [reset], the
    [n_iters] calls of [learn] or [test], [accuracy]) is one function of the
    world.  [net.reset(True)], [net.to(device)] and [net.cpu()] leave the
    parameters as they are.  [torch.load] followed by [load_state_dict] is
    one function of the world, which gives the parameters loaded or the
    exception that either of the two raises.

    Outside.  The output directory is new and empty when the script starts
    ([os.makedirs] raises otherwise); the model follows its contents, the
    lines printed, and the calls to the summary writer made by the loop.  The
    construction of the summary writer and [save_source] are left out.

    Keyword arguments.  The dictionaries handed to the loaders and to the
    spike encoders do not influence the control flow; they are built apart
    from the run, as finite maps from names to values. *)

From Stdlib Require Import ZArith QArith Qpower Lia Ascii SpecFloat.
From stdpp Require Import base option list gmap strings pretty.

Local Open Scope Z_scope.

(** ** Command line *)

Inductive Dataset := MNIST | RadioML.

(** The options of [parse_args] that the control flow of the driver reads. *)
Record Args := {
  data : Dataset;
  just_ref : bool;
  restore_path : option string;
  batch_size : Z;
  batch_size_test : Z;
  n_steps : Z;
  no_save : bool;
  n_test_interval : Z;
  n_test_samples : Z;
}.

(** [target_size] is set by the branch on [args.data]. *)
Definition target_size (a : Args) : Z :=
  match data a with MNIST => 10 | RadioML => 24 end.

(** ** Python values *)

Inductive Exc :=
| StopIteration
| IndexError
| ValueError
| ZeroDivisionError
| AttributeError
| NameError
| UnpicklingError
| RuntimeError (msg : string).

(** Truthiness of an optional string: [None] and [''] are false. *)
Definition truthy (s : option string) : bool :=
  match s with
  | Some s => negb (bool_decide (s = ""%string))
  | None => false
  end.

(** [s * n] for a string [s]. *)
Fixpoint str_repeat (s : string) (n : nat) : string :=
  match n with
  | O => ""
  | S n => s +:+ str_repeat s n
  end.

(** Index of element [i] in a sequence of length [len]: negative indices
    count from the end, anything else out of range raises [IndexError]. *)
Definition py_index (len : nat) (i : Z) : option nat :=
  if bool_decide (0 <= i < Z.of_nat len) then Some (Z.to_nat i)
  else if bool_decide (- Z.of_nat len <= i < 0) then Some (Z.to_nat (i + Z.of_nat len))
  else None.

(** [np.ceil(float(x) / y).astype(int)] with the quotient taken exactly; the
    division by zero is Python's.  [float_ceil_div] below is the same with
    the quotient taken in binary64, as the driver does. *)
Definition ceil_div (x y : Z) : option Z :=
  if bool_decide (y = 0) then None else Some (- ((- x) / y)).

(** [np.sum] of an integer vector, as a mathematical integer. *)
Definition sum_Z (l : list Z) : Z := foldr Z.add 0 l.

(** [int64] wrap-around of numpy integer arithmetic. *)
Definition wrap64 (z : Z) : Z := (z + 2 ^ 63) mod 2 ^ 64 - 2 ^ 63.

(** [os.path.join(d, name)] on POSIX. *)
Definition ends_with_slash (d : string) : bool :=
  match String.rev d with
  | String c _ => bool_decide (c = "/"%char)
  | EmptyString => false
  end.

Definition starts_with_slash (s : string) : bool :=
  match s with
  | String c _ => bool_decide (c = "/"%char)
  | EmptyString => false
  end.

Definition os_path_join (d name : string) : string :=
  if starts_with_slash name then name
  else if bool_decide (d = ""%string) || ends_with_slash d then d +:+ name
  else d +:+ "/" +:+ name.

(** ** Optimizers

    An optimizer is the list of its parameter groups, and a parameter group is
    its ['lr'] entry, the only one the driver touches: a Python float, that
    is a binary64 number, given as the standard library specifies them
    ([prec = 53], [emax = 1024]). *)

(** The binary64 number [2.0], and [lr / 2] as binary64 computes it:
    correctly rounded, to nearest and ties to even. *)
Definition two : spec_float := S754_finite false 4503599627370496 (-51).

Definition halve (lr : spec_float) : spec_float := SFdiv 53 1024 lr two.

(** [float(n)] of a Python integer, and the conversion that [/] applies to
    an integer divisor: the nearest binary64 number. *)
Definition float_of_int (n : Z) : spec_float :=
  binary_normalize 53 1024 n 0 false.

(** The least integer that is not below [m * 2 ^ e]. *)
Definition ceil_scaled (m e : Z) : Z :=
  if bool_decide (0 <= e) then m * 2 ^ e else - (- m / 2 ^ (- e)).

(** [np.ceil(x).astype(int)] of a finite number. *)
Definition np_ceil (x : spec_float) : option Z :=
  match x with
  | S754_zero _ => Some 0
  | S754_finite s m e => Some (ceil_scaled (cond_Zopp s (Z.pos m)) e)
  | _ => None
  end.

(** [np.ceil(float(x) / y).astype(int)] as lines 186-191 compute it, for a
    divisor that is not zero. *)
Definition float_ceil_div (x y : Z) : option Z :=
  np_ceil (SFdiv 53 1024 (float_of_int x) (float_of_int y)).

(** [param_groups[-1]['lr'] /= 2] *)
Fixpoint halve_last (param_groups : list spec_float) : option (list spec_float) :=
  match param_groups with
  | [] => None
  | [lr] => Some [halve lr]
  | g :: rest => (g ::.) <$> halve_last rest
  end.

(** The learning rate the driver tracks: the one of the last group. *)
Definition tracked_lr (param_groups : list spec_float) : option spec_float :=
  last param_groups.

Record Slice := {
  optimizer : list spec_float;
  optimizer2 : option (list spec_float);
}.

(** ** The collaborators and the state of a run *)

Section Model.
Context {Samples Weights RefWeights Acc : Type}.

(** A batch as a loader yields it: the samples and one label per example. *)
Record Batch := {
  samples : Samples;
  labels : list Z;
}.

(** The trainable network: its parameters and its slices. *)
Record Net := {
  weights : Weights;
  dcll_slices : list Slice;
}.

(** The reference network: its parameters and its optimizer [optim]. *)
Record RefNet := {
  ref_weights : RefWeights;
  optim : list spec_float;
}.

(** What the driver writes into [out_dir]. *)
Inductive File :=
| Npy3 (arr : list (list (list Acc)))
| Npy2 (arr : list (list Acc))
| Pth (state_dict : Weights)
| Txt (text : string)
| TxtArgs (a : Args)
| PklArgs (a : Args).

(** What the driver sends to the outside, in order: the lines it prints, the
    statistics it hands to the summary writer, and each attempt to put a test
    spike train on the device. *)
Inductive Event :=
| Print (line : string)
| PrintTraining (step : nat) (acc_train : list Acc)
| PrintTesting (step : nat) (acc : option (list (list Acc))) (acc_ref : list Acc)
| PrintLabelPercentages (counts : list Z)
| ToTensor (step i : nat)
| NetWriteStats (step : nat)
| RefWriteStats (step : nat)
| WriterClose.

(** Everything the driver calls but does not define.  The functions that
    stand for computations of the networks take the step (and the index of
    the test batch) as well, so that they may depend on the random state. *)
Record World := {
  log_dir : string;
  out_dir : string;
  (** [ConvNetwork(...)] and [ReferenceConvNetwork(...)] as constructed *)
  fresh_net : Net;
  fresh_ref_net : RefNet;
  (** [os.path.isfile] *)
  isfile : string -> bool;
  (** [torch.load] followed by [load_state_dict] on the network as
      constructed: the parameters loaded or, when either raises, the
      exception and the parameters that the network then holds
      ([load_state_dict] copies the entries that match before it raises) *)
  torch_load : string -> Exc * Weights + Weights;
  (** the batches of the [k]-th call of [iter(train_data)] *)
  train_data : nat -> list Batch;
  (** the batches of the test loader *)
  test_loader : list Batch;
  (** one presentation in training mode: the new parameters and [acc_train] *)
  net_learn : nat -> Net -> Batch -> Weights * list Acc;
  (** one presentation in evaluation mode followed by [net.accuracy] *)
  net_accuracy : nat -> nat -> Net -> Batch -> list Acc;
  ref_learn : nat -> RefNet -> Batch -> RefWeights;
  ref_accuracy : nat -> nat -> RefNet -> Batch -> Acc;
  (** [str(e)] when [torch.Tensor(test_input).to(device)] raises
      [RuntimeError] at this step for this test batch *)
  tensor_error : nat -> nat -> option string;
  (** the memory [np.empty] happens to return *)
  empty3 : nat -> nat -> nat -> Acc;
  empty2 : nat -> nat -> Acc;
}.

(** The variables of the script. [net] and [acc_test] are bound only when
    [just_ref] is off. *)
Record St := {
  net : option Net;
  acc_test : option (list (list (list Acc)));
  ref_net : RefNet;
  acc_test_ref : list (list Acc);
  all_test_data : list Batch;
  gen_train : list Batch;
  epoch : nat;
  label_train_counts : list Z;
  files : gmap string File;
  trace : list Event;
}.

Definition set_net (x : option Net) (st : St) : St :=
  {| net := x; acc_test := acc_test st; ref_net := ref_net st;
     acc_test_ref := acc_test_ref st; all_test_data := all_test_data st;
     gen_train := gen_train st; epoch := epoch st;
     label_train_counts := label_train_counts st; files := files st;
     trace := trace st |}.

Definition set_acc_test (x : option (list (list (list Acc)))) (st : St) : St :=
  {| net := net st; acc_test := x; ref_net := ref_net st;
     acc_test_ref := acc_test_ref st; all_test_data := all_test_data st;
     gen_train := gen_train st; epoch := epoch st;
     label_train_counts := label_train_counts st; files := files st;
     trace := trace st |}.

Definition set_ref_net (x : RefNet) (st : St) : St :=
  {| net := net st; acc_test := acc_test st; ref_net := x;
     acc_test_ref := acc_test_ref st; all_test_data := all_test_data st;
     gen_train := gen_train st; epoch := epoch st;
     label_train_counts := label_train_counts st; files := files st;
     trace := trace st |}.

Definition set_acc_test_ref (x : list (list Acc)) (st : St) : St :=
  {| net := net st; acc_test := acc_test st; ref_net := ref_net st;
     acc_test_ref := x; all_test_data := all_test_data st;
     gen_train := gen_train st; epoch := epoch st;
     label_train_counts := label_train_counts st; files := files st;
     trace := trace st |}.

Definition set_all_test_data (x : list Batch) (st : St) : St :=
  {| net := net st; acc_test := acc_test st; ref_net := ref_net st;
     acc_test_ref := acc_test_ref st; all_test_data := x;
     gen_train := gen_train st; epoch := epoch st;
     label_train_counts := label_train_counts st; files := files st;
     trace := trace st |}.

Definition set_gen_train (x : list Batch) (k : nat) (st : St) : St :=
  {| net := net st; acc_test := acc_test st; ref_net := ref_net st;
     acc_test_ref := acc_test_ref st; all_test_data := all_test_data st;
     gen_train := x; epoch := k;
     label_train_counts := label_train_counts st; files := files st;
     trace := trace st |}.

Definition set_label_train_counts (x : list Z) (st : St) : St :=
  {| net := net st; acc_test := acc_test st; ref_net := ref_net st;
     acc_test_ref := acc_test_ref st; all_test_data := all_test_data st;
     gen_train := gen_train st; epoch := epoch st;
     label_train_counts := x; files := files st;
     trace := trace st |}.

Definition set_files (x : gmap string File) (st : St) : St :=
  {| net := net st; acc_test := acc_test st; ref_net := ref_net st;
     acc_test_ref := acc_test_ref st; all_test_data := all_test_data st;
     gen_train := gen_train st; epoch := epoch st;
     label_train_counts := label_train_counts st; files := x;
     trace := trace st |}.

Definition set_trace (x : list Event) (st : St) : St :=
  {| net := net st; acc_test := acc_test st; ref_net := ref_net st;
     acc_test_ref := acc_test_ref st; all_test_data := all_test_data st;
     gen_train := gen_train st; epoch := epoch st;
     label_train_counts := label_train_counts st; files := files st;
     trace := x |}.

(** ** The monad: state, and exceptions that keep the state reached *)

Inductive Res (A : Type) :=
| Ok (x : A) (st : St)
| Raise (e : Exc) (st : St).
Global Arguments Ok {A} x st.
Global Arguments Raise {A} e st.

Definition M (A : Type) : Type := St -> Res A.

Definition ret {A} (x : A) : M A := fun st => Ok x st.

Definition bind {A B} (m : M A) (k : A -> M B) : M B :=
  fun st => match m st with
            | Ok x st' => k x st'
            | Raise e st' => Raise e st'
            end.

Definition raise {A} (e : Exc) : M A := fun st => Raise e st.
Definition gets {A} (f : St -> A) : M A := fun st => Ok (f st) st.
Definition modify (f : St -> St) : M unit := fun st => Ok tt (f st).

Local Notation "'do' x <- m ; k" := (bind m (fun x => k))
  (at level 10, x name, m at level 100, k at level 200).
Local Notation "m >> k" := (bind m (fun _ => k))
  (at level 100, k at level 200, right associativity).

Definition unwrap {A} (e : Exc) (o : option A) : M A :=
  match o with
  | Some x => ret x
  | None => raise e
  end.

Definition lift {A} (r : Exc + A) : M A :=
  match r with
  | inl e => raise e
  | inr x => ret x
  end.

Definition when (b : bool) (m : M unit) : M unit :=
  if b then m else ret tt.

(** [for x in l: body] *)
Fixpoint for_ {A} (l : list A) (body : A -> M unit) : M unit :=
  match l with
  | [] => ret tt
  | x :: l => body x >> for_ l body
  end.

(** [for i, x in enumerate(l): body], counting from [i] *)
Fixpoint for_enumerate {A} (i : nat) (l : list A) (body : nat -> A -> M unit) : M unit :=
  match l with
  | [] => ret tt
  | x :: l => body i x >> for_enumerate (S i) l body
  end.

Definition emit (e : Event) : M unit :=
  modify (fun st => set_trace (trace st ++ [e]) st).

Definition print (line : string) : M unit := emit (Print line).

(** Reading a variable that is bound only when [just_ref] is off. *)
Definition get_net : M Net := do o <- gets net; unwrap NameError o.
Definition get_acc_test : M (list (list (list Acc))) :=
  do o <- gets acc_test; unwrap NameError o.

(** ** numpy arrays *)

(** Assignment of a vector to a row of given length, with numpy's broadcast
    of a one-element vector. *)
Definition broadcast (k : nat) (v : list Acc) : option (list Acc) :=
  if bool_decide (length v = k) then Some v
  else match v with
       | [x] => Some (replicate k x)
       | _ => None
       end.

(** [arr[test_idx, i, :] = v] *)
Definition assign3 (arr : list (list (list Acc))) (test_idx : Z) (i : nat)
    (v : list Acc) : Exc + list (list (list Acc)) :=
  match py_index (length arr) test_idx with
  | None => inl IndexError
  | Some r =>
    match arr !! r with
    | None => inl IndexError
    | Some plane =>
      match plane !! i with
      | None => inl IndexError
      | Some cell =>
        match broadcast (length cell) v with
        | None => inl ValueError
        | Some v' => inr (<[r := <[i := v']> plane]> arr)
        end
      end
    end
  end.

(** [arr[test_idx, i] = x] *)
Definition assign2 (arr : list (list Acc)) (test_idx : Z) (i : nat) (x : Acc)
    : Exc + list (list Acc) :=
  match py_index (length arr) test_idx with
  | None => inl IndexError
  | Some r =>
    match arr !! r with
    | None => inl IndexError
    | Some row =>
      if bool_decide (i < length row)%nat then inr (<[r := <[i := x]> row]> arr)
      else inl IndexError
    end
  end.

(** [arr[test_idx]] *)
Definition row_at {B} (arr : list B) (test_idx : Z) : option B :=
  r ← py_index (length arr) test_idx; arr !! r.

Definition py_mod (x y : Z) : option Z :=
  if bool_decide (y = 0) then None else Some (x mod y).

Definition py_floordiv (x y : Z) : option Z :=
  if bool_decide (y = 0) then None else Some (x / y).

Variable w : World.
Variable a : Args.

(** [np.empty([d0, d1, d2])] and [np.empty([d0, d1])]: a negative dimension
    raises [ValueError]. *)
Definition np_empty3 (d0 d1 : Z) (d2 : nat) : option (list (list (list Acc))) :=
  if bool_decide (0 <= d0 ∧ 0 <= d1) then
    Some ((fun r => (fun i => (fun j => empty3 w r i j) <$> seq 0 d2)
                      <$> seq 0 (Z.to_nat d1))
            <$> seq 0 (Z.to_nat d0))
  else None.

Definition np_empty2 (d0 d1 : Z) : option (list (list Acc)) :=
  if bool_decide (0 <= d0 ∧ 0 <= d1) then
    Some ((fun r => (fun i => empty2 w r i) <$> seq 0 (Z.to_nat d1))
            <$> seq 0 (Z.to_nat d0))
  else None.

(** Writing [file] under [name] in [out_dir]. *)
Definition save (name : string) (file : File) : M unit :=
  modify (fun st => set_files (<[os_path_join (out_dir w) name := file]> (files st)) st).

(** [[next(gen_test) for i in range(n_test)]] *)
Definition take_exactly {B} (n : nat) (l : list B) : option (list B) :=
  if bool_decide (n <= length l)%nat then Some (take n l) else None.

(** ** Before the loop *)

Definition dashes : string := str_repeat "-" 120.
Definition hashes : string := str_repeat "#" 120.

(** The state in which the script starts: nothing bound, nothing printed,
    an empty output directory. *)
Definition boot : St :=
  {| net := None; acc_test := None; ref_net := fresh_ref_net w;
     acc_test_ref := []; all_test_data := []; gen_train := []; epoch := 0;
     label_train_counts := []; files := ∅; trace := [] |}.

(** Lines 225-234. *)
Definition restore : M unit :=
  match restore_path a with
  | Some p =>
    when (truthy (Some p)) (
      print dashes >>
      (if negb (isfile w p) then
         print ("ERROR: Cannot load file `" +:+ p +:+ "`.") >>
         print "File does not exist! Exit loading..."
       else
         match torch_load w p with
         | inr state_dict =>
           do n <- get_net;
           modify (set_net (Some {| weights := state_dict;
                                    dcll_slices := dcll_slices n |})) >>
           print ("Loaded the weights of trained SNN model from `" +:+ p +:+ "`.")
         | inl (e, held) =>
           do n <- get_net;
           modify (set_net (Some {| weights := held;
                                    dcll_slices := dcll_slices n |})) >>
           raise e
         end) >>
      print dashes)
  | None => ret tt
  end.

(** Lines 107-295. *)
Definition setup : M unit :=
  print hashes >>
  print ("- Logging directory: " +:+ log_dir w) >>
  print ("- Output directory: " +:+ out_dir w) >>
  print hashes >>
  do n_test <- unwrap ZeroDivisionError
                 (ceil_div (n_test_samples a) (batch_size_test a));
  do n_tests_total <- unwrap ZeroDivisionError
                        (ceil_div (n_steps a) (n_test_interval a));
  when (negb (just_ref a)) (
    modify (set_net (Some (fresh_net w))) >>
    restore >>
    do n <- get_net;
    do arr <- unwrap ValueError
                (np_empty3 n_tests_total n_test (length (dcll_slices n)));
    modify (set_acc_test (Some arr))) >>
  do arr <- unwrap ValueError (np_empty2 n_tests_total n_test);
  modify (set_acc_test_ref arr) >>
  when (negb (no_save a)) (
    save "log_dir.txt" (Txt (log_dir w)) >>
    save "args.txt" (TxtArgs a) >>
    save "args.pkl" (PklArgs a)) >>
  modify (set_gen_train (train_data w 0) 1) >>
  do pool <- unwrap StopIteration
               (take_exactly (Z.to_nat n_test) (test_loader w));
  modify (set_all_test_data pool) >>
  modify (set_label_train_counts (replicate (Z.to_nat (target_size a)) 0)).

(** ** One step of the loop *)

(** [net.dcll_slices[i].optimizer.param_groups[-1]['lr'] /= 2] *)
Definition halve_slice_optimizer (i : nat) : M unit :=
  do n <- get_net;
  do s <- unwrap IndexError (dcll_slices n !! i);
  do pg <- unwrap IndexError (halve_last (optimizer s));
  modify (set_net (Some {| weights := weights n;
                           dcll_slices :=
                             <[i := {| optimizer := pg;
                                       optimizer2 := optimizer2 s |}]>
                               (dcll_slices n) |})).

(** [net.dcll_slices[-1].optimizer2.param_groups[-1]['lr'] /= 2] *)
Definition halve_last_optimizer2 : M unit :=
  do n <- get_net;
  do s <- unwrap IndexError (last (dcll_slices n));
  do pg2 <- unwrap AttributeError (optimizer2 s);
  do pg <- unwrap IndexError (halve_last pg2);
  modify (set_net (Some {| weights := weights n;
                           dcll_slices :=
                             <[pred (length (dcll_slices n)) :=
                                 {| optimizer := optimizer s;
                                    optimizer2 := Some pg |}]>
                               (dcll_slices n) |})).

(** [ref_net.optim.param_groups[-1]['lr'] /= 2] *)
Definition halve_ref_optim : M unit :=
  do r <- gets ref_net;
  do pg <- unwrap IndexError (halve_last (optim r));
  modify (set_ref_net {| ref_weights := ref_weights r; optim := pg |}).

(** Lines 302-308. *)
Definition adjust_learning_rates (step : nat) : M unit :=
  when (bool_decide ((step + 1) mod 1000 = 0)%nat) (
    when (negb (just_ref a)) (
      do n <- get_net;
      for_ (seq 0 (length (dcll_slices n))) halve_slice_optimizer >>
      halve_last_optimizer2) >>
    halve_ref_optim >>
    print "- Adjusting learning rates").

(** Lines 317-321: [next(gen_train)], and on [StopIteration] a new iterator
    and one more [next], whose own [StopIteration] nobody catches. *)
Definition next_train_batch : M Batch :=
  do it <- gets gen_train;
  match it with
  | b :: rest =>
    do k <- gets epoch;
    modify (set_gen_train rest k) >> ret b
  | [] =>
    do k <- gets epoch;
    match train_data w k with
    | b :: rest => modify (set_gen_train rest (S k)) >> ret b
    | [] => modify (set_gen_train [] (S k)) >> raise StopIteration
    end
  end.

(** [label_train_counts[label] += 1] *)
Definition count_label (label : Z) : M unit :=
  do counts <- gets label_train_counts;
  do k <- unwrap IndexError (py_index (length counts) label);
  do c <- unwrap IndexError (counts !! k);
  modify (set_label_train_counts (<[k := wrap64 (c + 1)]> counts)).

(** Lines 328-350: one presentation of the batch to the trainable network. *)
Definition train_net (step : nat) (batch : Batch) : M unit :=
  do n <- get_net;
  let '(weights', acc_train) := net_learn w step n batch in
  modify (set_net (Some {| weights := weights';
                           dcll_slices := dcll_slices n |})) >>
  emit (PrintTraining step acc_train).

(** Lines 355-360. *)
Definition train_ref (step : nat) (batch : Batch) : M unit :=
  do r <- gets ref_net;
  modify (set_ref_net {| ref_weights := ref_learn w step r batch;
                         optim := optim r |}).

Definition advice (msg : string) : string :=
  "- Exception: " +:+ msg +:+
  ". Try to decrease your batch_size_test with the --batch_size_test argument.".

(** Lines 367-408: one test batch of an evaluation round. *)
Definition test_batch (step : nat) (test_idx : Z) (i : nat) (test_data : Batch)
    : M unit :=
  when (negb (just_ref a)) (
    emit (ToTensor step i) >>
    match tensor_error w step i with
    | Some msg => print (advice msg) >> raise (RuntimeError msg)
    | None => ret tt
    end >>
    do n <- get_net;
    do arr <- get_acc_test;
    do arr' <- lift (assign3 arr test_idx i (net_accuracy w step i n test_data));
    modify (set_acc_test (Some arr')) >>
    when (bool_decide (i = 0%nat)) (emit (NetWriteStats step))) >>
  do r <- gets ref_net;
  do arr <- gets acc_test_ref;
  do arr' <- lift (assign2 arr test_idx i (ref_accuracy w step i r test_data));
  modify (set_acc_test_ref arr') >>
  when (bool_decide (i = 0%nat)) (emit (RefWriteStats step)).

Definition parameters_name (step : nat) : string :=
  "parameters_" +:+ pretty step +:+ ".pth".

(** Lines 411-421. *)
Definition save_round (step : nat) : M unit :=
  do arr <- get_acc_test;
  save "acc_test.npy" (Npy3 arr) >>
  do arr_ref <- gets acc_test_ref;
  save "acc_test_ref.npy" (Npy2 arr_ref) >>
  do n <- get_net;
  save (parameters_name step) (Pth (weights n)) >>
  print dashes >>
  print ("- Saved network parameters to `" +:+
         os_path_join (out_dir w) (parameters_name step) +:+ "`.") >>
  print dashes.

(** Lines 423-433. *)
Definition report_round (step : nat) (test_idx : Z) : M unit :=
  do acc <- (if negb (just_ref a) then
               do arr <- get_acc_test;
               do plane <- unwrap IndexError (row_at arr test_idx);
               ret (Some plane)
             else ret None);
  do arr_ref <- gets acc_test_ref;
  do acc_ref <- unwrap IndexError (row_at arr_ref test_idx);
  print dashes >>
  emit (PrintTesting step acc acc_ref) >>
  do counts <- gets label_train_counts;
  emit (PrintLabelPercentages counts) >>
  print dashes.

(** Lines 365-433: the evaluation round of step [step]. *)
Definition evaluate (step : nat) : M unit :=
  do test_idx <- unwrap ZeroDivisionError
                   (py_floordiv (Z.of_nat step) (n_test_interval a));
  do pool <- gets all_test_data;
  for_enumerate 0 pool (test_batch step test_idx) >>
  when (negb (just_ref a) && negb (no_save a)) (save_round step) >>
  report_round step test_idx.

(** Lines 300-433: the body of [for step in range(args.n_steps)]. *)
Definition body (step : nat) : M unit :=
  adjust_learning_rates step >>
  do batch <- next_train_batch;
  for_ (labels batch) count_label >>
  when (negb (just_ref a)) (train_net step batch) >>
  train_ref step batch >>
  do m <- unwrap ZeroDivisionError
            (py_mod (Z.of_nat step) (n_test_interval a));
  when (bool_decide (m = 0)) (evaluate step).

(** The first [k] iterations of the loop. *)
Definition steps (k : nat) : M unit := for_ (seq 0 k) body.

(** The script up to the end of its [k]-th iteration, from the start. *)
Definition run_steps (k : nat) : Res unit := (setup >> steps k) boot.

(** The whole script. *)
Definition main : M unit :=
  setup >> steps (Z.to_nat (n_steps a)) >> emit WriterClose.

Definition run : Res unit := main boot.

End Model.

Notation "'do' x <- m ; k" := (bind m (fun x => k))
  (at level 10, x name, m at level 100, k at level 200).
Notation "m >> k" := (bind m (fun _ => k))
  (at level 100, k at level 200, right associativity).

(** ** The effect of a step that raises nothing

    For each piece of the loop body, the state it leaves when none of its
    statements raises.  The lemmas of the next part show under which
    conditions the driver agrees with these functions; the theorems are then
    proved on them. *)

Section Functional.
Context {Samples Weights RefWeights Acc : Type}.
Variable w : @World Samples Weights RefWeights Acc.
Variable a : Args.
Local Abbreviation State := (@St Samples Weights RefWeights Acc).

Definition emitted (e : Event) (st : State) : State :=
  set_trace (trace st ++ [e]) st.

Definition saved (name : string) (file : File) (st : State) : State :=
  set_files (<[os_path_join (out_dir w) name := file]> (files st)) st.

(** *** Learning rates *)

Definition halved_groups (param_groups : list spec_float) : list spec_float :=
  default param_groups (halve_last param_groups).

Definition halved_optimizer (s : Slice) : Slice :=
  {| optimizer := halved_groups (optimizer s); optimizer2 := optimizer2 s |}.

Definition halved_optimizer2 (s : Slice) : Slice :=
  {| optimizer := optimizer s; optimizer2 := halved_groups <$> optimizer2 s |}.

Definition halved_slices (slices : list Slice) : list Slice :=
  alter halved_optimizer2 (pred (length slices)) (halved_optimizer <$> slices).

Definition halved_net (n : @Net Weights) : Net :=
  {| weights := weights n; dcll_slices := halved_slices (dcll_slices n) |}.

Definition halved_ref (r : @RefNet RefWeights) : RefNet :=
  {| ref_weights := ref_weights r; optim := halved_groups (optim r) |}.




(** The steps at whose start the learning rates are adjusted. *)
Definition adjusts (step : nat) : bool :=
  bool_decide ((step + 1) mod 1000 = 0)%nat.

Definition adjusted (step : nat) (st : State) : State :=
  if adjusts step then
    emitted (Print "- Adjusting learning rates")
      (set_ref_net (halved_ref (ref_net st))
         (if just_ref a then st else set_net (halved_net <$> net st) st))
  else st.

(** *** The training batch *)

(** The batch that [next_train_batch] returns, when there is one. *)
Definition fetched (st : State) : option Batch :=
  match gen_train st with
  | b :: _ => Some b
  | [] => head (train_data w (epoch st))
  end.

Definition advanced (st : State) : State :=
  match gen_train st with
  | _ :: rest => set_gen_train rest (epoch st) st
  | [] => set_gen_train (tail (train_data w (epoch st))) (S (epoch st)) st
  end.

(** *** The label counter *)

Definition counted1 (counts : list Z) (label : Z) : list Z :=
  match py_index (length counts) label with
  | Some k => alter (fun c => wrap64 (c + 1)) k counts
  | None => counts
  end.

(** How many of the labels [ls] are counted for class [j] of [n]. *)
Definition hits (n j : nat) (ls : list Z) : Z :=
  Z.of_nat (length (filter (fun l => l mod Z.of_nat n = Z.of_nat j) ls)).

Definition counted (ls : list Z) (st : State) : State :=
  set_label_train_counts (foldl counted1 (label_train_counts st) ls) st.

(** *** Training *)

Definition trained_net (step : nat) (batch : Batch) (st : State) : State :=
  match net st with
  | Some n =>
    emitted (PrintTraining step (net_learn w step n batch).2)
      (set_net (Some {| weights := (net_learn w step n batch).1;
                        dcll_slices := dcll_slices n |}) st)
  | None => st
  end.

Definition trained_ref (step : nat) (batch : Batch) (st : State) : State :=
  set_ref_net {| ref_weights := ref_learn w step (ref_net st) batch;
                 optim := optim (ref_net st) |} st.

(** *** Evaluation *)

(** The entry [i] of row [r] of a two-dimensional array, and the array with
    that entry replaced. *)
Definition cell {B} (arr : list (list B)) (r i : nat) : option B :=
  row ← arr !! r; row !! i.

Definition put {B} (arr : list (list B)) (r i : nat) (x : B) : list (list B) :=
  match arr !! r with
  | Some row => <[r := <[i := x]> row]> arr
  | None => arr
  end.

Definition put3 (arr : list (list (list Acc))) (r i : nat) (v : list Acc)
    : list (list (list Acc)) := put arr r i v.

Definition put2 (arr : list (list Acc)) (r i : nat) (x : Acc) : list (list Acc) :=
  put arr r i x.

Definition tested_net (step r i : nat) (test_data : Batch) (st : State) : State :=
  match net st, acc_test st with
  | Some n, Some arr =>
    (if bool_decide (i = 0%nat) then emitted (NetWriteStats step) else id)
      (set_acc_test (Some (put3 arr r i (net_accuracy w step i n test_data)))
         (emitted (ToTensor step i) st))
  | _, _ => st
  end.

Definition tested_ref (step r i : nat) (test_data : Batch) (st : State) : State :=
  (if bool_decide (i = 0%nat) then emitted (RefWriteStats step) else id)
    (set_acc_test_ref
       (put2 (acc_test_ref st) r i (ref_accuracy w step i (ref_net st) test_data))
       st).

Definition tested (step r i : nat) (test_data : Batch) (st : State) : State :=
  tested_ref step r i test_data
    (if just_ref a then st else tested_net step r i test_data st).

Fixpoint tested_from (step r i : nat) (pool : list Batch) (st : State) : State :=
  match pool with
  | [] => st
  | b :: pool => tested_from step r (S i) pool (tested step r i b st)
  end.

Definition saved_round (step : nat) (st : State) : State :=
  match net st, acc_test st with
  | Some n, Some arr =>
    emitted (Print dashes)
      (emitted (Print ("- Saved network parameters to `" +:+
                       os_path_join (out_dir w) (parameters_name step) +:+ "`."))
         (emitted (Print dashes)
            (saved (parameters_name step) (Pth (weights n))
               (saved "acc_test_ref.npy" (Npy2 (acc_test_ref st))
                  (saved "acc_test.npy" (Npy3 arr) st)))))
  | _, _ => st
  end.

Definition reported (step r : nat) (st : State) : State :=
  emitted (Print dashes)
    (emitted (PrintLabelPercentages (label_train_counts st))
       (emitted (PrintTesting step
                   (if just_ref a then None
                    else Some (default [] (arr ← acc_test st; arr !! r)))
                   (default [] (acc_test_ref st !! r)))
          (emitted (Print dashes) st))).

(** The steps that end with an evaluation round. *)
Definition evaluates (step : nat) : bool :=
  bool_decide (Z.of_nat step mod n_test_interval a = 0).

(** The round index of [step]. *)
Definition round_of (step : nat) : nat :=
  Z.to_nat (Z.of_nat step / n_test_interval a).

Definition evaluated (step : nat) (st : State) : State :=
  if evaluates step then
    reported step (round_of step)
      ((if negb (just_ref a) && negb (no_save a) then saved_round step else id)
         (tested_from step (round_of step) 0 (all_test_data st) st))
  else st.

(** The state after the training part of the body of the loop at [step],
    when it fetched [batch], and the state after the whole body. *)
Definition trained (step : nat) (batch : Batch) (st : State) : State :=
  trained_ref step batch
    ((if just_ref a then id else trained_net step batch)
       (counted (labels batch) (advanced (adjusted step st)))).

Definition stepped (step : nat) (batch : Batch) (st : State) : State :=
  evaluated step (trained step batch st).

(** ** Conditions under which a run raises nothing *)

Definition n_test : nat :=
  Z.to_nat (- ((- n_test_samples a) / batch_size_test a)).

Definition n_tests_total : nat :=
  Z.to_nat (- ((- n_steps a) / n_test_interval a)).

Definition num_slices : nat := length (dcll_slices (fresh_net w)).

(** The arguments on which the two ceilings are the ones that lines 186-191
    compute.  The driver divides in binary64 and rounds the quotient up;
    for a dividend and a divisor of at most 53 bits this is the exact
    ceiling ([float_ceil_div_exact]), and beyond it need not be. *)
Definition ceilings_exact : Prop :=
  n_steps a < 2 ^ 53 ∧ n_test_interval a < 2 ^ 53 ∧
  n_test_samples a < 2 ^ 53 ∧ batch_size_test a < 2 ^ 53.

(** Every optimizer the driver rescales has a parameter group, and the last
    slice has its second optimizer. *)
Definition slices_ok (slices : list Slice) : Prop :=
  length slices = num_slices ∧
  Forall (fun s => optimizer s ≠ []) slices ∧
  ∃ s pg, last slices = Some s ∧ optimizer2 s = Some pg ∧ pg ≠ [].

(** What the driver needs of its arguments and of its collaborators. *)
Record Healthy : Prop := {
  interval_pos : 0 < n_test_interval a;
  steps_nonneg : 0 <= n_steps a;
  batch_size_test_pos : 0 < batch_size_test a;
  test_samples_nonneg : 0 <= n_test_samples a;
  test_loader_long : (n_test <= length (test_loader w))%nat;
  restore_loadable :
    ∀ p, just_ref a = false → restore_path a = Some p → p ≠ ""%string →
         isfile w p = true → ∃ state_dict, torch_load w p = inr state_dict;
  train_nonempty : ∀ k, train_data w k ≠ [];
  labels_in_range :
    ∀ k b, b ∈ train_data w k →
           Forall (fun l => - target_size a <= l < target_size a) (labels b);
  net_ok : just_ref a = false → slices_ok (dcll_slices (fresh_net w));
  ref_ok : optim (fresh_ref_net w) ≠ [];
  accuracy_shape :
    ∀ step i n b, length (net_accuracy w step i n b) = num_slices;
}.

(** No test spike train fails to reach the device. *)
Definition ToTensorWorks : Prop := ∀ step i, tensor_error w step i = None.

Definition shape2 (arr : list (list Acc)) : Prop :=
  length arr = n_tests_total ∧ Forall (fun row => length row = n_test) arr.

Definition shape3 (arr : list (list (list Acc))) : Prop :=
  length arr = n_tests_total ∧
  Forall (fun plane => length plane = n_test ∧
                       Forall (fun cell => length cell = num_slices) plane) arr.

(** What holds of the state between two iterations of the loop. *)
Record Inv (st : State) : Prop := {
  inv_net :
    just_ref a = false →
    ∃ n arr, net st = Some n ∧ acc_test st = Some arr ∧
             slices_ok (dcll_slices n) ∧ shape3 arr;
  inv_ref : optim (ref_net st) ≠ [];
  inv_acc_test_ref : shape2 (acc_test_ref st);
  inv_pool : all_test_data st = take n_test (test_loader w);
  inv_gen : Forall (fun b => ∃ k, b ∈ train_data w k) (gen_train st);
  inv_counts : length (label_train_counts st) = Z.to_nat (target_size a);
}.

(** ** The state in which the loop starts *)

(** The memory of the two arrays as [np.empty] returns it. *)
Definition garbage3 : list (list (list Acc)) :=
  (fun r => (fun i => (fun j => empty3 w r i j) <$> seq 0 num_slices)
              <$> seq 0 n_test)
    <$> seq 0 n_tests_total.

Definition garbage2 : list (list Acc) :=
  (fun r => (fun i => empty2 w r i) <$> seq 0 n_test) <$> seq 0 n_tests_total.

(** The restore path, when the driver is to load it. *)
Definition restorable : option string :=
  match restore_path a with
  | Some p => if truthy (Some p) && isfile w p then Some p else None
  | None => None
  end.

(** The trainable network after lines 220-239. *)
Definition restored_net : @Net Weights :=
  match restorable with
  | Some p => {| weights := match torch_load w p with
                            | inr state_dict => state_dict
                            | inl _ => weights (fresh_net w)
                            end;
                 dcll_slices := dcll_slices (fresh_net w) |}
  | None => fresh_net w
  end.

Definition restore_lines : list (@Event Acc) :=
  match restore_path a with
  | Some p =>
    if truthy (Some p) then
      [Print dashes] ++
      (if isfile w p then
         [Print ("Loaded the weights of trained SNN model from `" +:+ p +:+ "`.")]
       else
         [Print ("ERROR: Cannot load file `" +:+ p +:+ "`.");
          Print "File does not exist! Exit loading..."]) ++
      [Print dashes]
    else []
  | None => []
  end.

Definition metadata : gmap string (@File Weights Acc) :=
  <[os_path_join (out_dir w) "args.pkl" := PklArgs a]>
    (<[os_path_join (out_dir w) "args.txt" := TxtArgs a]>
       (<[os_path_join (out_dir w) "log_dir.txt" := Txt (log_dir w)]> ∅)).

Definition initial : State :=
  {| net := if just_ref a then None else Some restored_net;
     acc_test := if just_ref a then None else Some garbage3;
     ref_net := fresh_ref_net w;
     acc_test_ref := garbage2;
     all_test_data := take n_test (test_loader w);
     gen_train := train_data w 0;
     epoch := 1;
     label_train_counts := replicate (Z.to_nat (target_size a)) 0;
     files := if no_save a then ∅ else metadata;
     trace := [Print hashes;
               Print ("- Logging directory: " +:+ log_dir w);
               Print ("- Output directory: " +:+ out_dir w);
               Print hashes] ++
              (if just_ref a then [] else restore_lines) |}.

(** ** What the arrays hold *)

(** The steps whose evaluation round has printed its [TESTING] line. *)
Definition testing_step (e : @Event Acc) : option nat :=
  match e with
  | PrintTesting step _ _ => Some step
  | _ => None
  end.

Definition evaluated_steps (tr : list (@Event Acc)) : list nat :=
  omap testing_step tr.

(** The attempts to put a test spike train on the device, as pairs of the
    step and the index of the test batch. *)
Definition tensor_attempt (e : @Event Acc) : option (nat * nat) :=
  match e with
  | ToTensor step i => Some (step, i)
  | _ => None
  end.

Definition tensor_attempts (tr : list (@Event Acc)) : list (nat * nat) :=
  omap tensor_attempt tr.

(** Whether [line] has been printed. *)
Definition printed (line : string) (tr : list (@Event Acc)) : bool :=
  existsb (fun e => match e with
                    | Print l => bool_decide (l = line)
                    | _ => false
                    end) tr.

(** The step at which round [r] is run. *)
Definition round_step (r : nat) : nat := (r * Z.to_nat (n_test_interval a))%nat.

(** Entry [[r, j]] of the arrays of [st] holds what round [r] measured on
    test batch [j]: the accuracy of the reference network, and the accuracies
    of the slices of the trainable network when there is one, both as the
    networks were at the end of the step of that round. *)
Definition recorded (r j : nat) (st : State) : Prop :=
  ∃ st_r b,
    run_steps w a (S (round_step r)) = Ok tt st_r ∧
    take n_test (test_loader w) !! j = Some b ∧
    cell (acc_test_ref st) r j =
    Some (ref_accuracy w (round_step r) j (ref_net st_r) b) ∧
    (just_ref a = false →
     ∃ n arr, net st_r = Some n ∧ acc_test st = Some arr ∧
              cell arr r j = Some (net_accuracy w (round_step r) j n b)).

(** Entry [[r, j]] of the arrays of [st] holds what [np.empty] left there. *)
Definition untouched (r j : nat) (st : State) : Prop :=
  cell (acc_test_ref st) r j = Some (empty2 w r j) ∧
  (just_ref a = false →
   ∃ arr, acc_test st = Some arr ∧
          cell arr r j = Some ((fun s => empty3 w r j s) <$> seq 0 num_slices)).

(** ** More readings of the trace *)

(** The steps whose [TRAINING] line has been printed. *)
Definition training_step (e : @Event Acc) : option nat :=
  match e with
  | PrintTraining step _ => Some step
  | _ => None
  end.

Definition training_steps (tr : list (@Event Acc)) : list nat :=
  omap training_step tr.

(** The counters whose percentages have been printed. *)
Definition label_report (e : @Event Acc) : option (list Z) :=
  match e with
  | PrintLabelPercentages counts => Some counts
  | _ => None
  end.

Definition label_reports (tr : list (@Event Acc)) : list (list Z) :=
  omap label_report tr.

(** How many times the summary writer has been closed. *)
Definition is_close (e : @Event Acc) : bool :=
  match e with
  | WriterClose => true
  | _ => false
  end.

Definition closes (tr : list (@Event Acc)) : nat :=
  length (List.filter is_close tr).

(** What test batch [i] of the round of [step] sends out. *)
Definition tested_events (step i : nat) : list (@Event Acc) :=
  (if just_ref a then []
   else ToTensor step i ::
        (if bool_decide (i = 0%nat) then [NetWriteStats step] else [])) ++
  (if bool_decide (i = 0%nat) then [RefWriteStats step] else []).

(** What the round of [step] sends out, [st'] being the state it leaves. *)
Definition round_events (step : nat) (st' : State) : list (@Event Acc) :=
  concat (tested_events step <$> seq 0 n_test) ++
  (if negb (just_ref a) && negb (no_save a)
   then [Print dashes;
         Print ("- Saved network parameters to `" +:+
                os_path_join (out_dir w) (parameters_name step) +:+ "`.");
         Print dashes]
   else []) ++
  [Print dashes;
   PrintTesting step
     (if just_ref a then None
      else Some (default [] (arr ← acc_test st'; arr !! round_of step)))
     (default [] (acc_test_ref st' !! round_of step));
   PrintLabelPercentages (label_train_counts st');
   Print dashes].

(** What the body of the loop sends out at [step], when it fetched [batch],
    started in [st] and left [st']. *)
Definition step_events (step : nat) (batch : Batch) (st st' : State)
    : list (@Event Acc) :=
  (if adjusts step then [Print "- Adjusting learning rates"] else []) ++
  (if just_ref a then []
   else match net (adjusted step st) with
        | Some n => [PrintTraining step (net_learn w step n batch).2]
        | None => []
        end) ++
  (if evaluates step then round_events step st' else []).

(** The steps whose statistics have been handed to the summary writer, for
    the trainable network and for the reference network. *)
Definition net_stats_step (e : @Event Acc) : option nat :=
  match e with
  | NetWriteStats step => Some step
  | _ => None
  end.

Definition ref_stats_step (e : @Event Acc) : option nat :=
  match e with
  | RefWriteStats step => Some step
  | _ => None
  end.

Definition net_stats (tr : list (@Event Acc)) : list nat := omap net_stats_step tr.
Definition ref_stats (tr : list (@Event Acc)) : list nat := omap ref_stats_step tr.

(** The events that are printed lines. *)
Definition is_print (e : @Event Acc) : Prop := ∃ line, e = Print line.

(** The state in which a computation ends, whether it returns or raises. *)
Definition state_of {A} (r : @Res Samples Weights RefWeights Acc A) : State :=
  match r with
  | Ok _ st => st
  | Raise _ st => st
  end.

(** A computation that does not close the summary writer. *)
Definition keeps_open {A} (m : @M Samples Weights RefWeights Acc A) : Prop :=
  ∀ st, closes (trace st) = 0%nat → closes (trace (state_of (m st))) = 0%nat.


(** ** Conditions under which the loop is reached *)

(** What the lines before the loop need, the test loader apart: divisors
    and dimensions that [np.ceil] and [np.empty] accept, and a restore file
    that loads when there is one. *)
Record Startable : Prop := {
  start_interval : 0 < n_test_interval a;
  start_steps : - n_test_interval a < n_steps a;
  start_batch_size_test : 0 < batch_size_test a;
  start_test_samples : - batch_size_test a < n_test_samples a;
  start_restore :
    ∀ p, just_ref a = false → restore_path a = Some p → p ≠ ""%string →
         isfile w p = true → ∃ state_dict, torch_load w p = inr state_dict;
}.

(** The state in which line 292 asks the test loader for the pool. *)
Definition before_pool : State :=
  set_label_train_counts [] (set_all_test_data [] initial).

End Functional.

(** ** The keyword arguments of the loaders and of the encoders

    Lines 125-177.  A dictionary of keyword arguments is a finite map from
    the names to the values; the floats are only passed on. *)

Inductive Value :=
| VInt (z : Z)
| VFloat (x : Q)
| VStr (s : string)
| VTuple (dims : Z * Z * Z).

(** The arguments of the command line that end up in the dictionaries. *)
Record Encoding := {
  radio_ml_data_dir : string;
  min_snr : Z;
  max_snr : Z;
  per_h5_frac : Q;
  train_frac : Q;
  I_resolution : Z;
  Q_resolution : Z;
  I_bounds : Q * Q;
  Q_bounds : Q * Q;
  n_iters : Z;
  n_iters_test : Z;
}.

Record Kwargs := {
  im_dims : Z * Z * Z;
  ref_im_dims : Z * Z * Z;
  get_loader_kwargs : gmap string Value;
  to_st_train_kwargs : gmap string Value;
  to_st_test_kwargs : gmap string Value;
}.

(** The body of [for to_st_kwargs in (to_st_train_kwargs, to_st_test_kwargs)]
    for each of the two data sets. *)
Definition mnist_to_st_kwargs (kw : gmap string Value) : gmap string Value :=
  <["gain" := VInt 100]> (<["input_shape" := VTuple (1, 28, 28)]> kw).

Definition radio_ml_to_st_kwargs (e : Encoding) (kw : gmap string Value)
    : gmap string Value :=
  <["max_Q" := VFloat (Q_bounds e).2]>
    (<["min_Q" := VFloat (Q_bounds e).1]>
       (<["max_I" := VFloat (I_bounds e).2]>
          (<["min_I" := VFloat (I_bounds e).1]>
             (<["out_h" := VInt (Q_resolution e)]>
                (<["out_w" := VInt (I_resolution e)]> kw))))).

Definition kwargs (a : Args) (e : Encoding) : Kwargs :=
  match data a with
  | MNIST =>
    {| im_dims := (1, 28, 28);
       ref_im_dims := (1, 28, 28);
       get_loader_kwargs := ∅;
       to_st_train_kwargs :=
         <["max_duration" := VInt (n_iters e)]>
           (<["min_duration" := VInt (n_iters e - 1)]> (mnist_to_st_kwargs ∅));
       to_st_test_kwargs :=
         <["max_duration" := VInt (n_iters_test e)]>
           (<["min_duration" := VInt (n_iters_test e - 1)]>
              (mnist_to_st_kwargs ∅)) |}
  | RadioML =>
    {| im_dims := (1, Q_resolution e, I_resolution e);
       ref_im_dims := (2, 1, 1024);
       get_loader_kwargs :=
         <["train_frac" := VFloat (train_frac e)]>
           (<["per_h5_frac" := VFloat (per_h5_frac e)]>
              (<["max_snr" := VInt (max_snr e)]>
                 (<["min_snr" := VInt (min_snr e)]>
                    (<["data_dir" := VStr (radio_ml_data_dir e)]> ∅))));
       to_st_train_kwargs :=
         <["gs_stdev" := VInt 0]>
           (<["max_duration" := VInt (n_iters e)]> (radio_ml_to_st_kwargs e ∅));
       to_st_test_kwargs :=
         <["gs_stdev" := VInt 0]>
           (<["max_duration" := VInt (n_iters_test e)]>
              (radio_ml_to_st_kwargs e ∅)) |}
  end.

(** Lines 330-331, at every step with a trainable network:
    [to_st_train_kwargs['max_duration'] = n_iters_sampled], where
    [n_iters_sampled = n_iters]. *)
Definition resampled (e : Encoding) (kw : gmap string Value) : gmap string Value :=
  <["max_duration" := VInt (n_iters e)]> kw.

(** ** Small worlds on which the driver can be run

    Samples carry no information, parameters count the presentations they
    have been trained on, and an accuracy is a natural number. *)

Module Demo.

Definition batch (ls : list Z) : @Batch unit := {| samples := tt; labels := ls |}.

(** The binary64 numbers [1e-6], [1e-3] and [0.1]. *)
Definition lr_1e_6 : spec_float := S754_finite false 4722366482869645 (-72).
Definition lr_1e_3 : spec_float := S754_finite false 4611686018427388 (-62).
Definition lr_1e_1 : spec_float := S754_finite false 7205759403792794 (-56).

Definition slices : list Slice :=
  [ {| optimizer := [lr_1e_6]; optimizer2 := None |};
    {| optimizer := [lr_1e_1; lr_1e_6];
       optimizer2 := Some [lr_1e_6] |} ].

(** A world with two slices, a training set of two batches of four examples
    that is iterated in the same order every time, and three test batches.
    Unused memory holds 777. *)
Definition world : @World unit nat nat nat :=
  {| log_dir := "runs/MNIST/Jan01_00-00-00";
     out_dir := "results/MNIST/Jan01_00-00-00";
     fresh_net := {| weights := 0%nat; dcll_slices := slices |};
     fresh_ref_net := {| ref_weights := 0%nat; optim := [lr_1e_3] |};
     isfile := fun _ => false;
     torch_load := fun _ => inl (UnpicklingError, 0%nat);
     train_data := fun _ => [batch [0; 1; 2; 0]; batch [9; 9; 3; 1]];
     test_loader := [batch [0; 1]; batch [2; 3]; batch [4; 5]];
     net_learn := fun _ n _ => (S (weights n), [weights n; weights n]);
     net_accuracy := fun _ i n _ => [(10 * weights n + i)%nat; (10 * weights n + i + 100)%nat];
     ref_learn := fun _ r _ => S (ref_weights r);
     ref_accuracy := fun _ i r _ => (10 * ref_weights r + i)%nat;
     tensor_error := fun _ _ => None;
     empty3 := fun _ _ _ => 777%nat;
     empty2 := fun _ _ => 777%nat |}.

(** The same world, in which the second test batch of the round of step 2
    does not fit the device. *)
Definition small_device : @World unit nat nat nat :=
  {| log_dir := log_dir world;
     out_dir := out_dir world;
     fresh_net := fresh_net world;
     fresh_ref_net := fresh_ref_net world;
     isfile := isfile world;
     torch_load := torch_load world;
     train_data := train_data world;
     test_loader := test_loader world;
     net_learn := net_learn world;
     net_accuracy := net_accuracy world;
     ref_learn := ref_learn world;
     ref_accuracy := ref_accuracy world;
     tensor_error := fun step i =>
       if bool_decide (step = 2%nat ∧ i = 1%nat)
       then Some "CUDA out of memory"%string else None;
     empty3 := empty3 world;
     empty2 := empty2 world |}.

(** Five steps, an evaluation round every other step, two test batches. *)
Definition args : Args :=
  {| data := MNIST; just_ref := false; restore_path := None;
     batch_size := 4; batch_size_test := 2; n_steps := 5; no_save := false;
     n_test_interval := 2; n_test_samples := 4 |}.

(** The same with saving disabled, in reference-only mode, with a restore
    path that names no file, with both, and with two thousand steps. *)
Definition args_no_save : Args :=
  {| data := MNIST; just_ref := false; restore_path := None;
     batch_size := 4; batch_size_test := 2; n_steps := 5; no_save := true;
     n_test_interval := 2; n_test_samples := 4 |}.

Definition args_just_ref : Args :=
  {| data := MNIST; just_ref := true; restore_path := None;
     batch_size := 4; batch_size_test := 2; n_steps := 5; no_save := false;
     n_test_interval := 2; n_test_samples := 4 |}.

Definition args_restore : Args :=
  {| data := MNIST; just_ref := false; restore_path := Some "missing.pth"%string;
     batch_size := 4; batch_size_test := 2; n_steps := 5; no_save := false;
     n_test_interval := 2; n_test_samples := 4 |}.

Definition args_just_ref_restore : Args :=
  {| data := MNIST; just_ref := true; restore_path := Some "missing.pth"%string;
     batch_size := 4; batch_size_test := 2; n_steps := 5; no_save := false;
     n_test_interval := 2; n_test_samples := 4 |}.



(** Arguments on which the lines before the loop stop the run or leave the
    loop nothing to do: a test interval of zero, a number of steps below
    minus the interval, one just below zero, and more test samples than the
    test loader holds. *)
Definition args_zero_interval : Args :=
  {| data := MNIST; just_ref := false; restore_path := None;
     batch_size := 4; batch_size_test := 2; n_steps := 5; no_save := false;
     n_test_interval := 0; n_test_samples := 4 |}.

Definition args_negative_steps : Args :=
  {| data := MNIST; just_ref := false; restore_path := None;
     batch_size := 4; batch_size_test := 2; n_steps := -5; no_save := false;
     n_test_interval := 2; n_test_samples := 4 |}.



(** A restore path that names a file which is there but does not load. *)
Definition args_corrupt : Args :=
  {| data := MNIST; just_ref := false; restore_path := Some "corrupt.pth"%string;
     batch_size := 4; batch_size_test := 2; n_steps := 5; no_save := false;
     n_test_interval := 2; n_test_samples := 4 |}.

Definition corrupt_file : @World unit nat nat nat :=
  {| log_dir := log_dir world;
     out_dir := out_dir world;
     fresh_net := fresh_net world;
     fresh_ref_net := fresh_ref_net world;
     isfile := fun p => bool_decide (p = "corrupt.pth"%string);
     torch_load := fun _ => inl (RuntimeError "Error(s) in loading state_dict", 5%nat);
     train_data := train_data world;
     test_loader := test_loader world;
     net_learn := net_learn world;
     net_accuracy := net_accuracy world;
     ref_learn := ref_learn world;
     ref_accuracy := ref_accuracy world;
     tensor_error := tensor_error world;
     empty3 := empty3 world;
     empty2 := empty2 world |}.

(** The world with a training loader that yields nothing. *)
Definition no_training_data : @World unit nat nat nat :=
  {| log_dir := log_dir world;
     out_dir := out_dir world;
     fresh_net := fresh_net world;
     fresh_ref_net := fresh_ref_net world;
     isfile := isfile world;
     torch_load := torch_load world;
     train_data := fun _ => [];
     test_loader := test_loader world;
     net_learn := net_learn world;
     net_accuracy := net_accuracy world;
     ref_learn := ref_learn world;
     ref_accuracy := ref_accuracy world;
     tensor_error := tensor_error world;
     empty3 := empty3 world;
     empty2 := empty2 world |}.

(** The world with a training loader that shuffles: its first iteration
    yields the two batches in one order and every later one in the other. *)
Definition reshuffled : @World unit nat nat nat :=
  {| log_dir := log_dir world;
     out_dir := out_dir world;
     fresh_net := fresh_net world;
     fresh_ref_net := fresh_ref_net world;
     isfile := isfile world;
     torch_load := torch_load world;
     train_data := fun k =>
       match k with
       | O => [batch [0; 1; 2; 0]; batch [9; 9; 3; 1]]
       | S _ => [batch [9; 9; 3; 1]; batch [0; 1; 2; 0]]
       end;
     test_loader := test_loader world;
     net_learn := net_learn world;
     net_accuracy := net_accuracy world;
     ref_learn := ref_learn world;
     ref_accuracy := ref_accuracy world;
     tensor_error := tensor_error world;
     empty3 := empty3 world;
     empty2 := empty2 world |}.

(** The world with a training loader that can be iterated only once. *)
Definition one_pass : @World unit nat nat nat :=
  {| log_dir := log_dir world;
     out_dir := out_dir world;
     fresh_net := fresh_net world;
     fresh_ref_net := fresh_ref_net world;
     isfile := isfile world;
     torch_load := torch_load world;
     train_data := fun k =>
       match k with
       | O => [batch [0; 1; 2; 0]; batch [9; 9; 3; 1]]
       | S _ => []
       end;
     test_loader := test_loader world;
     net_learn := net_learn world;
     net_accuracy := net_accuracy world;
     ref_learn := ref_learn world;
     ref_accuracy := ref_accuracy world;
     tensor_error := tensor_error world;
     empty3 := empty3 world;
     empty2 := empty2 world |}.


Definition args_empty_restore : Args :=
  {| data := MNIST; just_ref := false; restore_path := Some ""%string;
     batch_size := 4; batch_size_test := 2; n_steps := 5; no_save := false;
     n_test_interval := 2; n_test_samples := 4 |}.

End Demo.

(** * Properties *)

Section Properties.
Context {Samples Weights RefWeights Acc : Type}.
Variable w : @World Samples Weights RefWeights Acc.
Variable a : Args.
Local Abbreviation State := (@St Samples Weights RefWeights Acc).

(** ** The monad *)

Lemma bind_Ok {A B} (m : M A) (k : A -> M B) (st st' : State) x :
  m st = Ok x st' → bind m k st = k x st'.
Proof. unfold bind. by intros ->. Qed.

Lemma bind_Raise {A B} (m : M A) (k : A -> M B) (st st' : State) e :
  m st = Raise e st' → bind m k st = Raise e st'.
Proof. unfold bind. by intros ->. Qed.

(** Running the first command of a sequence whose result is known. *)
Ltac mstep H :=
  match goal with
  | |- bind ?m ?k ?st = _ => rewrite (bind_Ok m k st _ _ H); cbv beta
  | |- bind ?m ?k ?st = _ ∧ _ => rewrite (bind_Ok m k st _ _ H); cbv beta
  end.

Lemma bind_ret {A B} (x : A) (k : A -> M B) (st : State) :
  bind (ret x) k st = k x st.
Proof. reflexivity. Qed.

Lemma for__app {A} (l1 l2 : list A) (f : A -> M unit) (st : State) :
  for_ (l1 ++ l2) f st = (for_ l1 f >> for_ l2 f) st.
Proof.
  revert st. induction l1 as [|x l1 IH]; intros st; simpl.
  - reflexivity.
  - unfold bind in *. destruct (f x st) as [[] st'|e st']; [|reflexivity].
    apply IH.
Qed.

Lemma steps_S (k : nat) (st : State) :
  steps w a (S k) st = (steps w a k >> body w a k) st.
Proof.
  unfold steps. rewrite seq_S, for__app. simpl.
  unfold bind. destruct (for_ (seq 0 k) (body w a) st) as [[] st'|]; [|done].
  destruct (body w a k st') as [[] st''|]; done.
Qed.

(** A loop whose body never raises under an invariant is a fold. *)
Lemma for__fold {A} (P : State → Prop) (f : A → M unit) (g : A → State → State)
    (l : list A) (st : State) :
  (∀ x st, x ∈ l → P st → f x st = Ok tt (g x st) ∧ P (g x st)) →
  P st →
  for_ l f st = Ok tt (foldl (fun st x => g x st) st l) ∧
  P (foldl (fun st x => g x st) st l).
Proof.
  revert st. induction l as [|x l IH]; intros st Hf HP; simpl; [done|].
  destruct (Hf x st) as [Hx HP']; [left|done|].
  rewrite (bind_Ok _ _ _ _ _ Hx). apply IH; [|done].
  intros y st' Hy. apply Hf. by right.
Qed.

(** ** Halving the learning rates *)

Lemma halve_last_snoc (front : list spec_float) (lr : spec_float) :
  halve_last (front ++ [lr]) = Some (front ++ [halve lr]).
Proof.
  induction front as [|g front IH]; simpl; [done|].
  rewrite IH. by destruct front.
Qed.

Lemma nonempty_snoc {B} (l : list B) : l ≠ [] → ∃ front x, l = front ++ [x].
Proof.
  intros Hl. destruct (decide (l = [])) as [->|_]; [done|].
  induction l as [|y l IH] using rev_ind; [done|]. eauto.
Qed.

Lemma halve_last_Some (pg : list spec_float) :
  pg ≠ [] → halve_last pg = Some (halved_groups pg) ∧ halved_groups pg ≠ [].
Proof.
  intros (front & lr & ->)%nonempty_snoc. unfold halved_groups.
  rewrite halve_last_snoc. split; [done|]. simpl. by destruct front.
Qed.


Lemma halve_slices_loop (l2 l1 : list Slice) (n : Net) (st : State) :
  net st = Some n →
  dcll_slices n = l1 ++ l2 →
  Forall (fun s => optimizer s ≠ []) l2 →
  for_ (seq (length l1) (length l2)) halve_slice_optimizer st =
  Ok tt (set_net (Some {| weights := weights n;
                          dcll_slices := l1 ++ (halved_optimizer <$> l2) |}) st).
Proof.
  revert l1 n st. induction l2 as [|s l2 IH]; intros l1 n st Hn Hs Hne; simpl.
  - rewrite app_nil_r in *. unfold ret. f_equal.
    destruct st, n; simpl in *. by subst.
  - inversion_clear Hne as [|? ? Hs1 Hs2].
    destruct (halve_last_Some _ Hs1) as [Hh _].
    assert (dcll_slices n !! length l1 = Some s) as Hl.
    { rewrite Hs. by rewrite list_lookup_middle. }
    unfold halve_slice_optimizer at 1, get_net.
    unfold bind at 1 2 3 4 5, gets, unwrap, modify, ret. rewrite Hn. simpl.
    rewrite Hl. simpl. rewrite Hh. simpl.
    set (st1 := set_net _ st).
    specialize (IH (l1 ++ [halved_optimizer s])
                  {| weights := weights n;
                     dcll_slices := (l1 ++ [halved_optimizer s]) ++ l2 |} st1).
    rewrite length_app, Nat.add_1_r in IH. rewrite IH; [| |done|done].
    + subst st1. simpl. by rewrite <- app_assoc.
    + subst st1. simpl. do 2 f_equal. rewrite Hs.
      rewrite <- app_assoc. simpl.
      replace (length l1) with (length l1 + 0)%nat by lia.
      by rewrite insert_app_r.
Qed.

Lemma list_alter_as_insert {B} (f : B → B) (l : list B) (i : nat) (x : B) :
  l !! i = Some x → alter f i l = <[i := f x]> l.
Proof.
  revert i. induction l as [|y l IH]; intros [|i] Hl; simplify_eq/=; [done|].
  f_equal. by apply IH.
Qed.

Lemma halve_last_optimizer2_ok (n : Net) (st : State) (s : Slice) (pg : list spec_float) :
  net st = Some n →
  last (dcll_slices n) = Some s → optimizer2 s = Some pg → pg ≠ [] →
  halve_last_optimizer2 st =
  Ok tt (set_net (Some {| weights := weights n;
                          dcll_slices :=
                            alter halved_optimizer2
                              (pred (length (dcll_slices n))) (dcll_slices n) |}) st).
Proof.
  intros Hn Hs Hpg Hne. destruct (halve_last_Some _ Hne) as [Hh _].
  unfold halve_last_optimizer2, get_net, bind, gets, unwrap, modify, ret.
  rewrite Hn. simpl. rewrite Hs. simpl. rewrite Hpg. simpl. rewrite Hh.
  do 4 f_equal. rewrite last_lookup in Hs.
  rewrite (list_alter_as_insert _ _ _ _ Hs).
  unfold halved_optimizer2. by rewrite Hpg.
Qed.

Lemma halved_slices_ok (slices : list Slice) :
  slices_ok w slices → slices_ok w (halved_slices slices).
Proof.
  intros (Hlen & Hopt & s & pg & Hs & Hpg & Hne). unfold halved_slices.
  split; [|split].
  - by rewrite length_alter, length_fmap.
  - apply Forall_alter.
    + apply Forall_fmap. eapply Forall_impl; [done|]. simpl.
      intros s' Hs'. by apply halve_last_Some.
    + by intros s' _ Hs'.
  - exists (halved_optimizer2 (halved_optimizer s)), (halved_groups pg).
    split; [|split].
    + rewrite last_lookup, length_alter, length_fmap.
      rewrite list_lookup_alter_eq, list_lookup_fmap, <- last_lookup, Hs. done.
    + simpl. by rewrite Hpg.
    + by apply halve_last_Some.
Qed.

Lemma halve_ref_optim_ok (st : State) :
  optim (ref_net st) ≠ [] →
  halve_ref_optim st = Ok tt (set_ref_net (halved_ref (ref_net st)) st).
Proof.
  intros [Hh _]%halve_last_Some.
  unfold halve_ref_optim, bind, gets, unwrap, modify, ret. by rewrite Hh.
Qed.

Lemma halve_net_ok (n : Net) (st : State) :
  net st = Some n → slices_ok w (dcll_slices n) →
  (do n <- get_net;
   for_ (seq 0 (length (dcll_slices n))) halve_slice_optimizer >>
   halve_last_optimizer2) st =
  Ok tt (set_net (Some (halved_net n)) st).
Proof.
  intros Hn (Hlen & Hopt & s & pg & Hs & Hpg & Hne).
  assert (get_net st = Ok n st) as Hget.
  { unfold get_net, bind, gets, unwrap, ret. by rewrite Hn. }
  rewrite (bind_Ok _ _ _ _ _ Hget).
  rewrite (bind_Ok _ _ _ _ _ (halve_slices_loop (dcll_slices n) [] n st Hn eq_refl Hopt)).
  simpl app. set (st1 := set_net _ st).
  rewrite (halve_last_optimizer2_ok
             {| weights := weights n;
                dcll_slices := halved_optimizer <$> dcll_slices n |}
             st1 (halved_optimizer s) pg); simpl; try done.
  - by rewrite length_fmap.
  - by rewrite fmap_last, Hs.
Qed.

Lemma adjust_ok (step : nat) (st : State) :
  (just_ref a = false → ∃ n, net st = Some n ∧ slices_ok w (dcll_slices n)) →
  optim (ref_net st) ≠ [] →
  adjust_learning_rates a step st = Ok tt (adjusted a step st).
Proof.
  intros Hnet Href. unfold adjust_learning_rates, adjusted, adjusts, when.
  case_bool_decide; [|done].
  destruct (just_ref a) eqn:Hj; simpl negb; cbv iota.
  - rewrite bind_ret. by mstep (halve_ref_optim_ok st Href).
  - destruct Hnet as (n & Hn & Hok); [done|].
    mstep (halve_net_ok n st Hn Hok).
    mstep (halve_ref_optim_ok (set_net (Some (halved_net n)) st) Href).
    rewrite Hn. done.
Qed.

(** ** The training batch and the label counter *)

Lemma next_train_batch_ok (st : State) (b : Batch) :
  fetched w st = Some b →
  next_train_batch w st = Ok b (advanced w st).
Proof.
  unfold fetched, advanced, next_train_batch, bind, gets, modify, ret.
  destruct (gen_train st) as [|b' rest]; simpl.
  - destruct (train_data w (epoch st)); simpl; [done|]. by intros [= ->].
  - by intros [= ->].
Qed.

Lemma next_train_batch_total (st : State) :
  (∀ k, train_data w k ≠ []) → is_Some (fetched w st).
Proof.
  intros Hne. unfold fetched. destruct (gen_train st); [|done].
  specialize (Hne (epoch st)). by destruct (train_data w (epoch st)).
Qed.

Lemma py_index_Some (len : nat) (i : Z) :
  - Z.of_nat len <= i < Z.of_nat len →
  ∃ k, py_index len i = Some k ∧ (k < len)%nat.
Proof.
  intros Hi. unfold py_index. case_bool_decide; [|case_bool_decide].
  - exists (Z.to_nat i). split; [done|lia].
  - exists (Z.to_nat (i + Z.of_nat len)). split; [done|lia].
  - lia.
Qed.

Lemma count_labels_ok (ls : list Z) (st : State) :
  Forall (fun l => - Z.of_nat (length (label_train_counts st)) <= l
                   < Z.of_nat (length (label_train_counts st))) ls →
  for_ ls count_label st = Ok tt (counted ls st).
Proof.
  revert st. induction ls as [|l ls IH]; intros st Hls; simpl.
  - unfold ret, counted. simpl. by destruct st.
  - inversion_clear Hls as [|? ? Hl Hls'].
    destruct (py_index_Some _ _ Hl) as (k & Hk & Hlt).
    destruct (lookup_lt_is_Some_2 (label_train_counts st) k Hlt) as [c Hc].
    assert (count_label l st =
            Ok tt (set_label_train_counts
                     (counted1 (label_train_counts st) l) st)) as Hstep.
    { unfold count_label, counted1, bind, gets, unwrap, modify, ret.
      rewrite Hk. simpl. rewrite Hc. simpl.
      by rewrite (list_alter_as_insert _ _ _ _ Hc). }
    rewrite (bind_Ok _ _ _ _ _ Hstep). rewrite IH.
    + done.
    + simpl. unfold counted1. rewrite Hk, length_alter. done.
Qed.

(** ** Training *)

Lemma train_net_ok (step : nat) (b : Batch) (n : Net) (st : State) :
  net st = Some n →
  train_net w step b st = Ok tt (trained_net w step b st).
Proof.
  intros Hn. unfold train_net, trained_net, get_net, bind, gets, unwrap, ret.
  rewrite Hn. simpl. by destruct (net_learn w step n b).
Qed.

Lemma train_ref_ok (step : nat) (b : Batch) (st : State) :
  train_ref w step b st = Ok tt (trained_ref w step b st).
Proof. reflexivity. Qed.

(** ** Evaluation *)

Lemma py_index_nat (len r : nat) :
  (r < len)%nat → py_index len (Z.of_nat r) = Some r.
Proof.
  intros Hr. unfold py_index. rewrite bool_decide_eq_true_2 by lia.
  by rewrite Nat2Z.id.
Qed.

Lemma put3_shape (arr : list (list (list Acc))) (r i : nat) (v : list Acc) :
  shape3 w a arr → length v = num_slices w → shape3 w a (put3 arr r i v).
Proof.
  intros [Hlen Hall] Hv. unfold put3, put.
  destruct (arr !! r) as [plane|] eqn:Hr; [|done]. split.
  - by rewrite length_insert.
  - apply Forall_insert; [done|].
    destruct (Forall_lookup_1 _ _ _ _ Hall Hr) as [Hp Hcells].
    split; [by rewrite length_insert|].
    destruct (decide (i < length plane)%nat).
    + by apply Forall_insert.
    + rewrite list_insert_ge by lia. done.
Qed.

Lemma put2_shape (arr : list (list Acc)) (r i : nat) (x : Acc) :
  shape2 a arr → shape2 a (put2 arr r i x).
Proof.
  intros [Hlen Hall]. unfold put2, put.
  destruct (arr !! r) as [row|] eqn:Hr; [|done]. split.
  - by rewrite length_insert.
  - apply Forall_insert; [done|]. rewrite length_insert.
    apply (Forall_lookup_1 _ _ _ _ Hall Hr).
Qed.

Lemma assign3_ok (arr : list (list (list Acc))) (r i : nat) (v : list Acc) :
  shape3 w a arr → (r < n_tests_total a)%nat → (i < n_test a)%nat →
  length v = num_slices w →
  assign3 arr (Z.of_nat r) i v = inr (put3 arr r i v).
Proof.
  intros [Hlen Hall] Hr Hi Hv. unfold assign3, put3, put.
  rewrite py_index_nat by lia.
  destruct (lookup_lt_is_Some_2 arr r) as [plane Hp]; [lia|]. rewrite Hp.
  destruct (Forall_lookup_1 _ _ _ _ Hall Hp) as [Hpl Hcells].
  destruct (lookup_lt_is_Some_2 plane i) as [cell Hc]; [lia|]. rewrite Hc.
  unfold broadcast.
  rewrite bool_decide_eq_true_2; [done|].
  rewrite (Forall_lookup_1 _ _ _ _ Hcells Hc). done.
Qed.

Lemma assign2_ok (arr : list (list Acc)) (r i : nat) (x : Acc) :
  shape2 a arr → (r < n_tests_total a)%nat → (i < n_test a)%nat →
  assign2 arr (Z.of_nat r) i x = inr (put2 arr r i x).
Proof.
  intros [Hlen Hall] Hr Hi. unfold assign2, put2, put.
  rewrite py_index_nat by lia.
  destruct (lookup_lt_is_Some_2 arr r) as [row Hp]; [lia|]. rewrite Hp.
  rewrite (Forall_lookup_1 _ _ _ _ Hall Hp).
  by rewrite bool_decide_eq_true_2.
Qed.

Lemma emitted_Inv (e : Event) (st : State) : Inv w a st → Inv w a (emitted e st).
Proof. intros []. by split. Qed.

Lemma saved_Inv (name : string) (f : File) (st : State) :
  Inv w a st → Inv w a (saved w name f st).
Proof. intros []. by split. Qed.

Lemma tested_net_ok (step r i : nat) (b : Batch) (st : State) :
  Healthy w a → Inv w a st → just_ref a = false →
  tensor_error w step i = None →
  (r < n_tests_total a)%nat → (i < n_test a)%nat →
  (emit (ToTensor step i) >>
   match tensor_error w step i with
   | Some msg => print (advice msg) >> raise (RuntimeError msg)
   | None => ret tt
   end >>
   do n <- get_net;
   do arr <- get_acc_test;
   do arr' <- lift (assign3 arr (Z.of_nat r) i (net_accuracy w step i n b));
   modify (set_acc_test (Some arr')) >>
   when (bool_decide (i = 0%nat)) (emit (NetWriteStats step))) st =
  Ok tt (tested_net w step r i b st) ∧
  Inv w a (tested_net w step r i b st).
Proof.
  intros H [Hn Href Hs2 Hpool Hc] Hj Ht Hr Hi.
  destruct (Hn Hj) as (n & arr & Hnet & Harr & Hsl & Hs3).
  unfold tested_net. rewrite Hnet, Harr, Ht.
  pose proof (assign3_ok arr r i (net_accuracy w step i n b) Hs3 Hr Hi
                (accuracy_shape w a H step i n b)) as Hassign.
  split.
  - unfold get_net, get_acc_test, bind, gets, unwrap, lift, modify, ret, emit, when.
    simpl. rewrite Hnet. simpl. rewrite Harr. simpl. rewrite Hassign.
    by case_bool_decide.
  - assert (Inv w a (set_acc_test
                       (Some (put3 arr r i (net_accuracy w step i n b)))
                       (emitted (ToTensor step i) st))) as HI.
    { split; simpl; try done. intros _. exists n, (put3 arr r i (net_accuracy w step i n b)).
      repeat split; try done; try apply Hsl.
      - apply put3_shape; [done|]. apply (accuracy_shape w a H).
      - apply put3_shape; [done|]. apply (accuracy_shape w a H). }
    case_bool_decide; [by apply emitted_Inv|done].
Qed.

Lemma test_batch_ok (step r i : nat) (b : Batch) (st : State) :
  Healthy w a → Inv w a st →
  (just_ref a = false → tensor_error w step i = None) →
  (r < n_tests_total a)%nat → (i < n_test a)%nat →
  test_batch w a step (Z.of_nat r) i b st = Ok tt (tested w a step r i b st) ∧
  Inv w a (tested w a step r i b st).
Proof.
  intros H HI Ht Hr Hi. unfold test_batch, tested.
  set (st1 := if just_ref a then st else tested_net w step r i b st).
  assert (when (negb (just_ref a))
            (emit (ToTensor step i) >>
             match tensor_error w step i with
             | Some msg => print (advice msg) >> raise (RuntimeError msg)
             | None => ret tt
             end >>
             do n <- get_net;
             do arr <- get_acc_test;
             do arr' <- lift (assign3 arr (Z.of_nat r) i (net_accuracy w step i n b));
             modify (set_acc_test (Some arr')) >>
             when (bool_decide (i = 0%nat)) (emit (NetWriteStats step))) st
          = Ok tt st1 ∧ Inv w a st1) as [Hnet HI1].
  { subst st1. destruct (just_ref a) eqn:Hj; simpl; [done|].
    by apply tested_net_ok; auto. }
  mstep Hnet. destruct HI1 as [Hn Href Hs2 Hpool Hc].
  pose proof (assign2_ok (acc_test_ref st1) r i
                (ref_accuracy w step i (ref_net st1) b) Hs2 Hr Hi) as Hassign.
  unfold tested_ref. split.
  - unfold bind, gets, lift, modify, ret, emit, when. rewrite Hassign.
    by case_bool_decide.
  - assert (Inv w a (set_acc_test_ref
                       (put2 (acc_test_ref st1) r i
                          (ref_accuracy w step i (ref_net st1) b)) st1)) as HI2.
    { split; simpl; try done. by apply put2_shape. }
    case_bool_decide; [by apply emitted_Inv|done].
Qed.

Lemma tested_from_ok (step r : nat) (pool : list Batch) (i : nat) (st : State) :
  Healthy w a → Inv w a st →
  (just_ref a = false →
   ∀ j, (i <= j < i + length pool)%nat → tensor_error w step j = None) →
  (r < n_tests_total a)%nat → (i + length pool <= n_test a)%nat →
  for_enumerate i pool (test_batch w a step (Z.of_nat r)) st
  = Ok tt (tested_from w a step r i pool st) ∧
  Inv w a (tested_from w a step r i pool st).
Proof.
  intros H. revert i st.
  induction pool as [|b pool IH]; intros i st HI Ht Hr Hi; simpl in *; [done|].
  destruct (test_batch_ok step r i b st) as [Hb HI']; auto with lia.
  mstep Hb. apply IH; auto with lia.
Qed.

Lemma save_round_ok (step : nat) (st : State) :
  Inv w a st → just_ref a = false →
  save_round w step st = Ok tt (saved_round w step st) ∧
  Inv w a (saved_round w step st).
Proof.
  intros HI Hj. destruct (inv_net w a st HI Hj) as (n & arr & Hn & Harr & _).
  unfold saved_round. rewrite Hn, Harr. split.
  - unfold save_round, get_acc_test, get_net, bind, gets, unwrap, ret. rewrite Harr.
    simpl. rewrite Hn. done.
  - by repeat (apply emitted_Inv || apply saved_Inv).
Qed.

Lemma row_at_nat {B} (arr : list B) (r : nat) (x : B) :
  arr !! r = Some x → row_at arr (Z.of_nat r) = Some x.
Proof.
  intros Hx. unfold row_at.
  rewrite py_index_nat by (by eapply lookup_lt_Some). done.
Qed.

Lemma report_round_ok (step r : nat) (st : State) :
  Inv w a st → (r < n_tests_total a)%nat →
  report_round a step (Z.of_nat r) st = Ok tt (reported a step r st) ∧
  Inv w a (reported a step r st).
Proof.
  intros HI Hr. split; [|by repeat apply emitted_Inv].
  destruct (inv_acc_test_ref w a st HI) as [Hlen _].
  destruct (lookup_lt_is_Some_2 (acc_test_ref st) r) as [row Hrow]; [lia|].
  unfold report_round, reported.
  destruct (just_ref a) eqn:Hj; simpl negb; cbv iota.
  - rewrite bind_ret.
    unfold bind, gets, unwrap, ret. rewrite (row_at_nat _ _ _ Hrow), Hrow. done.
  - destruct (inv_net w a st HI Hj) as (n & arr & Hn & Harr & _ & Hlen3 & _).
    destruct (lookup_lt_is_Some_2 arr r) as [plane Hplane]; [lia|].
    unfold get_acc_test, bind, gets, unwrap, ret. rewrite Harr. simpl.
    rewrite (row_at_nat _ _ _ Hplane), (row_at_nat _ _ _ Hrow), Hrow, Hplane. done.
Qed.

Lemma round_in_range (step : nat) :
  0 < n_test_interval a → Z.of_nat step < n_steps a →
  (round_of a step < n_tests_total a)%nat.
Proof.
  intros Hd Hs. unfold round_of, n_tests_total.
  assert (Z.of_nat step / n_test_interval a < - (- n_steps a / n_test_interval a)).
  { apply Z.div_lt_upper_bound; [done|].
    pose proof (Z.mul_div_le (- n_steps a) (n_test_interval a) Hd). lia. }
  assert (0 <= Z.of_nat step / n_test_interval a) by (apply Z.div_pos; lia).
  lia.
Qed.

Lemma round_of_Z (step : nat) :
  0 < n_test_interval a →
  Z.of_nat step / n_test_interval a = Z.of_nat (round_of a step).
Proof.
  intros Hd. unfold round_of. rewrite Z2Nat.id; [done|]. apply Z.div_pos; lia.
Qed.

Lemma evaluate_ok (step : nat) (st : State) :
  Healthy w a → (∀ i, tensor_error w step i = None) → Inv w a st →
  Z.of_nat step < n_steps a →
  (do m <- unwrap ZeroDivisionError (py_mod (Z.of_nat step) (n_test_interval a));
   when (bool_decide (m = 0)) (evaluate w a step)) st
  = Ok tt (evaluated w a step st) ∧
  Inv w a (evaluated w a step st).
Proof.
  intros H Ht HI Hs. pose proof (interval_pos w a H) as Hd.
  unfold py_mod, py_floordiv, evaluated, evaluates.
  rewrite bool_decide_eq_false_2 by lia. simpl unwrap. rewrite bind_ret.
  case_bool_decide; [|done]. simpl when.
  unfold evaluate, py_floordiv. rewrite bool_decide_eq_false_2 by lia.
  simpl unwrap. rewrite bind_ret. rewrite (round_of_Z step Hd).
  pose proof (round_in_range step Hd Hs) as Hr.
  assert (length (all_test_data st) <= n_test a)%nat as Hpool.
  { rewrite (inv_pool w a st HI), length_take. lia. }
  destruct (tested_from_ok step (round_of a step) (all_test_data st) 0 st)
    as [Hloop HI1]; auto.
  change ((do pool <- gets all_test_data;
           for_enumerate 0 pool (test_batch w a step (Z.of_nat (round_of a step))) >>
           when (negb (just_ref a) && negb (no_save a)) (save_round w step) >>
           report_round a step (Z.of_nat (round_of a step))) st)
    with ((for_enumerate 0 (all_test_data st)
             (test_batch w a step (Z.of_nat (round_of a step))) >>
           when (negb (just_ref a) && negb (no_save a)) (save_round w step) >>
           report_round a step (Z.of_nat (round_of a step))) st).
  mstep Hloop. set (st1 := tested_from _ _ _ _ _ _ _) in *.
  destruct (negb (just_ref a) && negb (no_save a)) eqn:Hsave; simpl when.
  - apply andb_true_iff in Hsave as [Hj%negb_true_iff _].
    destruct (save_round_ok step st1 HI1 Hj) as [Hsv HI2].
    mstep Hsv. by apply report_round_ok.
  - rewrite bind_ret. by apply report_round_ok.
Qed.

(** ** One iteration of the loop *)

Lemma adjusted_Inv (step : nat) (st : State) :
  Inv w a st → Inv w a (adjusted a step st).
Proof.
  intros HI. unfold adjusted. destruct (adjusts step); [|done].
  apply emitted_Inv. destruct HI as [Hn Href Hs2 Hpool Hgen Hc].
  split; simpl; try by destruct (just_ref a).
  - intros Hj. rewrite Hj. simpl.
    destruct (Hn Hj) as (n & arr & -> & -> & Hsl & Hs3).
    exists (halved_net n), arr. repeat split; try done; try apply Hs3.
    all: by apply halved_slices_ok.
  - by apply halve_last_Some.
Qed.

Lemma advanced_Inv (st : State) : Inv w a st → Inv w a (advanced w st).
Proof.
  intros [Hn Href Hs2 Hpool Hgen Hc]. unfold advanced.
  destruct (gen_train st) as [|b rest] eqn:Hg; split; simpl; try done.
  - apply Forall_forall. intros b Hb. exists (epoch st).
    destruct (train_data w (epoch st)); [done|]. by right.
  - by inversion Hgen.
Qed.

Lemma fetched_source (st : State) (b : Batch) :
  Inv w a st → fetched w st = Some b → ∃ k, b ∈ train_data w k.
Proof.
  intros HI. unfold fetched. pose proof (inv_gen w a st HI) as Hgen.
  destruct (gen_train st) as [|b' rest].
  - intros Hb. exists (epoch st). destruct (train_data w (epoch st)); [done|].
    simpl in Hb. injection Hb as ->. left.
  - intros [= ->]. by inversion Hgen.
Qed.

Lemma counted1_length (counts : list Z) (l : Z) :
  length (counted1 counts l) = length counts.
Proof. unfold counted1. destruct (py_index _ _); [|done]. apply length_alter. Qed.

Lemma counted_length (ls : list Z) (counts : list Z) :
  length (foldl counted1 counts ls) = length counts.
Proof.
  revert counts. induction ls as [|l ls IH]; intros counts; simpl; [done|].
  by rewrite IH, counted1_length.
Qed.

Lemma counted_Inv (ls : list Z) (st : State) :
  Inv w a st → Inv w a (counted ls st).
Proof. intros []. split; simpl; try done. by rewrite counted_length. Qed.

Lemma trained_net_Inv (step : nat) (b : Batch) (st : State) :
  Inv w a st → Inv w a (trained_net w step b st).
Proof.
  intros HI. unfold trained_net. destruct (net st) as [n|] eqn:Hnet; [|done].
  apply emitted_Inv. destruct HI as [Hn Href Hs2 Hpool Hgen Hc].
  split; simpl; try done. intros Hj.
  destruct (Hn Hj) as (n' & arr & Hn' & Harr & Hsl & Hs3).
  rewrite Hnet in Hn'. injection Hn' as <-.
  exists {| weights := (net_learn w step n b).1; dcll_slices := dcll_slices n |}, arr.
  simpl. split; [done|]. split; [done|]. split; done.
Qed.

Lemma trained_ref_Inv (step : nat) (b : Batch) (st : State) :
  Inv w a st → Inv w a (trained_ref w step b st).
Proof. intros []. by split. Qed.

Lemma trained_Inv (step : nat) (b : Batch) (st : State) :
  Inv w a st → Inv w a (trained w a step b st).
Proof.
  intros HI. unfold trained. apply trained_ref_Inv.
  apply (adjusted_Inv step), advanced_Inv, (counted_Inv (labels b)) in HI.
  destruct (just_ref a); [done|]. by apply trained_net_Inv.
Qed.

(** The body up to the training of the two networks. *)
Lemma body_train (step : nat) (b : Batch) (st : State) :
  Healthy w a → Inv w a st →
  fetched w (adjusted a step st) = Some b →
  body w a step st =
  (do m <- unwrap ZeroDivisionError
             (py_mod (Z.of_nat step) (n_test_interval a));
   when (bool_decide (m = 0)) (evaluate w a step)) (trained w a step b st) ∧
  Inv w a (trained w a step b st).
Proof.
  intros H HI Hb. split; [|by apply trained_Inv].
  unfold body, trained.
  assert (adjust_learning_rates a step st = Ok tt (adjusted a step st)) as Hadj.
  { apply adjust_ok; [|by apply HI]. intros Hj.
    destruct (inv_net w a st HI Hj) as (n & arr & ? & ? & ? & ?). eauto. }
  mstep Hadj. apply (adjusted_Inv step) in HI.
  set (st1 := adjusted a step st) in *.
  mstep (next_train_batch_ok st1 b Hb).
  destruct (fetched_source st1 b HI Hb) as [k Hk].
  apply advanced_Inv in HI. set (st2 := advanced w st1) in *.
  assert (for_ (labels b) count_label st2 = Ok tt (counted (labels b) st2)) as Hcount.
  { apply count_labels_ok. rewrite (inv_counts w a st2 HI).
    eapply Forall_impl; [by apply (labels_in_range w a H k b)|].
    simpl. intros l Hl. unfold target_size in *. destruct (data a); simpl in *; lia. }
  mstep Hcount. apply (counted_Inv (labels b)) in HI.
  set (st3 := counted (labels b) st2) in *.
  set (st4 := (if just_ref a then id else trained_net w step b) st3).
  assert (when (negb (just_ref a)) (train_net w step b) st3 = Ok tt st4) as Htrain.
  { subst st4. destruct (just_ref a) eqn:Hj; simpl; [done|].
    destruct (inv_net w a st3 HI Hj) as (n & arr & Hn & _).
    by eapply train_net_ok. }
  mstep Htrain. by mstep (train_ref_ok step b st4).
Qed.

Lemma body_ok (step : nat) (b : Batch) (st : State) :
  Healthy w a → (∀ i, tensor_error w step i = None) → Inv w a st →
  Z.of_nat step < n_steps a →
  fetched w (adjusted a step st) = Some b →
  body w a step st = Ok tt (stepped w a step b st) ∧
  Inv w a (stepped w a step b st).
Proof.
  intros H Ht HI Hs Hb.
  destruct (body_train step b st H HI Hb) as [-> HI'].
  by apply evaluate_ok.
Qed.

(** ** Before the loop *)

Lemma restore_ok (st : State) :
  Healthy w a → just_ref a = false → net st = Some (fresh_net w) →
  restore w a st =
  Ok tt (set_trace (trace st ++ restore_lines w a)
           (set_net (Some (restored_net w a)) st)).
Proof.
  intros H Hj Hn. unfold restore, restore_lines, restored_net, restorable.
  destruct (restore_path a) as [p|] eqn:Hp.
  - destruct (truthy (Some p)) eqn:Htr; simpl.
    + destruct (isfile w p) eqn:Hf; simpl.
      * destruct (restore_loadable w a H p) as [sd Hsd]; try done.
        { intros ->. done. }
        unfold get_net, print, emit. unfold bind, modify, unwrap, gets, ret.
        rewrite Hsd. simpl. rewrite Hn. simpl. f_equal.
        unfold set_trace, set_net. simpl. f_equal. by rewrite <- !app_assoc.
      * unfold print, emit. unfold bind, modify, ret. simpl.
        f_equal. destruct st; simpl in *. subst. unfold set_trace, set_net. simpl.
        f_equal. by rewrite <- !app_assoc.
    + unfold ret. f_equal. rewrite app_nil_r. destruct st; simpl in *. by subst.
  - unfold ret. f_equal. rewrite app_nil_r. destruct st; simpl in *. by subst.
Qed.

Lemma ceil_div_nonneg (x y : Z) : 0 <= x → 0 < y → 0 <= - (- x / y).
Proof.
  intros Hx Hy. assert (- x / y <= 0); [|lia].
  apply Z.div_le_upper_bound; lia.
Qed.

Lemma garbage3_shape : shape3 w a (garbage3 w a).
Proof.
  unfold shape3, garbage3. split.
  - by rewrite length_fmap, length_seq.
  - apply Forall_fmap, Forall_forall. intros r _. simpl. split.
    + by rewrite length_fmap, length_seq.
    + apply Forall_fmap, Forall_forall. intros i _. simpl.
      by rewrite length_fmap, length_seq.
Qed.

Lemma garbage2_shape : shape2 a (garbage2 w a).
Proof.
  unfold shape2, garbage2. split.
  - by rewrite length_fmap, length_seq.
  - apply Forall_fmap, Forall_forall. intros r _. simpl.
    by rewrite length_fmap, length_seq.
Qed.

Lemma restored_net_slices :
  dcll_slices (restored_net w a) = dcll_slices (fresh_net w).
Proof. unfold restored_net. by destruct (restorable w a). Qed.

Lemma initial_Inv : Healthy w a → Inv w a (initial w a).
Proof.
  intros H. split; simpl.
  - intros Hj. rewrite Hj. exists (restored_net w a), (garbage3 w a).
    split; [done|]. split; [done|]. split; [|apply garbage3_shape].
    rewrite restored_net_slices. by apply (net_ok w a H).
  - apply (ref_ok w a H).
  - apply garbage2_shape.
  - done.
  - apply Forall_forall. intros b Hb. by exists 0%nat.
  - by rewrite length_replicate.
Qed.

Lemma setup_ok :
  Healthy w a → setup w a (boot w) = Ok tt (initial w a).
Proof.
  intros H.
  pose proof (interval_pos w a H) as Hd.
  pose proof (batch_size_test_pos w a H) as Hb.
  pose proof (ceil_div_nonneg _ _ (steps_nonneg w a H) Hd) as Hr.
  pose proof (ceil_div_nonneg _ _ (test_samples_nonneg w a H) Hb) as Ht.
  unfold setup.
  do 4 (rewrite (bind_Ok (print _) _ _ _ tt eq_refl)).
  unfold ceil_div. rewrite !bool_decide_eq_false_2 by lia.
  simpl unwrap. rewrite !bind_ret.
  match goal with |- bind _ _ ?st = _ => set (st0 := st) end.
  set (st1 := if just_ref a
              then st0
              else set_acc_test (Some (garbage3 w a))
                     (set_trace (trace st0 ++ restore_lines w a)
                        (set_net (Some (restored_net w a)) st0))).
  assert (when (negb (just_ref a))
            (modify (set_net (Some (fresh_net w))) >>
             restore w a >>
             do n <- get_net;
             do arr <- unwrap ValueError
                         (np_empty3 w (- (- n_steps a / n_test_interval a))
                            (- (- n_test_samples a / batch_size_test a))
                            (length (dcll_slices n)));
             modify (set_acc_test (Some arr))) st0 = Ok tt st1) as Hnet.
  { subst st1. destruct (just_ref a) eqn:Hj; simpl; [done|].
    rewrite (bind_Ok (modify _) _ _ _ tt eq_refl).
    mstep (restore_ok (set_net (Some (fresh_net w)) st0) H Hj eq_refl).
    unfold get_net, bind, gets, unwrap, ret, np_empty3, modify. simpl.
    rewrite bool_decide_eq_true_2 by lia. rewrite restored_net_slices. done. }
  mstep Hnet.
  unfold np_empty2. rewrite bool_decide_eq_true_2 by lia. simpl unwrap.
  rewrite bind_ret. rewrite (bind_Ok (modify _) _ _ _ tt eq_refl).
  unfold take_exactly.
  rewrite bool_decide_eq_true_2 by apply (test_loader_long w a H).
  subst st1 st0. unfold initial, when, save, bind, modify, ret, emitted, metadata.
  destruct (just_ref a), (no_save a); simpl; try done.
Qed.

(** ** Runs *)

Lemma run_steps_0 : Healthy w a → run_steps w a 0 = Ok tt (initial w a).
Proof.
  intros H. unfold run_steps. mstep (setup_ok H). done.
Qed.

Lemma run_steps_S (k : nat) (st : State) :
  run_steps w a k = Ok tt st → run_steps w a (S k) = body w a k st.
Proof.
  unfold run_steps, bind. destruct (setup w a (boot w)) as [[] st0|]; [|done].
  rewrite steps_S. unfold bind. by intros ->.
Qed.

Lemma run_steps_prefix (k : nat) (st : State) :
  run_steps w a (S k) = Ok tt st → ∃ st', run_steps w a k = Ok tt st'.
Proof.
  unfold run_steps, bind. destruct (setup w a (boot w)) as [[] st0|]; [|done].
  rewrite steps_S. unfold bind.
  destruct (steps w a k st0) as [[] st'|]; [|done]. eauto.
Qed.

Lemma run_main (st : State) :
  run_steps w a (Z.to_nat (n_steps a)) = Ok tt st →
  run w a = Ok tt (emitted WriterClose st).
Proof.
  unfold run, main, run_steps, bind.
  destruct (setup w a (boot w)) as [[] st0|]; [|done]. by intros ->.
Qed.

(** Induction over the iterations of a run that raises nothing: a property
    that holds when the loop starts and that every iteration preserves holds
    after every prefix of the run, and that prefix does end.  It is enough
    that the test spike trains reach the device during the prefix. *)
Lemma run_steps_ind_until (N : nat) (P : nat → State → Prop) :
  Healthy w a →
  (∀ step i, (step < N)%nat → tensor_error w step i = None) →
  P 0%nat (initial w a) →
  (∀ k st b,
     Z.of_nat k < n_steps a →
     run_steps w a k = Ok tt st → Inv w a st → P k st →
     fetched w (adjusted a k st) = Some b →
     run_steps w a (S k) = Ok tt (stepped w a k b st) →
     P (S k) (stepped w a k b st)) →
  ∀ k, (k <= N)%nat → Z.of_nat k <= n_steps a →
       ∃ st, run_steps w a k = Ok tt st ∧ Inv w a st ∧ P k st.
Proof.
  intros H Ht H0 HS k. induction k as [|k IH]; intros HkN Hk.
  - exists (initial w a). split; [by apply run_steps_0|].
    split; [by apply initial_Inv|done].
  - destruct IH as (st & Hrun & HI & HP); [lia|lia|].
    destruct (next_train_batch_total (adjusted a k st) (train_nonempty w a H))
      as [b Hb].
    destruct (body_ok k b st H) as [Hbody HI']; [|done|lia|done|].
    { intros i. apply Ht. lia. }
    exists (stepped w a k b st).
    assert (run_steps w a (S k) = Ok tt (stepped w a k b st)) as Hrun'.
    { by rewrite (run_steps_S k st Hrun). }
    split; [done|]. split; [done|]. apply HS; auto with lia.
Qed.

Lemma run_steps_ind (P : nat → State → Prop) :
  Healthy w a → ToTensorWorks w →
  P 0%nat (initial w a) →
  (∀ k st b,
     Z.of_nat k < n_steps a →
     run_steps w a k = Ok tt st → Inv w a st → P k st →
     fetched w (adjusted a k st) = Some b →
     run_steps w a (S k) = Ok tt (stepped w a k b st) →
     P (S k) (stepped w a k b st)) →
  ∀ k, Z.of_nat k <= n_steps a →
       ∃ st, run_steps w a k = Ok tt st ∧ Inv w a st ∧ P k st.
Proof.
  intros H Ht H0 HS k Hk.
  apply (run_steps_ind_until k P H); auto.
Qed.

(** The run up to any iteration ends without an exception. *)
Lemma run_steps_total (k : nat) :
  Healthy w a → ToTensorWorks w → Z.of_nat k <= n_steps a →
  ∃ st, run_steps w a k = Ok tt st ∧ Inv w a st.
Proof.
  intros H Ht Hk.
  destruct (run_steps_ind (fun _ _ => True) H Ht I (fun _ _ _ _ _ _ _ _ _ => I) k Hk)
    as (st & ? & ? & _).
  eauto.
Qed.

(** A run that has raised stays as it is. *)
Lemma run_steps_raise (k N : nat) (e : Exc) (st : State) :
  run_steps w a k = Raise e st → (k <= N)%nat →
  run_steps w a N = Raise e st ∧
  (Z.of_nat k <= n_steps a → run w a = Raise e st).
Proof.
  intros Hrun HkN.
  assert (∀ N, (k <= N)%nat → run_steps w a N = Raise e st) as Hall.
  { clear N HkN. intros N HkN. unfold run_steps, steps in *.
    replace N with (k + (N - k))%nat by lia. rewrite seq_app.
    unfold bind in *. destruct (setup w a (boot w)) as [[] st0|]; [|done].
    rewrite for__app. unfold bind. by rewrite Hrun. }
  split; [by apply Hall|]. intros Hk.
  specialize (Hall (Z.to_nat (n_steps a))). unfold run, main, run_steps, bind in *.
  destruct (setup w a (boot w)) as [[] st0|]; [|by apply Hall; lia].
  rewrite Hall by lia. done.
Qed.

(** ** What a test round leaves untouched *)

Lemma tested_frame (step r i : nat) (b : Batch) (st : State) :
  let st' := tested w a step r i b st in
  net st' = net st ∧ ref_net st' = ref_net st ∧
  all_test_data st' = all_test_data st ∧ gen_train st' = gen_train st ∧
  epoch st' = epoch st ∧ label_train_counts st' = label_train_counts st ∧
  files st' = files st.
Proof.
  unfold tested, tested_ref, tested_net.
  destruct (just_ref a), (net st) eqn:Hn, (acc_test st) eqn:Harr;
    case_bool_decide; unfold id; by simpl.
Qed.

Lemma tested_from_frame (step r : nat) (pool : list Batch) (i : nat) (st : State) :
  let st' := tested_from w a step r i pool st in
  net st' = net st ∧ ref_net st' = ref_net st ∧
  all_test_data st' = all_test_data st ∧ gen_train st' = gen_train st ∧
  epoch st' = epoch st ∧ label_train_counts st' = label_train_counts st ∧
  files st' = files st.
Proof.
  revert i st. induction pool as [|b pool IH]; intros i st; simpl; [done|].
  destruct (IH (S i) (tested w a step r i b st)) as (-> & -> & -> & -> & -> & -> & ->).
  apply tested_frame.
Qed.

Lemma saved_round_frame (step : nat) (st : State) :
  let st' := saved_round w step st in
  net st' = net st ∧ acc_test st' = acc_test st ∧ ref_net st' = ref_net st ∧
  acc_test_ref st' = acc_test_ref st ∧
  all_test_data st' = all_test_data st ∧ gen_train st' = gen_train st ∧
  epoch st' = epoch st ∧ label_train_counts st' = label_train_counts st.
Proof. unfold saved_round. by destruct (net st) eqn:Hn, (acc_test st) eqn:Harr. Qed.

Lemma evaluated_frame (step : nat) (st : State) :
  let st' := evaluated w a step st in
  net st' = net st ∧ ref_net st' = ref_net st ∧
  all_test_data st' = all_test_data st ∧ gen_train st' = gen_train st ∧
  epoch st' = epoch st ∧ label_train_counts st' = label_train_counts st.
Proof.
  unfold evaluated. destruct (evaluates a step); [|done]. simpl.
  pose proof (tested_from_frame step (round_of a step) (all_test_data st) 0 st) as Hf.
  set (st1 := tested_from _ _ _ _ _ _ _) in *. simpl in Hf.
  destruct Hf as (<- & <- & <- & <- & <- & <- & _).
  destruct (negb (just_ref a) && negb (no_save a)); simpl; [|done].
  by destruct (saved_round_frame step st1) as (-> & _ & -> & _ & -> & -> & -> & ->).
Qed.

(** ** The label counter *)

Lemma adjusted_frame (step : nat) (st : State) :
  let st' := adjusted a step st in
  acc_test st' = acc_test st ∧ acc_test_ref st' = acc_test_ref st ∧
  all_test_data st' = all_test_data st ∧ gen_train st' = gen_train st ∧
  epoch st' = epoch st ∧ label_train_counts st' = label_train_counts st ∧
  files st' = files st.
Proof. unfold adjusted. by destruct (adjusts step), (just_ref a). Qed.

Lemma advanced_frame (st : State) :
  let st' := advanced w st in
  net st' = net st ∧ acc_test st' = acc_test st ∧ ref_net st' = ref_net st ∧
  acc_test_ref st' = acc_test_ref st ∧ all_test_data st' = all_test_data st ∧
  label_train_counts st' = label_train_counts st ∧ files st' = files st ∧
  trace st' = trace st.
Proof. unfold advanced. by destruct (gen_train st) eqn:Hg. Qed.

Lemma trained_net_frame (step : nat) (b : Batch) (st : State) :
  let st' := (if just_ref a then id else trained_net w step b) st in
  acc_test st' = acc_test st ∧ ref_net st' = ref_net st ∧
  acc_test_ref st' = acc_test_ref st ∧ all_test_data st' = all_test_data st ∧
  gen_train st' = gen_train st ∧ epoch st' = epoch st ∧
  label_train_counts st' = label_train_counts st ∧ files st' = files st.
Proof.
  unfold trained_net. by destruct (just_ref a), (net st) eqn:Hn.
Qed.

Lemma stepped_counts (step : nat) (b : Batch) (st : State) :
  label_train_counts (stepped w a step b st) =
  foldl counted1 (label_train_counts st) (labels b).
Proof.
  unfold stepped, trained.
  destruct (evaluated_frame step
              (trained_ref w step b
                 ((if just_ref a then id else trained_net w step b)
                    (counted (labels b) (advanced w (adjusted a step st))))))
    as (_ & _ & _ & _ & _ & ->).
  simpl.
  destruct (trained_net_frame step b
              (counted (labels b) (advanced w (adjusted a step st))))
    as (_ & _ & _ & _ & _ & _ & -> & _).
  simpl.
  destruct (advanced_frame (adjusted a step st)) as (_ & _ & _ & _ & _ & -> & _).
  by destruct (adjusted_frame step st) as (_ & _ & _ & _ & _ & -> & _).
Qed.

Lemma sum_Z_alter (f : Z → Z) (counts : list Z) (k : nat) (c : Z) :
  counts !! k = Some c →
  sum_Z (alter f k counts) = sum_Z counts - c + f c.
Proof.
  revert k. induction counts as [|x counts IH]; intros [|k] Hk; simplify_eq/=.
  - lia.
  - rewrite (IH k Hk). lia.
Qed.

Lemma sum_Z_lookup_le (counts : list Z) (k : nat) (c : Z) :
  Forall (fun c => 0 <= c) counts → counts !! k = Some c → c <= sum_Z counts.
Proof.
  intros Hall. revert k.
  induction Hall as [|x counts Hx Hall IH]; intros [|k] Hk; simplify_eq/=.
  - assert (0 <= sum_Z counts); [|lia]. clear IH.
    induction Hall; simpl; lia.
  - specialize (IH k Hk). lia.
Qed.

Lemma wrap64_small (z : Z) : - 2 ^ 63 <= z < 2 ^ 63 → wrap64 z = z.
Proof. intros Hz. unfold wrap64. rewrite Z.mod_small; lia. Qed.

(** Counting one label whose index is valid, while the total stays below
    the [int64] range: one entry grows by one, nothing else changes. *)
Lemma counted1_spec (counts : list Z) (l : Z) :
  Forall (fun c => 0 <= c) counts →
  - Z.of_nat (length counts) <= l < Z.of_nat (length counts) →
  sum_Z counts + 1 < 2 ^ 63 →
  Forall (fun c => 0 <= c) (counted1 counts l) ∧
  sum_Z (counted1 counts l) = sum_Z counts + 1 ∧
  Forall2 Z.le counts (counted1 counts l).
Proof.
  intros Hall Hl Hsum. destruct (py_index_Some _ _ Hl) as (k & Hk & Hlt).
  destruct (lookup_lt_is_Some_2 counts k Hlt) as [c Hc].
  pose proof (sum_Z_lookup_le counts k c Hall Hc) as Hle.
  pose proof (Forall_lookup_1 _ _ _ _ Hall Hc) as Hc0. simpl in Hc0.
  unfold counted1. rewrite Hk. split; [|split].
  - apply Forall_alter; [done|]. intros c' Hc' _.
    rewrite Hc in Hc'. injection Hc' as <-. rewrite wrap64_small; lia.
  - rewrite (sum_Z_alter _ _ _ _ Hc), wrap64_small; lia.
  - apply Forall2_alter_r; [by apply Forall_Forall2_diag, Forall_true|].
    intros c1 c2 Hc1 Hc2 _. rewrite Hc in Hc1, Hc2. simplify_eq.
    rewrite wrap64_small; lia.
Qed.

Lemma counted_spec (ls : list Z) (counts : list Z) :
  Forall (fun c => 0 <= c) counts →
  Forall (fun l => - Z.of_nat (length counts) <= l < Z.of_nat (length counts)) ls →
  sum_Z counts + Z.of_nat (length ls) < 2 ^ 63 →
  Forall (fun c => 0 <= c) (foldl counted1 counts ls) ∧
  sum_Z (foldl counted1 counts ls) = sum_Z counts + Z.of_nat (length ls) ∧
  Forall2 Z.le counts (foldl counted1 counts ls).
Proof.
  revert counts. induction ls as [|l ls IH]; intros counts Hall Hls Hsum; simpl.
  - split; [done|]. split; [lia|]. by apply Forall_Forall2_diag, Forall_true.
  - inversion_clear Hls as [|? ? Hl Hls'].
    destruct (counted1_spec counts l Hall Hl) as (Hall1 & Hsum1 & Hle1);
      [simpl length in Hsum; lia|].
    destruct (IH (counted1 counts l)) as (Hall2 & Hsum2 & Hle2).
    + done.
    + by rewrite counted1_length.
    + simpl length in Hsum. lia.
    + split; [done|]. split; [simpl length; lia|].
      eapply Forall2_trans; [|done|done]. intros ???; lia.
Qed.

Lemma sum_Z_replicate_0 (n : nat) : sum_Z (replicate n 0) = 0.
Proof. unfold sum_Z. induction n as [|n IH]; simpl; [done|]. by rewrite IH. Qed.

Lemma Forall2_le_refl (l : list Z) : Forall2 Z.le l l.
Proof. apply Forall_Forall2_diag, Forall_forall. intros; lia. Qed.

(** C5. The label counter has [target_size] entries and starts at zero.  When
    every batch of the training loader has [batch_size] labels, each a valid
    index, then after any prefix of [K] steps whose [K * batch_size] examples
    fit the [int64] entries, no entry is negative, the entries sum to
    [K * batch_size], and no entry is below its value after a shorter
    prefix. *)
Theorem label_counter_total (K : nat) :
  Healthy w a → ToTensorWorks w →
  (∀ k b, b ∈ train_data w k → Z.of_nat (length (labels b)) = batch_size a) →
  Z.of_nat K <= n_steps a →
  Z.of_nat K * batch_size a < 2 ^ 63 →
  (∃ st0, run_steps w a 0 = Ok tt st0 ∧
          label_train_counts st0 = replicate (Z.to_nat (target_size a)) 0) ∧
  ∃ st, run_steps w a K = Ok tt st ∧
        length (label_train_counts st) = Z.to_nat (target_size a) ∧
        Forall (fun c => 0 <= c) (label_train_counts st) ∧
        sum_Z (label_train_counts st) = Z.of_nat K * batch_size a ∧
        ∀ K', (K' <= K)%nat →
              ∃ st', run_steps w a K' = Ok tt st' ∧
                     Forall2 Z.le (label_train_counts st') (label_train_counts st).
Proof.
  intros H Ht Hbs HK Hfit. split.
  { exists (initial w a). split; [by apply run_steps_0|done]. }
  destruct (run_steps_ind
              (fun k st =>
                 (k <= K)%nat →
                 Forall (fun c => 0 <= c) (label_train_counts st) ∧
                 sum_Z (label_train_counts st) = Z.of_nat k * batch_size a ∧
                 ∀ K', (K' <= k)%nat →
                       ∃ st', run_steps w a K' = Ok tt st' ∧
                              Forall2 Z.le (label_train_counts st')
                                (label_train_counts st)) H Ht) with (k := K)
    as (st & Hrun & HI & HP); [| |done|].
  - intros _. simpl. split; [|split].
    + apply Forall_replicate. lia.
    + rewrite sum_Z_replicate_0. lia.
    + intros K' HK'. assert (K' = 0%nat) as -> by lia.
      exists (initial w a). split; [by apply run_steps_0|apply Forall2_le_refl].
  - intros k st b Hk Hrun HI HP Hb Hrun' HkK.
    destruct HP as (Hall & Hsum & Hmono); [lia|].
    destruct (fetched_source _ b (adjusted_Inv k st HI) Hb) as [k0 Hk0].
    pose proof (Hbs k0 b Hk0) as Hlen.
    rewrite stepped_counts.
    destruct (counted_spec (labels b) (label_train_counts st) Hall)
      as (Hall' & Hsum' & Hle).
    + rewrite (inv_counts w a st HI).
      eapply Forall_impl; [by apply (labels_in_range w a H k0 b)|].
      simpl. intros l Hl. unfold target_size in *. destruct (data a); simpl in *; lia.
    + rewrite Hsum, Hlen. nia.
    + split; [done|]. split; [lia|].
      intros K' HK'. destruct (decide (K' = S k)) as [->|Hne].
      * eexists. split; [done|]. rewrite stepped_counts. apply Forall2_le_refl.
      * destruct (Hmono K') as (st' & Hst' & Hle'); [lia|].
        exists st'. split; [done|].
        eapply Forall2_trans; [|done|done]. intros ???; lia.
  - exists st. split; [done|]. split; [by apply HI|]. by apply HP.
Qed.

(** ** The learning rates *)




(** *** Halving in binary64 *)


(** Rounding a mantissa of 53 bits, or one of 54 bits that ends with a
    zero, changes nothing. *)
Lemma round_exact_53 (s : bool) (m : positive) (e : Z) :
  digits2_pos m = 53%positive → -1074 <= e → e <= 971 →
  binary_round_aux 53 1024 s (Z.pos m) e loc_Exact = S754_finite s m e.
Proof.
  intros Hd Hlo Hhi. unfold binary_round_aux, shr_fexp, fexp, emin.
  cbn [Zdigits2 shr_record_of_loc]. rewrite Hd.
  replace (Z.max (53 + e - 53) (3 - 1024 - 53) - e) with 0 by lia.
  cbn [shr shr_m loc_of_shr_record round_nearest_even Zdigits2 shr_record_of_loc].
  rewrite Hd.
  replace (Z.max (53 + e - 53) (3 - 1024 - 53) - e) with 0 by lia.
  cbn [shr shr_m]. rewrite (proj2 (Z.leb_le e (1024 - 53))) by lia. done.
Qed.





(** *** The ceilings in binary64 *)

Lemma digits2_pos_bounds (p : positive) :
  2 ^ (Z.pos (digits2_pos p) - 1) <= Z.pos p < 2 ^ Z.pos (digits2_pos p).
Proof.
  induction p as [p IH|p IH|]; cbn [digits2_pos].
  - rewrite Pos2Z.inj_succ.
    replace (Z.succ (Z.pos (digits2_pos p)) - 1)
      with (Z.succ (Z.pos (digits2_pos p) - 1)) by lia.
    rewrite !Z.pow_succ_r by lia. lia.
  - rewrite Pos2Z.inj_succ.
    replace (Z.succ (Z.pos (digits2_pos p)) - 1)
      with (Z.succ (Z.pos (digits2_pos p) - 1)) by lia.
    rewrite !Z.pow_succ_r by lia. lia.
  - simpl. lia.
Qed.

Lemma digits2_pos_unique (p : positive) (d : Z) :
  2 ^ (d - 1) <= Z.pos p < 2 ^ d → 0 < d → Z.pos (digits2_pos p) = d.
Proof.
  intros Hp Hd. pose proof (digits2_pos_bounds p) as Heb.
  destruct (Z.lt_trichotomy (Z.pos (digits2_pos p)) d) as [Hlt|[Heq|Hgt]]; [|done|].
  - pose proof (Z.pow_le_mono_r 2 (Z.pos (digits2_pos p)) (d - 1)). lia.
  - pose proof (Z.pow_le_mono_r 2 d (Z.pos (digits2_pos p) - 1)). lia.
Qed.

Lemma digits2_pos_53 (p : positive) :
  2 ^ 52 <= Z.pos p < 2 ^ 53 → digits2_pos p = 53%positive.
Proof.
  intros Hp. pose proof (digits2_pos_unique p 53 Hp). lia.
Qed.

Lemma digits2_pos_54 (p : positive) :
  2 ^ 53 <= Z.pos p < 2 ^ 54 → digits2_pos p = 54%positive.
Proof.
  intros Hp. pose proof (digits2_pos_unique p 54 Hp). lia.
Qed.

Lemma iter_xO_value (p d : positive) :
  Z.pos (Pos.iter xO p d) = Z.pos p * 2 ^ Z.pos d.
Proof.
  induction d as [|d IH] using Pos.peano_ind.
  - simpl. lia.
  - rewrite Pos.iter_succ, Pos2Z.inj_succ, Z.pow_succ_r by lia.
    rewrite Pos2Z.inj_xO, IH. lia.
Qed.

(** An integer of at most 53 bits is a binary64 number. *)
Lemma float_of_int_normal (x : Z) :
  0 < x < 2 ^ 53 →
  ∃ (m : positive) (ea : Z),
    float_of_int x = S754_finite false m (- ea) ∧
    0 <= ea <= 52 ∧ Z.pos m = x * 2 ^ ea ∧ 2 ^ 52 <= Z.pos m < 2 ^ 53.
Proof.
  intros Hx. destruct x as [|p|p]; try lia.
  pose proof (digits2_pos_bounds p) as Heb.
  assert (Z.pos (digits2_pos p) <= 53) as Hd.
  { destruct (decide (Z.pos (digits2_pos p) <= 53)) as [|Hn]; [done|].
    pose proof (Z.pow_le_mono_r 2 53 (Z.pos (digits2_pos p) - 1)). lia. }
  unfold float_of_int, binary_normalize, binary_round, shl_align, fexp, emin.
  replace (Z.max (Z.pos (digits2_pos p) + 0 - 53) (3 - 1024 - 53))
    with (Z.pos (digits2_pos p) - 53) by lia.
  rewrite Z.sub_0_r.
  destruct (Z.pos (digits2_pos p) - 53) as [|q|q] eqn:Hq; try lia.
  - assert (2 ^ 52 <= Z.pos p < 2 ^ 53) as Hp.
    { replace (Z.pos (digits2_pos p)) with 53 in Heb by lia. exact Heb. }
    exists p, 0. rewrite round_exact_53 by (by apply digits2_pos_53 || lia).
    split; [done|]. split; [lia|]. split; [|done].
    by rewrite Z.pow_0_r, Z.mul_1_r.
  - assert (2 ^ 52 <= Z.pos (Pos.iter xO p q) < 2 ^ 53) as Hp.
    { rewrite iter_xO_value.
      replace (2 ^ 52) with (2 ^ (Z.pos (digits2_pos p) - 1) * 2 ^ Z.pos q)
        by (rewrite <- Z.pow_add_r by lia; f_equal; lia).
      replace (2 ^ 53) with (2 ^ Z.pos (digits2_pos p) * 2 ^ Z.pos q)
        by (rewrite <- Z.pow_add_r by lia; f_equal; lia).
      pose proof (Z.pow_pos_nonneg 2 (Z.pos q) ltac:(lia) ltac:(lia)). nia. }
    exists (Pos.iter xO p q), (Z.pos q).
    rewrite round_exact_53 by (by apply digits2_pos_53 || lia).
    split; [done|]. split; [lia|]. split; [apply iter_xO_value|done].
Qed.

(** The quotient of two such numbers, before it is rounded. *)
Lemma SFdiv_normal (mx my : positive) (ea eb : Z) :
  2 ^ 52 <= Z.pos mx < 2 ^ 53 → 2 ^ 52 <= Z.pos my < 2 ^ 53 →
  0 <= ea <= 52 → 0 <= eb <= 52 →
  SFdiv 53 1024 (S754_finite false mx (- ea)) (S754_finite false my (- eb)) =
  binary_round_aux 53 1024 false
    (Z.pos mx * 2 ^ 53 / Z.pos my) (eb - ea - 53)
    (new_location (Z.pos my) ((Z.pos mx * 2 ^ 53) mod Z.pos my)).
Proof.
  intros Hx Hy Hea Heb. unfold SFdiv, SFdiv_core_binary.
  cbn [Zdigits2 xorb]. rewrite (digits2_pos_53 mx Hx), (digits2_pos_53 my Hy).
  unfold fexp, emin.
  replace (Z.min (Z.max (53 + - ea - (53 + - eb) - 53) (3 - 1024 - 53)) (- ea - - eb))
    with (eb - ea - 53) by lia.
  replace (- ea - - eb - (eb - ea - 53)) with 53 by lia.
  cbv iota. rewrite Z.shiftl_mul_pow2 by lia.
  unfold Z.div, Z.modulo.
  by destruct (Z.div_eucl (Z.pos mx * 2 ^ 53) (Z.pos my)).
Qed.

Lemma ceil_scaled_double (m e : Z) :
  ceil_scaled m (e + 1) = ceil_scaled (2 * m) e.
Proof.
  unfold ceil_scaled. repeat case_bool_decide; try lia.
  - rewrite Z.pow_add_r by lia. lia.
  - assert (e = -1) as -> by lia.
    change (2 ^ (-1 + 1)) with 1. change (2 ^ (- -1)) with 2.
    replace (- (2 * m)) with (- m * 2) by lia. rewrite Z.div_mul by lia. lia.
  - replace (- e) with (1 + - (e + 1)) by lia.
    rewrite Z.pow_add_r by lia. change (2 ^ 1) with 2.
    replace (- (2 * m)) with (2 * - m) by lia.
    by rewrite Z.div_mul_cancel_l by lia.
Qed.

Lemma ceil_scaled_unique (m e c : Z) :
  e <= 0 → (c - 1) * 2 ^ (- e) < m <= c * 2 ^ (- e) → ceil_scaled m e = c.
Proof.
  intros He Hm. unfold ceil_scaled. case_bool_decide.
  - assert (e = 0) as -> by lia. change (2 ^ (- 0)) with 1 in Hm.
    change (2 ^ 0) with 1. lia.
  - pose proof (Z.pow_pos_nonneg 2 (- e) ltac:(lia) ltac:(lia)) as Hpos.
    assert (- c = - m / 2 ^ (- e)) as <-; [|lia].
    apply Z.div_unique with (r := c * 2 ^ (- e) - m); lia.
Qed.

Lemma shr_m_of_loc (m : Z) (l : location) : shr_m (shr_record_of_loc m l) = m.
Proof. by destruct l as [|[]]. Qed.

Lemma loc_of_shr_record_of_loc (m : Z) (l : location) :
  loc_of_shr_record (shr_record_of_loc m l) = l.
Proof. by destruct l as [|[]]. Qed.

Lemma shr_fexp_53 (q : positive) (e : Z) (l : location) :
  2 ^ 52 <= Z.pos q < 2 ^ 53 → -1074 <= e →
  shr_fexp 53 1024 (Z.pos q) e l = (shr_record_of_loc (Z.pos q) l, e).
Proof.
  intros Hq He. unfold shr_fexp, fexp, emin. cbn [Zdigits2].
  rewrite (digits2_pos_53 q Hq).
  replace (Z.max (53 + e - 53) (3 - 1024 - 53) - e) with 0 by lia. done.
Qed.

Lemma shr_fexp_54 (q : positive) (e : Z) (l : location) :
  2 ^ 53 <= Z.pos q < 2 ^ 54 → -1075 <= e →
  shr_fexp 53 1024 (Z.pos q) e l = (shr_1 (shr_record_of_loc (Z.pos q) l), e + 1).
Proof.
  intros Hq He. unfold shr_fexp, fexp, emin. cbn [Zdigits2].
  rewrite (digits2_pos_54 q Hq).
  replace (Z.max (54 + e - 53) (3 - 1024 - 53) - e) with 1 by lia. done.
Qed.

Lemma shr_1_m (q : positive) (r s : bool) :
  shr_m (shr_1 {| shr_m := Z.pos q; shr_r := r; shr_s := s |}) = Z.pos q / 2.
Proof.
  destruct q as [q|q|]; cbn [shr_1 shr_m].
  - apply Z.div_unique with (r := 1); lia.
  - apply Z.div_unique with (r := 0); lia.
  - done.
Qed.

Lemma round_nearest_even_cases (m : Z) (l : location) :
  round_nearest_even m l = m ∨ round_nearest_even m l = m + 1.
Proof.
  destruct l as [|[]]; cbn [round_nearest_even]; auto.
  destruct (Z.even m); auto.
Qed.

(** The second half of the rounding, which brings a mantissa that the
    first half took to [2 ^ 53] back to 53 bits. *)
Lemma renormalized_ceil (m e : Z) :
  2 ^ 52 <= m <= 2 ^ 53 → -1074 <= e <= 900 →
  np_ceil (let '(mrs, e') := shr_fexp 53 1024 m e loc_Exact in
           match shr_m mrs with
           | 0 => S754_zero false
           | Z.pos m' =>
             if e' <=? 1024 - 53 then S754_finite false m' e'
             else S754_infinity false
           | Z.neg _ => S754_nan
           end) = Some (ceil_scaled m e).
Proof.
  intros Hm He. destruct m as [|q|q]; try lia.
  destruct (decide (Z.pos q = 2 ^ 53)) as [Heq|Hne].
  - rewrite shr_fexp_54 by lia.
    assert (q = 9007199254740992%positive) as -> by lia.
    cbn [shr_record_of_loc shr_1 shr_m].
    rewrite (proj2 (Z.leb_le (e + 1) (1024 - 53))) by lia.
    cbn [np_ceil cond_Zopp]. by rewrite ceil_scaled_double.
  - rewrite shr_fexp_53 by lia. cbn [shr_record_of_loc shr_m].
    rewrite (proj2 (Z.leb_le e (1024 - 53))) by lia. done.
Qed.

Lemma round_53_ceil (q : positive) (e : Z) (l : location) :
  2 ^ 52 <= Z.pos q < 2 ^ 53 → -1074 <= e <= 900 →
  np_ceil (binary_round_aux 53 1024 false (Z.pos q) e l)
  = Some (ceil_scaled (round_nearest_even (Z.pos q) l) e).
Proof.
  intros Hq He. unfold binary_round_aux. rewrite shr_fexp_53 by lia.
  rewrite shr_m_of_loc, loc_of_shr_record_of_loc.
  apply renormalized_ceil; [|done].
  destruct (round_nearest_even_cases (Z.pos q) l) as [->| ->]; lia.
Qed.

Lemma round_54_ceil (q : positive) (e : Z) (l : location) :
  2 ^ 53 <= Z.pos q < 2 ^ 54 → -1075 <= e <= 899 →
  np_ceil (binary_round_aux 53 1024 false (Z.pos q) e l)
  = Some (ceil_scaled
            (round_nearest_even (Z.pos q / 2)
               (loc_of_shr_record (shr_1 (shr_record_of_loc (Z.pos q) l))))
            (e + 1)).
Proof.
  intros Hq He. unfold binary_round_aux. rewrite shr_fexp_54 by lia.
  assert (shr_m (shr_1 (shr_record_of_loc (Z.pos q) l)) = Z.pos q / 2) as ->.
  { destruct l as [|[]]; apply shr_1_m. }
  apply renormalized_ceil; [|lia].
  assert (2 ^ 52 <= Z.pos q / 2 < 2 ^ 53) as Hh.
  { split; [apply Z.div_le_lower_bound; lia|apply Z.div_lt_upper_bound; lia]. }
  destruct (round_nearest_even_cases (Z.pos q / 2)
              (loc_of_shr_record (shr_1 (shr_record_of_loc (Z.pos q) l))))
    as [->| ->]; lia.
Qed.

Lemma new_location_exact (d : Z) : new_location d 0 = loc_Exact.
Proof.
  unfold new_location, new_location_even, new_location_odd.
  by destruct (Z.even d).
Qed.

Lemma new_location_inexact (d r : Z) :
  0 < r → ∃ c, new_location d r = loc_Inexact c.
Proof.
  intros Hr. unfold new_location.
  destruct (Z.even d); unfold new_location_even, new_location_odd;
    rewrite (proj2 (Z.eqb_neq r 0)) by lia; eauto.
Qed.

(** Shifting an even mantissa with nothing behind it loses nothing, and
    shifting an odd one with something behind it leaves more than a half. *)
Lemma shifted_exact (q : positive) :
  Z.even (Z.pos q) = true →
  loc_of_shr_record (shr_1 (shr_record_of_loc (Z.pos q) loc_Exact)) = loc_Exact.
Proof. by destruct q. Qed.

Lemma shifted_above_half (q : positive) (c : comparison) :
  Z.odd (Z.pos q) = true →
  loc_of_shr_record (shr_1 (shr_record_of_loc (Z.pos q) (loc_Inexact c)))
  = loc_Inexact Gt.
Proof. by destruct q, c. Qed.

(** The integer part of the scaled quotient [A = x * K / y * my] lies
    strictly between the scaled floor and the scaled ceiling of [x / y]. *)
Lemma scaled_quotient_bounds (x y my A Qq R K c : Z) :
  0 < y → 0 < my → y < K →
  (c - 1) * y < x <= c * y →
  A * y = x * K * my →
  A = Qq * my + R → 0 <= R < my →
  (c - 1) * K + 1 <= Qq ∧ Qq <= c * K ∧
  (0 < R → Qq + 1 <= c * K) ∧
  (R = 0 → Qq ≠ (c - 1) * K + 1).
Proof.
  intros Hy Hmy HK Hc HA HQ HR.
  assert (0 < K * my) as HKm by nia.
  assert (((c - 1) * y + 1) * (K * my) <= x * (K * my)) as H1 by nia.
  assert (x * (K * my) <= c * y * (K * my)) as H2 by nia.
  assert (y * my <= K * my) as H3 by nia.
  repeat split.
  - destruct (decide ((c - 1) * K + 1 <= Qq)) as [|Hn]; [done|].
    assert (Qq * my <= (c - 1) * K * my) as H4 by nia.
    assert (A * y < ((c - 1) * K * my + my) * y) as H5 by nia.
    lia.
  - destruct (decide (Qq <= c * K)) as [|Hn]; [done|].
    assert ((c * K + 1) * my <= Qq * my) as H4 by nia.
    assert (((c * K + 1) * my) * y <= A * y) as H5 by nia.
    assert (0 < my * y) by nia. lia.
  - intros HR0. destruct (decide (Qq + 1 <= c * K)) as [|Hn]; [done|].
    assert (c * K * my <= Qq * my) as H4 by nia.
    assert ((c * K * my) * y < A * y) as H5 by nia.
    lia.
  - intros -> ->.
    assert (((c - 1) * K + 1) * y = x * K) as H4 by nia.
    assert (y = K * (x - (c - 1) * y)) as H5 by lia.
    assert (1 <= x - (c - 1) * y) as H6 by lia.
    nia.
Qed.

(** For integers of at most 53 bits, the ceiling that lines 186-191 compute
    in binary64 is the ceiling of the exact quotient. *)
Lemma float_ceil_div_exact (x y : Z) :
  0 <= x < 2 ^ 53 → 0 < y < 2 ^ 53 →
  float_ceil_div x y = Some (- (- x / y)).
Proof.
  intros Hx Hy. unfold float_ceil_div.
  destruct (float_of_int_normal y Hy) as (my & eb & -> & Heb & Hmy & Hmyr).
  destruct (decide (x = 0)) as [->|Hx0]; [done|].
  destruct (float_of_int_normal x ltac:(lia)) as (mx & ea & -> & Hea & Hmx & Hmxr).
  rewrite SFdiv_normal by done.
  set (c := - (- x / y)).
  assert ((c - 1) * y < x <= c * y) as Hc.
  { subst c. pose proof (Z.div_mod (- x) y ltac:(lia)).
    pose proof (Z.mod_pos_bound (- x) y ltac:(lia)). nia. }
  set (A := Z.pos mx * 2 ^ 53).
  pose proof (Z.div_mod A (Z.pos my) ltac:(lia)) as HQ.
  pose proof (Z.mod_pos_bound A (Z.pos my) ltac:(lia)) as HR.
  set (Qq := A / Z.pos my) in *. set (R := A mod Z.pos my) in *.
  assert (2 ^ 52 <= Qq < 2 ^ 54) as HQr.
  { subst Qq A. split.
    - apply Z.div_le_lower_bound; [lia|]. nia.
    - apply Z.div_lt_upper_bound; [lia|]. nia. }
  pose proof (Z.pow_pos_nonneg 2 ea ltac:(lia) ltac:(lia)) as Hpa.
  pose proof (Z.pow_pos_nonneg 2 eb ltac:(lia) ltac:(lia)) as Hpb.
  set (K := 2 ^ (53 + ea - eb)).
  assert (K * 2 ^ eb = 2 ^ 53 * 2 ^ ea) as HK.
  { subst K. rewrite <- !Z.pow_add_r by lia. f_equal. lia. }
  assert (A * y = x * K * Z.pos my) as HA.
  { subst A. rewrite Hmx, Hmy.
    replace (x * K * (y * 2 ^ eb)) with (x * y * (K * 2 ^ eb)) by ring.
    rewrite HK. ring. }
  assert (y < K) as HyK by nia.
  destruct (scaled_quotient_bounds x y (Z.pos my) A Qq R K c)
    as (Hlo & Hhi & Hup & Hne); try done; try lia.
  destruct Qq as [|q|q] eqn:HQq; try lia.
  destruct (decide (Z.pos q < 2 ^ 53)) as [Hsmall|Hlarge].
  - rewrite round_53_ceil by lia. f_equal.
    apply ceil_scaled_unique; [lia|].
    replace (- (eb - ea - 53)) with (53 + ea - eb) by lia. fold K.
    destruct (decide (R = 0)) as [HR0|HR0].
    + rewrite HR0, new_location_exact. cbn [round_nearest_even]. lia.
    + destruct (round_nearest_even_cases (Z.pos q) (new_location (Z.pos my) R))
        as [->| ->]; lia.
  - rewrite round_54_ceil by lia. f_equal.
    apply ceil_scaled_unique; [lia|].
    replace (- (eb - ea - 53 + 1)) with (52 + ea - eb) by lia.
    assert (K = 2 * 2 ^ (52 + ea - eb)) as HK2.
    { subst K. replace (53 + ea - eb) with (1 + (52 + ea - eb)) by lia.
      by rewrite Z.pow_add_r by lia. }
    set (K' := 2 ^ (52 + ea - eb)) in *.
    pose proof (Z.div_mod (Z.pos q) 2 ltac:(lia)) as Hhalf.
    pose proof (Z.mod_pos_bound (Z.pos q) 2 ltac:(lia)) as Hbit.
    destruct (Z.even (Z.pos q)) eqn:Heven.
    + assert (Z.pos q mod 2 = 0) as Hm0.
      { apply Zeven_bool_iff, Zeven_ex_iff in Heven as [h Hh].
        rewrite Hh, Z.mul_comm. by apply Z.mod_mul. }
      destruct (decide (R = 0)) as [HR0|HR0].
      * rewrite HR0, new_location_exact, shifted_exact by done.
        cbn [round_nearest_even]. lia.
      * destruct (round_nearest_even_cases (Z.pos q / 2)
                    (loc_of_shr_record
                       (shr_1 (shr_record_of_loc (Z.pos q)
                                 (new_location (Z.pos my) R)))))
          as [->| ->]; lia.
    + assert (Z.odd (Z.pos q) = true) as Hodd.
      { by rewrite <- Z.negb_even, Heven. }
      assert (Z.pos q mod 2 = 1) as Hm1.
      { apply Zodd_bool_iff, Zodd_ex_iff in Hodd as [h Hh].
        rewrite Hh, Z.add_comm, Z.mul_comm. by rewrite Z.mod_add. }
      destruct (decide (R = 0)) as [HR0|HR0].
      * specialize (Hne HR0).
        destruct (round_nearest_even_cases (Z.pos q / 2)
                    (loc_of_shr_record
                       (shr_1 (shr_record_of_loc (Z.pos q)
                                 (new_location (Z.pos my) R)))))
          as [->| ->]; lia.
      * destruct (new_location_inexact (Z.pos my) R ltac:(lia)) as [cmp ->].
        rewrite shifted_above_half by done. cbn [round_nearest_even]. lia.
Qed.

Lemma float_ceilings :
  Healthy w a → ceilings_exact a →
  float_ceil_div (n_steps a) (n_test_interval a)
  = Some (Z.of_nat (n_tests_total a)) ∧
  float_ceil_div (n_test_samples a) (batch_size_test a)
  = Some (Z.of_nat (n_test a)).
Proof.
  intros H (Hs & Hi & Hts & Hb).
  pose proof (interval_pos w a H). pose proof (steps_nonneg w a H).
  pose proof (batch_size_test_pos w a H).
  pose proof (test_samples_nonneg w a H).
  unfold n_tests_total, n_test.
  rewrite !Z2Nat.id by (apply ceil_div_nonneg; lia).
  split; apply float_ceil_div_exact; lia.
Qed.

(** *** The learning rates of the run *)








(** ** The training iterator *)

Lemma stepped_gen_train (step : nat) (b : Batch) (st : State) :
  gen_train (stepped w a step b st) =
  match gen_train st with
  | _ :: rest => rest
  | [] => tail (train_data w (epoch st))
  end.
Proof.
  unfold stepped, trained.
  destruct (evaluated_frame step
              (trained_ref w step b
                 ((if just_ref a then id else trained_net w step b)
                    (counted (labels b) (advanced w (adjusted a step st))))))
    as (_ & _ & _ & -> & _).
  simpl.
  destruct (trained_net_frame step b
              (counted (labels b) (advanced w (adjusted a step st))))
    as (_ & _ & _ & _ & -> & _).
  simpl. unfold advanced.
  destruct (adjusted_frame step st) as (_ & _ & _ & -> & -> & _).
  by destruct (gen_train st).
Qed.

Lemma fetched_adjusted (step : nat) (st : State) :
  fetched w (adjusted a step st) = fetched w st.
Proof.
  unfold fetched. by destruct (adjusted_frame step st) as (_ & _ & _ & -> & -> & _).
Qed.

Lemma succ_mod_congr (i j len : nat) :
  (i mod len = j mod len → S i mod len = S j mod len)%nat.
Proof.
  intros Hij. destruct (decide (len = 0%nat)) as [->|Hlen]; [simpl in *; lia|].
  replace (S i) with (i + 1)%nat by lia. replace (S j) with (j + 1)%nat by lia.
  rewrite (Nat.Div0.add_mod i), (Nat.Div0.add_mod j). by rewrite Hij.
Qed.

Lemma stepped_epoch (step : nat) (b : Batch) (st : State) :
  epoch (stepped w a step b st) =
  match gen_train st with
  | _ :: _ => epoch st
  | [] => S (epoch st)
  end.
Proof.
  unfold stepped, trained.
  destruct (evaluated_frame step
              (trained_ref w step b
                 ((if just_ref a then id else trained_net w step b)
                    (counted (labels b) (advanced w (adjusted a step st))))))
    as (_ & _ & _ & _ & -> & _).
  simpl.
  destruct (trained_net_frame step b
              (counted (labels b) (advanced w (adjusted a step st))))
    as (_ & _ & _ & _ & _ & -> & _).
  simpl. unfold advanced.
  destruct (adjusted_frame step st) as (_ & _ & _ & -> & -> & _).
  by destruct (gen_train st).
Qed.

(** C4, as the driver has it.  [train_data w k] being the batches of the
    [k]-th iterator made of the training loader, and [epoch] the number of
    iterators made so far: at every step of a well-formed run the iterator
    holds what is left of the latest iteration; when something is left the
    step takes its first batch; when nothing is left the step makes a new
    iterator and takes the first batch of that new iteration, whatever the
    earlier ones yielded, and the step ends without an exception.  When the
    new iterator yields nothing either, the [StopIteration] of its [next]
    is not caught and ends the run. *)
Theorem train_iteration_restarts (K : nat) :
  (Healthy w a → ToTensorWorks w → Z.of_nat K < n_steps a →
   ∃ st st1 b st2,
     run_steps w a K = Ok tt st ∧
     adjust_learning_rates a K st = Ok tt st1 ∧
     next_train_batch w st1 = Ok b st2 ∧
     (0 < epoch st1)%nat ∧
     (∃ j, gen_train st1 = drop j (train_data w (pred (epoch st1)))) ∧
     (gen_train st1 ≠ [] →
      head (gen_train st1) = Some b ∧ gen_train st2 = tail (gen_train st1) ∧
      epoch st2 = epoch st1) ∧
     (gen_train st1 = [] →
      head (train_data w (epoch st1)) = Some b ∧
      gen_train st2 = tail (train_data w (epoch st1)) ∧
      epoch st2 = S (epoch st1)) ∧
     ∃ st', run_steps w a (S K) = Ok tt st') ∧
  (∀ st st1,
     run_steps w a K = Ok tt st →
     adjust_learning_rates a K st = Ok tt st1 →
     gen_train st1 = [] → train_data w (epoch st1) = [] →
     ∃ st', next_train_batch w st1 = Raise StopIteration st' ∧
            run_steps w a (S K) = Raise StopIteration st' ∧
            (Z.of_nat K < n_steps a → run w a = Raise StopIteration st')).
Proof.
  split.
  - intros H Ht HK.
    destruct (run_steps_ind
                (fun k st => (0 < epoch st)%nat ∧
                             ∃ j, gen_train st
                                  = drop j (train_data w (pred (epoch st)))) H Ht)
      with (k := K) as (st & Hrun & HI & Hpos & j & Hgen); [| |lia|].
    + simpl. split; [lia|]. exists 0%nat. by rewrite drop_0.
    + intros k st b _ _ _ (Hpos & j & Hgen) _ _.
      rewrite stepped_gen_train, stepped_epoch.
      destruct (gen_train st) as [|x rest] eqn:Hg.
      * split; [lia|]. exists 1%nat. simpl. by destruct (train_data w (epoch st)).
      * split; [done|]. exists (S j).
        replace (S j) with (j + 1)%nat by lia.
        by rewrite <- drop_drop, <- Hgen.
    + assert (adjust_learning_rates a K st = Ok tt (adjusted a K st)) as Hadj.
      { apply adjust_ok; [|by apply HI]. intros Hjr.
        destruct (inv_net w a st HI Hjr) as (n & arr & ? & ? & ? & ?). eauto. }
      destruct (next_train_batch_total (adjusted a K st) (train_nonempty w a H))
        as [b Hb].
      exists st, (adjusted a K st), b, (advanced w (adjusted a K st)).
      split; [done|]. split; [done|]. split; [by apply next_train_batch_ok|].
      destruct (adjusted_frame K st) as (_ & _ & _ & Hg & He & _).
      rewrite Hg, He. split; [done|]. split; [by exists j|].
      unfold fetched in Hb. rewrite Hg, He in Hb.
      unfold advanced. rewrite Hg, He.
      split; [|split].
      * intros Hne. destruct (gen_train st); [done|]. done.
      * intros Hnil. rewrite Hnil in *. done.
      * destruct (body_ok K b st H (Ht K) HI HK) as [Hbody _].
        { unfold fetched. by rewrite Hg, He. }
        exists (stepped w a K b st). by rewrite (run_steps_S K st Hrun).
  - intros st st1 Hrun Hadj Hnil Hempty.
    assert (next_train_batch w st1
            = Raise StopIteration (set_gen_train [] (S (epoch st1)) st1)) as Hnext.
    { unfold next_train_batch, bind, gets, modify, raise.
      rewrite Hnil, Hempty. done. }
    assert (run_steps w a (S K)
            = Raise StopIteration (set_gen_train [] (S (epoch st1)) st1)) as Hrun'.
    { rewrite (run_steps_S K st Hrun). unfold body. mstep Hadj.
      by apply bind_Raise. }
    eexists. split; [done|]. split; [done|].
    intros HK. apply (run_steps_raise (S K) (S K) _ _ Hrun'); lia.
Qed.

(** ** The accuracy arrays *)

Lemma cell_put {B} (arr : list (list B)) (r i : nat) (x : B) (r' j : nat) :
  is_Some (cell arr r i) →
  cell (put arr r i x) r' j =
  if decide (r' = r ∧ j = i) then Some x else cell arr r' j.
Proof.
  unfold cell, put. intros [y Hy].
  destruct (arr !! r) as [row|] eqn:Hrow; [|done]. simpl in Hy.
  pose proof (lookup_lt_Some _ _ _ Hrow) as Hr.
  pose proof (lookup_lt_Some _ _ _ Hy) as Hi.
  destruct (decide (r' = r)) as [->|Hne].
  - rewrite list_lookup_insert_eq by done. simpl.
    destruct (decide (j = i)) as [->|Hne].
    + rewrite list_lookup_insert_eq by done. by rewrite decide_True.
    + rewrite list_lookup_insert_ne by done. rewrite Hrow.
      rewrite decide_False; [done|]. by intros [_ ?].
  - rewrite list_lookup_insert_ne by done.
    rewrite decide_False; [done|]. by intros [? _].
Qed.

Lemma shape2_cell (arr : list (list Acc)) (r i : nat) :
  shape2 a arr → (r < n_tests_total a)%nat → (i < n_test a)%nat →
  is_Some (cell arr r i).
Proof.
  intros [Hlen Hall] Hr Hi. unfold cell.
  destruct (lookup_lt_is_Some_2 arr r) as [row Hrow]; [lia|]. rewrite Hrow. simpl.
  apply lookup_lt_is_Some_2. rewrite (Forall_lookup_1 _ _ _ _ Hall Hrow). done.
Qed.

Lemma shape3_cell (arr : list (list (list Acc))) (r i : nat) :
  shape3 w a arr → (r < n_tests_total a)%nat → (i < n_test a)%nat →
  is_Some (cell arr r i).
Proof.
  intros [Hlen Hall] Hr Hi. unfold cell.
  destruct (lookup_lt_is_Some_2 arr r) as [row Hrow]; [lia|]. rewrite Hrow. simpl.
  apply lookup_lt_is_Some_2.
  destruct (Forall_lookup_1 _ _ _ _ Hall Hrow) as [-> _]. done.
Qed.

Lemma tested_acc_test_ref (step r i : nat) (b : Batch) (st : State) :
  acc_test_ref (tested w a step r i b st) =
  put2 (acc_test_ref st) r i (ref_accuracy w step i (ref_net st) b).
Proof.
  unfold tested, tested_ref, tested_net.
  destruct (just_ref a), (net st) eqn:Hn, (acc_test st) eqn:Harr;
    repeat case_bool_decide; unfold id; by simpl.
Qed.

Lemma tested_acc_test (step r i : nat) (b : Batch) (st : State) (n : Net)
    (arr : list (list (list Acc))) :
  just_ref a = false → net st = Some n → acc_test st = Some arr →
  acc_test (tested w a step r i b st) =
  Some (put3 arr r i (net_accuracy w step i n b)).
Proof.
  intros Hj Hn Harr. unfold tested, tested_ref, tested_net.
  rewrite Hj, Hn, Harr. repeat case_bool_decide; unfold id; by simpl.
Qed.

Lemma tested_acc_test_just_ref (step r i : nat) (b : Batch) (st : State) :
  just_ref a = true → acc_test (tested w a step r i b st) = acc_test st.
Proof.
  intros Hj. unfold tested, tested_ref. rewrite Hj.
  case_bool_decide; unfold id; by simpl.
Qed.

Lemma tested_from_ref_cells (step r : nat) (pool : list Batch) (i : nat)
    (st : State) (r' j : nat) :
  shape2 a (acc_test_ref st) →
  (r < n_tests_total a)%nat → (i + length pool <= n_test a)%nat →
  cell (acc_test_ref (tested_from w a step r i pool st)) r' j =
  if decide (r' = r ∧ (i <= j < i + length pool)%nat)
  then ref_accuracy w step j (ref_net st) <$> pool !! (j - i)%nat
  else cell (acc_test_ref st) r' j.
Proof.
  revert i st. induction pool as [|b pool IH]; intros i st Hsh Hr Hi; simpl.
  - rewrite decide_False; [done|]. lia.
  - simpl in Hi. rewrite IH; [| |done|lia].
    2:{ rewrite tested_acc_test_ref. by apply put2_shape. }
    destruct (tested_frame step r i b st) as (_ & -> & _).
    rewrite tested_acc_test_ref. unfold put2.
    rewrite cell_put by (apply shape2_cell; [done|done|lia]).
    repeat case_decide; try lia; destruct_and?; simplify_eq; try lia.
    all: try done.
    all: try (exfalso; lia).
    + replace (j - i)%nat with (S (j - S i)) by lia. done.
    + by rewrite Nat.sub_diag.
Qed.

Lemma tested_from_net_cells (step r : nat) (pool : list Batch) (i : nat)
    (st : State) (n : Net) (arr : list (list (list Acc))) :
  Healthy w a → just_ref a = false →
  net st = Some n → acc_test st = Some arr → shape3 w a arr →
  (r < n_tests_total a)%nat → (i + length pool <= n_test a)%nat →
  ∃ arr', acc_test (tested_from w a step r i pool st) = Some arr' ∧
    ∀ r' j,
      cell arr' r' j =
      if decide (r' = r ∧ (i <= j < i + length pool)%nat)
      then net_accuracy w step j n <$> pool !! (j - i)%nat
      else cell arr r' j.
Proof.
  intros H Hjr. revert i st arr.
  induction pool as [|b pool IH]; intros i st arr Hn Harr Hsh Hr Hi; simpl.
  - exists arr. split; [done|]. intros r' j. rewrite decide_False; [done|]. lia.
  - simpl in Hi.
    destruct (IH (S i) (tested w a step r i b st)
                (put3 arr r i (net_accuracy w step i n b)))
      as (arr' & Harr' & Hcells); try done; try lia.
    + by destruct (tested_frame step r i b st) as (-> & _).
    + by apply tested_acc_test.
    + apply put3_shape; [done|]. apply (accuracy_shape w a H).
    + exists arr'. split; [done|]. intros r' j. rewrite Hcells. unfold put3.
      rewrite cell_put by (apply shape3_cell; [done|done|lia]).
      repeat case_decide; try lia; destruct_and?; simplify_eq; try lia.
      all: try done.
      all: try (exfalso; lia).
      * replace (j - i)%nat with (S (j - S i)) by lia. done.
      * by rewrite Nat.sub_diag.
Qed.

Lemma tested_from_acc_test_just_ref (step r : nat) (pool : list Batch) (i : nat)
    (st : State) :
  just_ref a = true → acc_test (tested_from w a step r i pool st) = acc_test st.
Proof.
  intros Hj. revert i st. induction pool as [|b pool IH]; intros i st; simpl; [done|].
  by rewrite IH, tested_acc_test_just_ref.
Qed.

Lemma reported_frame (step r : nat) (st : State) :
  let st' := reported a step r st in
  net st' = net st ∧ acc_test st' = acc_test st ∧ ref_net st' = ref_net st ∧
  acc_test_ref st' = acc_test_ref st ∧ files st' = files st.
Proof. done. Qed.

Lemma trained_frame (step : nat) (b : Batch) (st : State) :
  let st' := trained w a step b st in
  acc_test st' = acc_test st ∧ acc_test_ref st' = acc_test_ref st ∧
  all_test_data st' = all_test_data st ∧ files st' = files st.
Proof.
  unfold trained. simpl.
  destruct (trained_net_frame step b
              (counted (labels b) (advanced w (adjusted a step st))))
    as (-> & _ & -> & -> & _ & _ & _ & ->).
  simpl.
  destruct (advanced_frame (adjusted a step st))
    as (_ & -> & _ & -> & -> & _ & -> & _).
  by destruct (adjusted_frame step st) as (-> & -> & -> & _ & _ & _ & ->).
Qed.

Lemma pool_length (st : State) :
  Healthy w a → Inv w a st → length (all_test_data st) = n_test a.
Proof.
  intros H HI. rewrite (inv_pool w a st HI), length_take.
  pose proof (test_loader_long w a H). lia.
Qed.

(** What an evaluation round does to the arrays and to the files. *)
Lemma evaluated_arrays (k : nat) (pre : State) :
  Healthy w a → Inv w a pre → Z.of_nat k < n_steps a → evaluates a k = true →
  let st' := evaluated w a k pre in
  let J := os_path_join (out_dir w) in
  (∀ r' j,
     cell (acc_test_ref st') r' j =
     if decide (r' = round_of a k ∧ (j < n_test a)%nat)
     then ref_accuracy w k j (ref_net st') <$> all_test_data pre !! j
     else cell (acc_test_ref pre) r' j) ∧
  (just_ref a = true → acc_test st' = acc_test pre) ∧
  (just_ref a = false →
   ∃ n arr arr',
     net st' = Some n ∧ acc_test pre = Some arr ∧ acc_test st' = Some arr' ∧
     (∀ r' j,
        cell arr' r' j =
        if decide (r' = round_of a k ∧ (j < n_test a)%nat)
        then net_accuracy w k j n <$> all_test_data pre !! j
        else cell arr r' j) ∧
     (no_save a = false →
      files st' =
      <[J (parameters_name k) := Pth (weights n)]>
        (<[J "acc_test_ref.npy" := Npy2 (acc_test_ref st')]>
           (<[J "acc_test.npy" := Npy3 arr']> (files pre))))) ∧
  (negb (just_ref a) && negb (no_save a) = false → files st' = files pre).
Proof.
  intros H HI Hk Hev. simpl. unfold evaluated. rewrite Hev.
  pose proof (round_in_range k (interval_pos w a H) Hk) as Hr.
  pose proof (pool_length pre H HI) as Hpool.
  set (r := round_of a k) in *. set (pool := all_test_data pre) in *.
  set (st1 := tested_from w a k r 0 pool pre).
  pose proof (tested_from_frame k r pool 0 pre) as Hf1. fold st1 in Hf1.
  simpl in Hf1. destruct Hf1 as (Hn1 & Hr1 & _ & _ & _ & _ & Hfiles1).
  set (st2 := (if negb (just_ref a) && negb (no_save a)
               then saved_round w k else id) st1).
  assert (net st2 = net st1 ∧ acc_test st2 = acc_test st1 ∧
          ref_net st2 = ref_net st1 ∧ acc_test_ref st2 = acc_test_ref st1)
    as (Hn2 & Ha2 & Hr2 & Har2).
  { subst st2. destruct (negb (just_ref a) && negb (no_save a)); [|done].
    by destruct (saved_round_frame k st1) as (-> & -> & -> & -> & _). }
  destruct (reported_frame k r st2) as (Hn3 & Ha3 & Hr3 & Har3 & Hf3).
  rewrite Hr3, Hr2, Hr1, Har3, Har2, Ha3, Ha2, Hn3, Hn2, Hn1, Hf3.
  assert (∀ j, (0 <= j < 0 + length pool)%nat ↔ (j < n_test a)%nat) as Hrange
    by (intros; lia).
  split; [|split; [|split]].
  - intros r' j. subst st1.
    rewrite tested_from_ref_cells; [|by apply HI|done|lia].
    rewrite Nat.sub_0_r.
    destruct (decide (r' = r ∧ (j < n_test a)%nat)) as [Hd|Hd].
    + rewrite decide_True; [done|]. split; [by apply Hd|]. apply Hrange, Hd.
    + rewrite decide_False; [done|]. intros [? ?%Hrange]. by apply Hd.
  - intros Hj. by apply tested_from_acc_test_just_ref.
  - intros Hj. destruct (inv_net w a pre HI Hj) as (n & arr & Hn & Harr & _ & Hsh).
    destruct (tested_from_net_cells k r pool 0 pre n arr H Hj Hn Harr Hsh Hr)
      as (arr' & Harr' & Hcells); [lia|]. fold st1 in Harr'.
    exists n, arr, arr'. split; [done|]. split; [done|]. split; [done|]. split.
    + intros r' j. rewrite Hcells, Nat.sub_0_r.
      destruct (decide (r' = r ∧ (j < n_test a)%nat)) as [Hd|Hd].
      * rewrite decide_True; [done|]. split; [by apply Hd|]. apply Hrange, Hd.
      * rewrite decide_False; [done|]. intros [? ?%Hrange]. by apply Hd.
    + intros Hs. subst st2. rewrite Hj, Hs. simpl.
      unfold saved_round. rewrite Hn1, Hn, Harr'. simpl. by rewrite Hfiles1.
  - intros Hs. subst st2. rewrite Hs. by unfold id.
Qed.

Lemma round_step_Z (r : nat) :
  0 < n_test_interval a →
  Z.of_nat (round_step a r) = Z.of_nat r * n_test_interval a.
Proof. intros Hd. unfold round_step. lia. Qed.

Lemma evaluates_round_step (r : nat) :
  0 < n_test_interval a → evaluates a (round_step a r) = true.
Proof.
  intros Hd. unfold evaluates. apply bool_decide_eq_true_2.
  rewrite round_step_Z by done. apply Z.mod_mul. lia.
Qed.

Lemma round_of_round_step (r : nat) :
  0 < n_test_interval a → round_of a (round_step a r) = r.
Proof.
  intros Hd. unfold round_of. rewrite round_step_Z by done.
  rewrite Z.div_mul by lia. apply Nat2Z.id.
Qed.

Lemma round_step_round_of (k : nat) :
  0 < n_test_interval a → evaluates a k = true → round_step a (round_of a k) = k.
Proof.
  intros Hd Hev%bool_decide_eq_true_1. apply Nat2Z.inj.
  rewrite round_step_Z by done. unfold round_of.
  rewrite Z2Nat.id by (apply Z.div_pos; lia).
  pose proof (Z.div_mod (Z.of_nat k) (n_test_interval a)). lia.
Qed.

Lemma garbage2_cell (r j : nat) :
  (r < n_tests_total a)%nat → (j < n_test a)%nat →
  cell (garbage2 w a) r j = Some (empty2 w r j).
Proof.
  intros Hr Hj. unfold cell, garbage2.
  rewrite list_lookup_fmap, lookup_seq_lt by done. simpl.
  by rewrite list_lookup_fmap, lookup_seq_lt.
Qed.

Lemma garbage3_cell (r j : nat) :
  (r < n_tests_total a)%nat → (j < n_test a)%nat →
  cell (garbage3 w a) r j = Some ((fun s => empty3 w r j s) <$> seq 0 (num_slices w)).
Proof.
  intros Hr Hj. unfold cell, garbage3.
  rewrite list_lookup_fmap, lookup_seq_lt by done. simpl.
  by rewrite list_lookup_fmap, lookup_seq_lt.
Qed.

(** The arrays in memory after [K] steps: the rows of the rounds run so far
    hold what these rounds measured, the other rows what [np.empty] left. *)
Lemma arrays_after (K : nat) :
  Healthy w a → ToTensorWorks w → Z.of_nat K <= n_steps a →
  ∃ st, run_steps w a K = Ok tt st ∧ Inv w a st ∧
    ∀ r j, (r < n_tests_total a)%nat → (j < n_test a)%nat →
      if decide (round_step a r < K)%nat
      then recorded w a r j st else untouched w a r j st.
Proof.
  intros H Ht HK. pose proof (interval_pos w a H) as Hd.
  refine (run_steps_ind
            (fun k st =>
               ∀ r j, (r < n_tests_total a)%nat → (j < n_test a)%nat →
                 if decide (round_step a r < k)%nat
                 then recorded w a r j st else untouched w a r j st)
            H Ht _ _ K HK).
  - intros r j Hr Hj. rewrite decide_False by lia. split; simpl.
    + by apply garbage2_cell.
    + intros Hjr. rewrite Hjr. exists (garbage3 w a). split; [done|].
      by apply garbage3_cell.
  - intros k st b Hk Hrun HI HP Hb Hrun' r j Hr Hj.
    specialize (HP r j Hr Hj). unfold stepped in *.
    pose proof (trained_Inv k b st HI) as HIpre.
    destruct (trained_frame k b st) as (Ha & Har & Hpool & _).
    set (pre := trained w a k b st) in *.
    destruct (evaluates a k) eqn:Hev.
    + destruct (evaluated_arrays k pre H HIpre Hk Hev)
        as (Hcells & Hjust & Hnet & _).
      set (st' := evaluated w a k pre) in *.
      pose proof (round_step_round_of k Hd Hev) as Hrs.
      destruct (decide (r = round_of a k)) as [->|Hne].
      * rewrite Hrs, decide_True by lia.
        destruct (lookup_lt_is_Some_2 (all_test_data pre) j) as [bj Hbj].
        { rewrite (pool_length pre H HIpre). done. }
        exists st', bj. rewrite Hrs. split; [done|]. split.
        { by rewrite <- (inv_pool w a pre HIpre). }
        split.
        { rewrite Hcells, decide_True by done. by rewrite Hbj. }
        intros Hjr. destruct (Hnet Hjr) as (n & arr & arr' & Hn & _ & Harr' & Hc & _).
        exists n, arr'. split; [done|]. split; [done|].
        rewrite Hc, decide_True by done. by rewrite Hbj.
      * assert (round_step a r ≠ k) as Hne'.
        { intros <-. by rewrite round_of_round_step in Hne. }
        assert (cell (acc_test_ref st') r j = cell (acc_test_ref st) r j) as Hsame.
        { rewrite Hcells, decide_False, Har; [done|]. by intros [? _]. }
        assert (just_ref a = false →
                ∃ arr arr', acc_test st = Some arr ∧ acc_test st' = Some arr' ∧
                            cell arr' r j = cell arr r j) as Hsame3.
        { intros Hjr. destruct (Hnet Hjr) as (n & arr & arr' & _ & Harr & Harr' & Hc & _).
          exists arr, arr'. rewrite <- Ha. split; [done|]. split; [done|].
          rewrite Hc, decide_False; [done|]. by intros [? _]. }
        destruct (decide (round_step a r < k)%nat) as [Hlt|Hge].
        { rewrite decide_True by lia.
          destruct HP as (st_r & bj & Hst_r & Hbj & Hcell & Hcell3).
          exists st_r, bj. split; [done|]. split; [done|]. split; [by rewrite Hsame|].
          intros Hjr. destruct (Hcell3 Hjr) as (n & arr0 & Hn & Harr0 & Hc0).
          destruct (Hsame3 Hjr) as (arr & arr' & Harr & Harr' & Hc).
          rewrite Harr in Harr0. injection Harr0 as <-.
          exists n, arr'. split; [done|]. split; [done|]. by rewrite Hc. }
        { rewrite decide_False by lia. destruct HP as [Hcell Hcell3].
          split; [by rewrite Hsame|].
          intros Hjr. destruct (Hcell3 Hjr) as (arr0 & Harr0 & Hc0).
          destruct (Hsame3 Hjr) as (arr & arr' & Harr & Harr' & Hc).
          rewrite Harr in Harr0. injection Harr0 as <-.
          exists arr'. split; [done|]. by rewrite Hc. }
    + assert (round_step a r ≠ k) as Hne'.
      { intros <-. by rewrite evaluates_round_step in Hev. }
      assert (evaluated w a k pre = pre) as ->.
      { unfold evaluated. by rewrite Hev. }
      assert (recorded w a r j st → recorded w a r j pre) as Hrec.
      { intros (st_r & bj & ? & ? & ? & Hc3). exists st_r, bj.
        rewrite Har. repeat split; try done. by rewrite Ha. }
      assert (untouched w a r j st → untouched w a r j pre) as Hunt.
      { intros [? Hc3]. split; [by rewrite Har|]. by rewrite Ha. }
      destruct (decide (round_step a r < k)%nat).
      * rewrite decide_True by lia. by apply Hrec.
      * rewrite decide_False by lia. by apply Hunt.
Qed.

(** ** File names *)

Lemma str_length_app (s t : string) :
  String.length (s +:+ t) = (String.length s + String.length t)%nat.
Proof.
  induction s as [|c s IH]; [done|].
  change (String c s +:+ t) with (String c (s +:+ t)). simpl. by rewrite IH.
Qed.

Lemma str_app_inj_r (t s1 s2 : string) : s1 +:+ t = s2 +:+ t → s1 = s2.
Proof.
  revert s2. induction s1 as [|c1 s1 IH]; intros [|c2 s2] Heq.
  - done.
  - apply (f_equal String.length) in Heq.
    rewrite !str_length_app in Heq. simpl in Heq. lia.
  - apply (f_equal String.length) in Heq.
    rewrite !str_length_app in Heq. simpl in Heq. lia.
  - change (String c1 (s1 +:+ t) = String c2 (s2 +:+ t)) in Heq.
    injection Heq as -> Heq. f_equal. by apply IH.
Qed.

Lemma parameters_name_inj (s1 s2 : nat) :
  parameters_name s1 = parameters_name s2 → s1 = s2.
Proof.
  unfold parameters_name. intros Heq%(inj (String.append _)).
  apply str_app_inj_r in Heq. by apply (inj pretty).
Qed.

Lemma os_path_join_inj (d n1 n2 : string) :
  starts_with_slash n1 = false → starts_with_slash n2 = false →
  os_path_join d n1 = os_path_join d n2 → n1 = n2.
Proof.
  unfold os_path_join. intros -> ->.
  destruct (bool_decide (d = "") || ends_with_slash d).
  - by intros ?%(inj (String.append _)).
  - by intros ?%(inj (String.append _))%(inj (String.append _)).
Qed.

Lemma parameters_name_relative (s : nat) :
  starts_with_slash (parameters_name s) = false.
Proof. reflexivity. Qed.

Lemma parameters_path_inj (s1 s2 : nat) :
  os_path_join (out_dir w) (parameters_name s1) =
  os_path_join (out_dir w) (parameters_name s2) → s1 = s2.
Proof.
  intros Heq%os_path_join_inj; [|apply parameters_name_relative..].
  by apply parameters_name_inj.
Qed.

Lemma parameters_path_fresh (s : nat) (name : string) :
  name ∈ ["acc_test.npy"; "acc_test_ref.npy"; "log_dir.txt"; "args.txt"; "args.pkl"]%string →
  os_path_join (out_dir w) (parameters_name s) ≠ os_path_join (out_dir w) name.
Proof.
  intros Hname Heq. apply os_path_join_inj in Heq.
  - unfold parameters_name in Heq.
    repeat (apply elem_of_cons in Hname as [->|Hname]); try discriminate Heq.
    by apply elem_of_nil in Hname.
  - apply parameters_name_relative.
  - repeat (apply elem_of_cons in Hname as [->|Hname]); try reflexivity.
    by apply elem_of_nil in Hname.
Qed.

Lemma accuracy_paths_differ :
  os_path_join (out_dir w) "acc_test_ref.npy" ≠ os_path_join (out_dir w) "acc_test.npy".
Proof. by intros Heq%os_path_join_inj. Qed.

Ltac path_ne :=
  first
    [ apply parameters_path_fresh; solve [repeat constructor]
    | apply not_eq_sym, parameters_path_fresh; solve [repeat constructor]
    | let Heq := fresh in
      intros Heq; apply os_path_join_inj in Heq; [discriminate Heq|reflexivity..] ].

Lemma metadata_lookup_accuracy :
  metadata w a !! os_path_join (out_dir w) "acc_test.npy" = None ∧
  metadata w a !! os_path_join (out_dir w) "acc_test_ref.npy" = None.
Proof.
  unfold metadata. split; rewrite !lookup_insert_ne by path_ne; apply lookup_empty.
Qed.

Lemma metadata_lookup_parameters (s : nat) :
  metadata w a !! os_path_join (out_dir w) (parameters_name s) = None.
Proof.
  unfold metadata. rewrite !lookup_insert_ne by path_ne. apply lookup_empty.
Qed.

(** The files in [out_dir] after [K] steps. *)
Lemma files_after (K : nat) :
  Healthy w a → ToTensorWorks w → Z.of_nat K <= n_steps a →
  ∃ st, run_steps w a K = Ok tt st ∧ Inv w a st ∧
    (if negb (just_ref a) && negb (no_save a) && bool_decide (0 < K)%nat
     then ∃ arr, acc_test st = Some arr ∧
                 files st !! os_path_join (out_dir w) "acc_test.npy"
                 = Some (Npy3 arr) ∧
                 files st !! os_path_join (out_dir w) "acc_test_ref.npy"
                 = Some (Npy2 (acc_test_ref st))
     else files st !! os_path_join (out_dir w) "acc_test.npy" = None ∧
          files st !! os_path_join (out_dir w) "acc_test_ref.npy" = None) ∧
    (∀ s, if negb (just_ref a) && negb (no_save a)
             && bool_decide (s < K)%nat && evaluates a s
          then ∃ st_s n, run_steps w a (S s) = Ok tt st_s ∧ net st_s = Some n ∧
                         files st !! os_path_join (out_dir w) (parameters_name s)
                         = Some (Pth (weights n))
          else files st !! os_path_join (out_dir w) (parameters_name s) = None) ∧
    (∀ p f, files st !! p = Some f →
            p = os_path_join (out_dir w) "acc_test.npy" ∨
            p = os_path_join (out_dir w) "acc_test_ref.npy" ∨
            (∃ s, p = os_path_join (out_dir w) (parameters_name s)) ∨
            files (initial w a) !! p = Some f).
Proof.
  intros H Ht HK. pose proof (interval_pos w a H) as Hd.
  refine (run_steps_ind
            (fun k st =>
               (if negb (just_ref a) && negb (no_save a) && bool_decide (0 < k)%nat
                then ∃ arr, acc_test st = Some arr ∧
                            files st !! os_path_join (out_dir w) "acc_test.npy"
                            = Some (Npy3 arr) ∧
                            files st !! os_path_join (out_dir w) "acc_test_ref.npy"
                            = Some (Npy2 (acc_test_ref st))
                else files st !! os_path_join (out_dir w) "acc_test.npy" = None ∧
                     files st !! os_path_join (out_dir w) "acc_test_ref.npy" = None) ∧
               (∀ s, if negb (just_ref a) && negb (no_save a)
                        && bool_decide (s < k)%nat && evaluates a s
                     then ∃ st_s n, run_steps w a (S s) = Ok tt st_s ∧
                                    net st_s = Some n ∧
                                    files st !! os_path_join (out_dir w) (parameters_name s)
                                    = Some (Pth (weights n))
                     else files st !! os_path_join (out_dir w) (parameters_name s)
                          = None) ∧
               (∀ p f, files st !! p = Some f →
                       p = os_path_join (out_dir w) "acc_test.npy" ∨
                       p = os_path_join (out_dir w) "acc_test_ref.npy" ∨
                       (∃ s, p = os_path_join (out_dir w) (parameters_name s)) ∨
                       files (initial w a) !! p = Some f))
            H Ht _ _ K HK).
  - destruct metadata_lookup_accuracy as [Hm1 Hm2].
    split; [|split].
    + rewrite (bool_decide_eq_false_2 (0 < 0)%nat) by lia.
      rewrite andb_false_r. unfold initial; cbn [files].
      destruct (no_save a); [by rewrite !lookup_empty|done].
    + intros s. rewrite (bool_decide_eq_false_2 (s < 0)%nat) by lia.
      rewrite andb_false_r. unfold initial; cbn [files andb].
      destruct (no_save a); [by rewrite lookup_empty|].
      apply metadata_lookup_parameters.
    + intros p f Hp. by repeat right.
  - intros k st b Hk Hrun HI (Hacc & Hpar & Hdom) Hb Hrun'. unfold stepped in *.
    pose proof (trained_Inv k b st HI) as HIpre.
    destruct (trained_frame k b st) as (Ha & Har & _ & Hfiles).
    set (pre := trained w a k b st) in *.
    rewrite (bool_decide_eq_true_2 (0 < S k)%nat) by lia. rewrite andb_true_r.
    destruct (evaluates a k) eqn:Hev.
    + destruct (evaluated_arrays k pre H HIpre Hk Hev)
        as (_ & _ & Hnet & Hnosave).
      set (st' := evaluated w a k pre) in *.
      destruct (negb (just_ref a) && negb (no_save a)) eqn:Hmode.
      * apply andb_true_iff in Hmode as [Hj%negb_true_iff Hs%negb_true_iff].
        destruct (Hnet Hj) as (n & arr & arr' & Hn & _ & Harr' & _ & Hf).
        specialize (Hf Hs). rewrite Hfiles in Hf.
        split; [|split].
        -- exists arr'. split; [done|]. rewrite Hf.
           rewrite !lookup_insert_ne by path_ne.
           rewrite lookup_insert_eq.
           rewrite lookup_insert_ne by path_ne.
           by rewrite lookup_insert_eq.
        -- intros s. specialize (Hpar s). simpl in *.
           destruct (decide (s = k)) as [->|Hne].
           ++ rewrite bool_decide_eq_true_2 by lia. rewrite Hev. simpl.
              exists st', n. split; [done|]. split; [done|].
              by rewrite Hf, lookup_insert_eq.
           ++ assert (os_path_join (out_dir w) (parameters_name k) ≠
                      os_path_join (out_dir w) (parameters_name s)) as Hpne.
              { by intros ?%parameters_path_inj. }
              rewrite Hf, lookup_insert_ne by done.
              rewrite !lookup_insert_ne by path_ne.
              destruct (decide (s < k)%nat).
              ** rewrite bool_decide_eq_true_2 by lia.
                 by rewrite bool_decide_eq_true_2 in Hpar by lia.
              ** rewrite bool_decide_eq_false_2 by lia.
                 by rewrite bool_decide_eq_false_2 in Hpar by lia.
        -- intros p f. rewrite Hf.
           destruct (decide (p = os_path_join (out_dir w) (parameters_name k)))
             as [->|Hp1]; [intros _; right; right; left; eauto|].
           rewrite lookup_insert_ne by done.
           destruct (decide (p = os_path_join (out_dir w) "acc_test_ref.npy"))
             as [->|Hp2]; [by intros _; right; left|].
           rewrite lookup_insert_ne by done.
           destruct (decide (p = os_path_join (out_dir w) "acc_test.npy"))
             as [->|Hp3]; [by intros _; left|].
           rewrite lookup_insert_ne by done. apply Hdom.
      * rewrite (Hnosave eq_refl), Hfiles. simpl in *.
        split; [|split; [|done]].
        -- by destruct (bool_decide (0 < k)%nat).
        -- intros s. specialize (Hpar s). done.
    + assert (evaluated w a k pre = pre) as ->.
      { unfold evaluated. by rewrite Hev. }
      rewrite Hfiles, Ha, Har.
      assert (0 < k)%nat as Hk0.
      { destruct k; [|lia]. unfold evaluates in Hev.
        rewrite bool_decide_eq_true_2 in Hev; [done|]. apply Z.mod_0_l. lia. }
      rewrite (bool_decide_eq_true_2 (0 < k)%nat), andb_true_r in Hacc by done.
      split; [done|]. split; [|done].
      intros s. specialize (Hpar s).
      destruct (decide (s = k)) as [->|Hne].
      * rewrite Hev, andb_false_r. by rewrite Hev, andb_false_r in Hpar.
      * destruct (decide (s < k)%nat).
        -- rewrite bool_decide_eq_true_2 by lia.
           by rewrite bool_decide_eq_true_2 in Hpar by lia.
        -- rewrite bool_decide_eq_false_2 by lia.
           by rewrite bool_decide_eq_false_2 in Hpar by lia.
Qed.

(** ** The evaluation rounds in the trace *)

Lemma evaluated_steps_emitted (e : Event) (st : State) :
  evaluated_steps (trace (emitted e st)) =
  evaluated_steps (trace st) ++ option_list (testing_step e).
Proof.
  unfold evaluated_steps. simpl. rewrite omap_app. simpl.
  by destruct (testing_step e).
Qed.

Lemma evaluated_steps_adjusted (step : nat) (st : State) :
  evaluated_steps (trace (adjusted a step st)) = evaluated_steps (trace st).
Proof.
  unfold adjusted. destruct (adjusts step); [|done].
  rewrite evaluated_steps_emitted. simpl. rewrite app_nil_r.
  by destruct (just_ref a).
Qed.

Lemma evaluated_steps_trained (step : nat) (b : Batch) (st : State) :
  evaluated_steps (trace (trained w a step b st)) = evaluated_steps (trace st).
Proof.
  unfold trained. simpl.
  assert (∀ st0, evaluated_steps
                   (trace ((if just_ref a then id else trained_net w step b) st0))
                 = evaluated_steps (trace st0)) as ->.
  { intros st0. destruct (just_ref a); [done|]. unfold trained_net.
    destruct (net st0); [|done]. rewrite evaluated_steps_emitted. simpl.
    by rewrite app_nil_r. }
  simpl. destruct (advanced_frame (adjusted a step st)) as (_&_&_&_&_&_&_& ->).
  apply evaluated_steps_adjusted.
Qed.

Lemma evaluated_steps_tested (step r i : nat) (b : Batch) (st : State) :
  evaluated_steps (trace (tested w a step r i b st)) = evaluated_steps (trace st).
Proof.
  assert (∀ e (st0 : State),
            testing_step e = None →
            evaluated_steps
              (trace ((if bool_decide (i = 0%nat) then emitted e else id) st0))
            = evaluated_steps (trace st0)) as Hquiet.
  { intros e st0 He. case_bool_decide; [|done].
    by rewrite evaluated_steps_emitted, He, app_nil_r. }
  unfold tested, tested_ref. rewrite Hquiet by done. simpl.
  destruct (just_ref a); [done|]. unfold tested_net.
  destruct (net st); [|done]. destruct (acc_test st); [|done].
  rewrite Hquiet by done. simpl.
  change (evaluated_steps (trace (emitted (ToTensor step i) st))
          = evaluated_steps (trace st)).
  by rewrite evaluated_steps_emitted, app_nil_r.
Qed.

Lemma evaluated_steps_tested_from (step r : nat) (pool : list Batch) (i : nat)
    (st : State) :
  evaluated_steps (trace (tested_from w a step r i pool st))
  = evaluated_steps (trace st).
Proof.
  revert i st. induction pool as [|b pool IH]; intros i st; simpl; [done|].
  by rewrite IH, evaluated_steps_tested.
Qed.

Lemma evaluated_steps_saved_round (step : nat) (st : State) :
  evaluated_steps (trace (saved_round w step st)) = evaluated_steps (trace st).
Proof.
  unfold saved_round. destruct (net st), (acc_test st); try done.
  rewrite !evaluated_steps_emitted. simpl. by rewrite !app_nil_r.
Qed.

Lemma evaluated_steps_stepped (step : nat) (b : Batch) (st : State) :
  evaluated_steps (trace (stepped w a step b st)) =
  evaluated_steps (trace st) ++ (if evaluates a step then [step] else []).
Proof.
  unfold stepped, evaluated. rewrite <- (evaluated_steps_trained step b st).
  set (pre := trained w a step b st).
  destruct (evaluates a step); [|by rewrite app_nil_r].
  unfold reported. rewrite !evaluated_steps_emitted.
  cbn [testing_step option_list]. rewrite !app_nil_r. f_equal.
  destruct (negb (just_ref a) && negb (no_save a)); unfold id;
    rewrite ?evaluated_steps_saved_round; apply evaluated_steps_tested_from.
Qed.

Lemma evaluated_steps_initial : evaluated_steps (trace (initial w a)) = [].
Proof.
  unfold initial, evaluated_steps. cbn [trace]. rewrite omap_app.
  cbn [omap testing_step app]. destruct (just_ref a); [done|].
  unfold restore_lines. destruct (restore_path a) as [p|]; [|done].
  destruct (truthy (Some p)); [|done]. by destruct (isfile w p).
Qed.

Lemma evaluated_steps_after (K : nat) :
  Healthy w a → ToTensorWorks w → Z.of_nat K <= n_steps a →
  ∃ st, run_steps w a K = Ok tt st ∧ Inv w a st ∧
    evaluated_steps (trace st) =
    filter (fun s => Z.of_nat s mod n_test_interval a = 0) (seq 0 K).
Proof.
  intros H Ht HK.
  refine (run_steps_ind
            (fun k st =>
               evaluated_steps (trace st) =
               filter (fun s => Z.of_nat s mod n_test_interval a = 0) (seq 0 k))
            H Ht _ _ K HK).
  - apply evaluated_steps_initial.
  - intros k st b _ _ _ HP _ _.
    rewrite evaluated_steps_stepped, HP, seq_S, filter_app. f_equal.
    simpl. rewrite filter_cons, filter_nil. unfold evaluates.
    by case_bool_decide; case_decide.
Qed.

(** C1. After any prefix of [K] steps, the steps whose evaluation round
    was run are those steps [s < K] with [s mod n_test_interval = 0], in
    order and no others; and the round of such a step [s] left, at row
    [s / n_test_interval] of the accuracy arrays, the accuracies of the two
    networks as they were at the end of step [s]. *)
Theorem evaluation_schedule (K : nat) :
  Healthy w a → ToTensorWorks w → Z.of_nat K <= n_steps a →
  ∃ st, run_steps w a K = Ok tt st ∧
    evaluated_steps (trace st) =
    filter (fun s => Z.of_nat s mod n_test_interval a = 0) (seq 0 K) ∧
    ∀ s j, (s < K)%nat → Z.of_nat s mod n_test_interval a = 0 →
           (j < n_test a)%nat →
      ∃ st_s b,
        run_steps w a (S s) = Ok tt st_s ∧
        take (n_test a) (test_loader w) !! j = Some b ∧
        cell (acc_test_ref st) (Z.to_nat (Z.of_nat s / n_test_interval a)) j
        = Some (ref_accuracy w s j (ref_net st_s) b) ∧
        (just_ref a = false →
         ∃ n arr, net st_s = Some n ∧ acc_test st = Some arr ∧
                  cell arr (Z.to_nat (Z.of_nat s / n_test_interval a)) j
                  = Some (net_accuracy w s j n b)).
Proof.
  intros H Ht HK. pose proof (interval_pos w a H) as Hd.
  destruct (evaluated_steps_after K H Ht HK) as (st & Hrun & _ & Htrace).
  destruct (arrays_after K H Ht HK) as (st' & Hrun' & _ & Harr).
  rewrite Hrun in Hrun'. injection Hrun' as <-.
  exists st. split; [done|]. split; [done|].
  intros s j Hs Hmod Hj.
  assert (evaluates a s = true) as Hev by by apply bool_decide_eq_true_2.
  pose proof (round_step_round_of s Hd Hev) as Hrs.
  specialize (Harr (round_of a s) j).
  rewrite Hrs, decide_True in Harr by done.
  unfold recorded in Harr. rewrite Hrs in Harr. apply Harr; [|done].
  apply round_in_range; [done|lia].
Qed.

(** ** The artifacts *)

Lemma ceil_spec (x y : Z) :
  0 <= x → 0 < y →
  x <= Z.of_nat (Z.to_nat (- (- x / y))) * y < x + y.
Proof.
  intros Hx Hy. rewrite Z2Nat.id by by apply ceil_div_nonneg.
  pose proof (Z.div_mod (- x) y). pose proof (Z.mod_pos_bound (- x) y Hy). lia.
Qed.

Lemma metadata_not_array (p : string) (f : File) :
  metadata w a !! p = Some f →
  (∀ arr, f ≠ Npy3 arr) ∧ (∀ arr, f ≠ Npy2 arr) ∧ (∀ sd, f ≠ Pth sd).
Proof.
  unfold metadata. intros Hf.
  repeat (apply lookup_insert_Some in Hf as [[_ <-]|[_ Hf]]; [done|]).
  by rewrite lookup_empty in Hf.
Qed.

(** C3, as the driver has it.  With a trainable network and saving enabled,
    after [K >= 1] steps the files [acc_test.npy] and [acc_test_ref.npy] hold
    the two arrays as they are in memory, of shapes
    [[n_tests_total, n_test, num_slices]] and [[n_tests_total, n_test]] with
    [n_tests_total] and [n_test] the two ceilings; the rows of all the rounds
    run so far hold what these rounds measured; and no other file holds an
    array.  In reference-only mode or with saving disabled neither file
    exists.  This is for arguments of at most 53 bits, on which the
    ceilings that the driver computes in binary64 are the exact ones. *)
Theorem accuracy_artifacts (K : nat) :
  Healthy w a → ToTensorWorks w → ceilings_exact a →
  (0 < K)%nat → Z.of_nat K <= n_steps a →
  float_ceil_div (n_steps a) (n_test_interval a)
  = Some (Z.of_nat (n_tests_total a)) ∧
  float_ceil_div (n_test_samples a) (batch_size_test a)
  = Some (Z.of_nat (n_test a)) ∧
  n_steps a <= Z.of_nat (n_tests_total a) * n_test_interval a
            < n_steps a + n_test_interval a ∧
  n_test_samples a <= Z.of_nat (n_test a) * batch_size_test a
                   < n_test_samples a + batch_size_test a ∧
  ∃ st, run_steps w a K = Ok tt st ∧
    if negb (just_ref a) && negb (no_save a)
    then
      ∃ arr, acc_test st = Some arr ∧
        files st !! os_path_join (out_dir w) "acc_test.npy" = Some (Npy3 arr) ∧
        files st !! os_path_join (out_dir w) "acc_test_ref.npy"
        = Some (Npy2 (acc_test_ref st)) ∧
        shape3 w a arr ∧ shape2 a (acc_test_ref st) ∧
        (∀ r j, (r < n_tests_total a)%nat → (j < n_test a)%nat →
                (round_step a r < K)%nat → recorded w a r j st) ∧
        (∀ p arr', files st !! p = Some (Npy3 arr') →
                   p = os_path_join (out_dir w) "acc_test.npy") ∧
        (∀ p arr', files st !! p = Some (Npy2 arr') →
                   p = os_path_join (out_dir w) "acc_test_ref.npy")
    else
      files st !! os_path_join (out_dir w) "acc_test.npy" = None ∧
      files st !! os_path_join (out_dir w) "acc_test_ref.npy" = None.
Proof.
  intros H Ht Hce HK0 HK.
  split; [apply (float_ceilings H Hce)|]. split; [apply (float_ceilings H Hce)|].
  split; [apply ceil_spec; [apply (steps_nonneg w a H)|apply (interval_pos w a H)]|].
  split; [apply ceil_spec;
          [apply (test_samples_nonneg w a H)|apply (batch_size_test_pos w a H)]|].
  destruct (files_after K H Ht HK) as (st & Hrun & HI & Hacc & Hpar & Hdom).
  destruct (arrays_after K H Ht HK) as (st' & Hrun' & _ & Harr).
  rewrite Hrun in Hrun'. injection Hrun' as <-.
  exists st. split; [done|].
  rewrite (bool_decide_eq_true_2 (0 < K)%nat), andb_true_r in Hacc by done.
  destruct (negb (just_ref a) && negb (no_save a)) eqn:Hmode; [|done].
  destruct Hacc as (arr & Ha & Hf3 & Hf2).
  apply andb_true_iff in Hmode as [Hj%negb_true_iff Hs%negb_true_iff].
  destruct (inv_net w a st HI Hj) as (n & arr0 & _ & Ha0 & _ & Hsh3).
  rewrite Ha in Ha0. injection Ha0 as <-.
  exists arr. split; [done|]. split; [done|]. split; [done|]. split; [done|].
  split; [apply HI|].
  assert (∀ p f, files st !! p = Some f →
            (∀ sd, f ≠ Pth sd) →
            p = os_path_join (out_dir w) "acc_test.npy" ∨
            p = os_path_join (out_dir w) "acc_test_ref.npy" ∨
            metadata w a !! p = Some f) as Hkinds.
  { intros p f Hp Hf. destruct (Hdom p f Hp) as [?|[?|[[s ->]|Hini]]]; eauto.
    - specialize (Hpar s). rewrite Hp in Hpar.
      destruct (_ && _); [|done]. destruct Hpar as (? & n' & _ & _ & [= ->]).
      by destruct (Hf (weights n')).
    - unfold initial in Hini; cbn [files] in Hini. rewrite Hs in Hini. eauto. }
  split; [|split].
  - intros r j Hr Hjn Hlt. specialize (Harr r j Hr Hjn).
    by rewrite decide_True in Harr.
  - intros p arr' Hp. destruct (Hkinds p _ Hp) as [?|[->|Hm]]; [done|done| |].
    + rewrite Hf2 in Hp. done.
    + destruct (metadata_not_array _ _ Hm) as (Hn3 & _ & _). by destruct (Hn3 arr').
  - intros p arr' Hp. destruct (Hkinds p _ Hp) as [->|[?|Hm]]; [done| |done|].
    + rewrite Hf3 in Hp. done.
    + destruct (metadata_not_array _ _ Hm) as (_ & Hn2 & _). by destruct (Hn2 arr').
Qed.

Lemma just_ref_acc_test (K : nat) :
  Healthy w a → ToTensorWorks w → just_ref a = true → Z.of_nat K <= n_steps a →
  ∃ st, run_steps w a K = Ok tt st ∧ Inv w a st ∧
        acc_test st = None ∧ files st = files (initial w a).
Proof.
  intros H Ht Hj HK.
  refine (run_steps_ind
            (fun k st => acc_test st = None ∧ files st = files (initial w a))
            H Ht _ _ K HK).
  - simpl. by rewrite Hj.
  - intros k st b Hk _ HI [Ha Hf] _ _. unfold stepped.
    destruct (trained_frame k b st) as (Ha' & _ & _ & Hf').
    unfold evaluated. destruct (evaluates a k) eqn:Hev; [|split; congruence].
    destruct (evaluated_arrays k _ H (trained_Inv k b st HI) Hk Hev)
      as (_ & Hjust & _ & Hnosave).
    unfold evaluated in Hjust, Hnosave. rewrite Hev in Hjust, Hnosave.
    rewrite (Hjust Hj), Hnosave by (by rewrite Hj). split; congruence.
Qed.

(** C10, as the driver has it.  When the loop starts, [acc_test_ref] is
    the array of full shape that [np.empty] returned, and so is [acc_test]
    when there is a trainable network; in reference-only mode [acc_test] is
    never allocated.  Once the rounds [0..r] have been run and no later one,
    i.e. after [K] steps with [round_step r < K <= round_step (r + 1)], the
    arrays in memory still have their full shapes, their rows [0..r] hold
    what these rounds measured and the later rows what [np.empty] returned.
    With a trainable network and saving enabled the two files hold these
    whole arrays; in reference-only mode or with saving disabled neither
    file exists.  This is for arguments of at most 53 bits, on which the
    ceilings that the driver computes in binary64 are the exact ones. *)
Theorem artifacts_after_round (r K : nat) :
  Healthy w a → ToTensorWorks w → ceilings_exact a →
  (round_step a r < K <= round_step a (S r))%nat → Z.of_nat K <= n_steps a →
  float_ceil_div (n_steps a) (n_test_interval a)
  = Some (Z.of_nat (n_tests_total a)) ∧
  float_ceil_div (n_test_samples a) (batch_size_test a)
  = Some (Z.of_nat (n_test a)) ∧
  (∃ st0, run_steps w a 0 = Ok tt st0 ∧
          acc_test_ref st0 = garbage2 w a ∧ shape2 a (garbage2 w a) ∧
          acc_test st0 = (if just_ref a then None else Some (garbage3 w a)) ∧
          shape3 w a (garbage3 w a)) ∧
  ∃ st,
    run_steps w a K = Ok tt st ∧
    shape2 a (acc_test_ref st) ∧
    (if just_ref a then acc_test st = None
     else ∃ arr, acc_test st = Some arr ∧ shape3 w a arr) ∧
    (if negb (just_ref a) && negb (no_save a)
     then ∃ arr, acc_test st = Some arr ∧
                 files st !! os_path_join (out_dir w) "acc_test.npy"
                 = Some (Npy3 arr) ∧
                 files st !! os_path_join (out_dir w) "acc_test_ref.npy"
                 = Some (Npy2 (acc_test_ref st))
     else files st !! os_path_join (out_dir w) "acc_test.npy" = None ∧
          files st !! os_path_join (out_dir w) "acc_test_ref.npy" = None) ∧
    ∀ r' j, (r' < n_tests_total a)%nat → (j < n_test a)%nat →
            if decide (r' <= r)%nat
            then recorded w a r' j st else untouched w a r' j st.
Proof.
  intros H Ht Hce [HrK HKr] HK. pose proof (interval_pos w a H) as Hd.
  split; [apply (float_ceilings H Hce)|]. split; [apply (float_ceilings H Hce)|].
  split.
  { exists (initial w a). split; [by apply run_steps_0|].
    split; [done|]. split; [apply garbage2_shape|].
    split; [done|apply garbage3_shape]. }
  destruct (files_after K H Ht HK) as (st & Hrun & HI & Hacc & _).
  destruct (arrays_after K H Ht HK) as (st' & Hrun' & _ & Harr).
  rewrite Hrun in Hrun'. injection Hrun' as <-.
  rewrite (bool_decide_eq_true_2 (0 < K)%nat), andb_true_r in Hacc by lia.
  exists st. split; [done|]. split; [apply HI|]. split; [|split; [done|]].
  - destruct (just_ref a) eqn:Hj.
    + destruct (just_ref_acc_test K H Ht Hj HK) as (st' & Hrun' & _ & Hnone & _).
      rewrite Hrun in Hrun'. by injection Hrun' as <-.
    + destruct (inv_net w a st HI Hj) as (n & arr & _ & Ha & _ & Hsh3). eauto.
  - intros r' j Hr' Hjn. specialize (Harr r' j Hr' Hjn).
    unfold round_step in *.
    destruct (decide (r' <= r)%nat).
    + rewrite decide_True in Harr; [done|]. nia.
    + rewrite decide_False in Harr; [done|]. nia.
Qed.

(** C8, as the driver has it.  With a trainable network and saving enabled,
    after [K] steps there is one checkpoint for each evaluation round run so
    far, in the file named after the step [s] of the round,
    [parameters_<s>.pth]; it holds the parameters of the trainable network
    as they were at the end of that step; distinct rounds have distinct
    files, and there is no other checkpoint. *)
Theorem checkpoint_per_round (K : nat) :
  Healthy w a → ToTensorWorks w →
  just_ref a = false → no_save a = false → Z.of_nat K <= n_steps a →
  ∃ st, run_steps w a K = Ok tt st ∧
    (∀ s, (s < K)%nat → Z.of_nat s mod n_test_interval a = 0 →
          ∃ st_s n, run_steps w a (S s) = Ok tt st_s ∧ net st_s = Some n ∧
                    files st !! os_path_join (out_dir w) (parameters_name s)
                    = Some (Pth (weights n))) ∧
    (∀ s s', os_path_join (out_dir w) (parameters_name s)
             = os_path_join (out_dir w) (parameters_name s') → s = s') ∧
    (∀ p sd, files st !! p = Some (Pth sd) →
             ∃ s, p = os_path_join (out_dir w) (parameters_name s) ∧
                  (s < K)%nat ∧ Z.of_nat s mod n_test_interval a = 0).
Proof.
  intros H Ht Hj Hs HK.
  destruct (files_after K H Ht HK) as (st & Hrun & HI & Hacc & Hpar & Hdom).
  exists st. split; [done|]. split; [|split].
  - intros s HsK Hmod. specialize (Hpar s).
    rewrite Hj, Hs, (bool_decide_eq_true_2 (s < K)%nat) in Hpar by done.
    unfold evaluates in Hpar. by rewrite bool_decide_eq_true_2 in Hpar.
  - apply parameters_path_inj.
  - intros p sd Hp. destruct (Hdom p _ Hp) as [->|[->|[[s ->]|Hini]]].
    + rewrite Hj, Hs in Hacc. simpl in Hacc. destruct (bool_decide (0 < K)%nat).
      * destruct Hacc as (? & _ & Hf & _). by rewrite Hf in Hp.
      * destruct Hacc as [Hf _]. by rewrite Hf in Hp.
    + rewrite Hj, Hs in Hacc. simpl in Hacc. destruct (bool_decide (0 < K)%nat).
      * destruct Hacc as (? & _ & _ & Hf). by rewrite Hf in Hp.
      * destruct Hacc as [_ Hf]. by rewrite Hf in Hp.
    + exists s. split; [done|]. specialize (Hpar s). rewrite Hj, Hs in Hpar.
      simpl in Hpar. unfold evaluates in Hpar.
      case_bool_decide; [|by rewrite Hp in Hpar].
      case_bool_decide; [done|by rewrite Hp in Hpar].
    + unfold initial in Hini; cbn [files] in Hini. rewrite Hs in Hini.
      destruct (metadata_not_array _ _ Hini) as (_ & _ & Hn). by destruct (Hn sd).
Qed.

(** C9, as the driver has it.  In reference-only mode, after [K] steps the
    accuracy of the reference network on every test batch of every round run
    so far is in the array [acc_test_ref] in memory; there is no array
    [acc_test]; and the output directory holds no accuracy file and no
    checkpoint, only what was written before the loop. *)
Theorem reference_only_rounds (K : nat) :
  Healthy w a → ToTensorWorks w → just_ref a = true → Z.of_nat K <= n_steps a →
  ∃ st, run_steps w a K = Ok tt st ∧
    acc_test st = None ∧
    evaluated_steps (trace st) =
    filter (fun s => Z.of_nat s mod n_test_interval a = 0) (seq 0 K) ∧
    (∀ s j, (s < K)%nat → Z.of_nat s mod n_test_interval a = 0 →
            (j < n_test a)%nat →
       ∃ st_s b,
         run_steps w a (S s) = Ok tt st_s ∧
         take (n_test a) (test_loader w) !! j = Some b ∧
         cell (acc_test_ref st) (round_of a s) j
         = Some (ref_accuracy w s j (ref_net st_s) b)) ∧
    files st = files (initial w a) ∧
    files st !! os_path_join (out_dir w) "acc_test.npy" = None ∧
    files st !! os_path_join (out_dir w) "acc_test_ref.npy" = None.
Proof.
  intros H Ht Hj HK. pose proof (interval_pos w a H) as Hd.
  destruct (just_ref_acc_test K H Ht Hj HK) as (st & Hrun & _ & Hnone & Hfiles).
  destruct (evaluated_steps_after K H Ht HK) as (st1 & Hrun1 & _ & Htrace).
  destruct (arrays_after K H Ht HK) as (st2 & Hrun2 & _ & Harr).
  destruct (files_after K H Ht HK) as (st3 & Hrun3 & _ & Hacc & Hpar & Hdom).
  rewrite Hrun in Hrun1, Hrun2, Hrun3.
  injection Hrun1 as <-. injection Hrun2 as <-. injection Hrun3 as <-.
  rewrite Hj in Hacc, Hpar. simpl in Hacc, Hpar.
  exists st. repeat (split; [done|]). split; [|done].
  intros s j Hs Hmod Hjn.
  assert (evaluates a s = true) as Hev by by apply bool_decide_eq_true_2.
  pose proof (round_step_round_of s Hd Hev) as Hrs.
  specialize (Harr (round_of a s) j).
  rewrite Hrs, decide_True in Harr by done.
  destruct Harr as (st_s & b & Hst_s & Hb & Hcell & _); [|done|].
  { apply round_in_range; [done|lia]. }
  rewrite Hrs in *. eauto.
Qed.

(** ** A test spike train that does not reach the device *)

Lemma for_enumerate_app {A} (l1 l2 : list A) (i : nat) (f : nat → A → M unit)
    (st : State) :
  for_enumerate i (l1 ++ l2) f st =
  (for_enumerate i l1 f >> for_enumerate (i + length l1) l2 f) st.
Proof.
  revert i st. induction l1 as [|x l1 IH]; intros i st; simpl.
  - rewrite bind_ret. by rewrite Nat.add_0_r.
  - unfold bind in *. destruct (f i x st) as [[] st'|e st']; [|reflexivity].
    rewrite IH. by replace (S i + length l1)%nat with (i + S (length l1))%nat by lia.
Qed.

Lemma tensor_attempts_emitted (e : Event) (st : State) :
  tensor_attempts (trace (emitted e st)) =
  tensor_attempts (trace st) ++ option_list (tensor_attempt e).
Proof.
  unfold tensor_attempts. simpl. rewrite omap_app. simpl.
  by destruct (tensor_attempt e).
Qed.

Lemma tensor_attempts_tested (step r i : nat) (b : Batch) (st : State) :
  tensor_attempts (trace (tested w a step r i b st)) =
  tensor_attempts (trace st) ++
  (if just_ref a then []
   else match net st, acc_test st with
        | Some _, Some _ => [(step, i)]
        | _, _ => []
        end).
Proof.
  assert (∀ e (st0 : State),
            tensor_attempt e = None →
            tensor_attempts
              (trace ((if bool_decide (i = 0%nat) then emitted e else id) st0))
            = tensor_attempts (trace st0)) as Hquiet.
  { intros e st0 He. case_bool_decide; [|done].
    by rewrite tensor_attempts_emitted, He, app_nil_r. }
  unfold tested, tested_ref. rewrite Hquiet by done. cbn [trace set_acc_test_ref].
  destruct (just_ref a); [by rewrite app_nil_r|]. unfold tested_net.
  destruct (net st); [|by rewrite app_nil_r].
  destruct (acc_test st); [|by rewrite app_nil_r].
  rewrite Hquiet by done. cbn [trace set_acc_test].
  change (tensor_attempts (trace (emitted (ToTensor step i) st))
          = tensor_attempts (trace st) ++ [(step, i)]).
  by rewrite tensor_attempts_emitted.
Qed.

Lemma tensor_attempts_tested_from (step r : nat) (pool : list Batch) (i : nat)
    (st : State) :
  ∃ L, tensor_attempts (trace (tested_from w a step r i pool st))
       = tensor_attempts (trace st) ++ L ∧
       Forall (fun p => p.1 = step) L ∧
       (just_ref a = false → is_Some (net st) → is_Some (acc_test st) →
        L = (fun j => (step, j)) <$> seq i (length pool)).
Proof.
  revert i st. induction pool as [|b pool IH]; intros i st; simpl.
  - exists []. by rewrite app_nil_r.
  - destruct (IH (S i) (tested w a step r i b st)) as (L & -> & HL & Hexact).
    rewrite tensor_attempts_tested, <- app_assoc. eexists. split; [done|]. split.
    + apply Forall_app. split; [|done].
      destruct (just_ref a); [done|]. destruct (net st), (acc_test st); by repeat constructor.
    + intros Hj [n Hn] [arr Harr]. rewrite Hj, Hn, Harr. simpl. f_equal.
      apply Hexact; [done| |].
      * destruct (tested_frame step r i b st) as (-> & _). by rewrite Hn.
      * erewrite tested_acc_test by done. done.
Qed.

Lemma tensor_attempts_trained (step : nat) (b : Batch) (st : State) :
  tensor_attempts (trace (trained w a step b st)) = tensor_attempts (trace st).
Proof.
  unfold trained. cbn [trace trained_ref set_ref_net].
  assert (∀ st0, tensor_attempts
                   (trace ((if just_ref a then id else trained_net w step b) st0))
                 = tensor_attempts (trace st0)) as ->.
  { intros st0. destruct (just_ref a); [done|]. unfold trained_net.
    destruct (net st0); [|done]. rewrite tensor_attempts_emitted. simpl.
    by rewrite app_nil_r. }
  unfold counted. cbn [trace set_label_train_counts].
  destruct (advanced_frame (adjusted a step st)) as (_&_&_&_&_&_&_& ->).
  unfold adjusted. destruct (adjusts step); [|done].
  rewrite tensor_attempts_emitted. simpl. rewrite app_nil_r.
  by destruct (just_ref a).
Qed.

Lemma tensor_attempts_stepped (step : nat) (b : Batch) (st : State) :
  ∃ L, tensor_attempts (trace (stepped w a step b st))
       = tensor_attempts (trace st) ++ L ∧
       Forall (fun p => p.1 = step) L.
Proof.
  unfold stepped, evaluated. rewrite <- (tensor_attempts_trained step b st).
  set (pre := trained w a step b st).
  destruct (evaluates a step); [|exists []; by rewrite app_nil_r].
  destruct (tensor_attempts_tested_from step (round_of a step) (all_test_data pre)
              0 pre) as (L & HL & HF & _).
  exists L. split; [|done]. rewrite <- HL.
  unfold reported. rewrite !tensor_attempts_emitted.
  cbn [tensor_attempt option_list]. rewrite !app_nil_r.
  destruct (negb (just_ref a) && negb (no_save a)); unfold id; [|done].
  set (st1 := tested_from _ _ _ _ _ _ _).
  unfold saved_round. destruct (net st1), (acc_test st1); try done.
  rewrite !tensor_attempts_emitted. cbn [tensor_attempt option_list].
  by rewrite !app_nil_r.
Qed.

Lemma tensor_attempts_initial : tensor_attempts (trace (initial w a)) = [].
Proof.
  unfold initial, tensor_attempts. cbn [trace]. rewrite omap_app.
  cbn [omap tensor_attempt app]. destruct (just_ref a); [done|].
  unfold restore_lines. destruct (restore_path a) as [p|]; [|done].
  destruct (truthy (Some p)); [|done]. by destruct (isfile w p).
Qed.

(** C7. When putting the spike train of test batch [i] on the device raises
    a [RuntimeError] in the round of step [s], nothing having failed before:
    the step, and with it the whole script, ends with that same exception;
    the last thing the driver did was to print the line that holds the
    message of the exception followed by the advice to decrease
    [batch_size_test] with [--batch_size_test]; each of the test batches [0..i] of the
    round was put on the device exactly once, so the failing one was not
    tried again; and the round wrote no file. *)
Theorem tensor_error_propagates (s i : nat) (msg : string) :
  Healthy w a → just_ref a = false →
  Z.of_nat s < n_steps a → Z.of_nat s mod n_test_interval a = 0 →
  (i < n_test a)%nat →
  (∀ step j, (step < s)%nat → tensor_error w step j = None) →
  (∀ j, (j < i)%nat → tensor_error w s j = None) →
  tensor_error w s i = Some msg →
  ∃ st_s st,
    run_steps w a s = Ok tt st_s ∧
    run_steps w a (S s) = Raise (RuntimeError msg) st ∧
    run w a = Raise (RuntimeError msg) st ∧
    (∃ tr, trace st =
           tr ++ [ToTensor s i;
                  Print ("- Exception: " +:+ msg +:+
                         ". Try to decrease your batch_size_test with the --batch_size_test argument.")]) ∧
    tensor_attempts (trace st) =
    tensor_attempts (trace st_s) ++ ((fun j => (s, j)) <$> seq 0 (S i)) ∧
    Forall (fun p => (p.1 < s)%nat) (tensor_attempts (trace st_s)) ∧
    files st = files st_s.
Proof.
  intros H Hj Hs Hmod Hi Hbefore Hround Hmsg.
  pose proof (interval_pos w a H) as Hd.
  destruct (run_steps_ind_until s
              (fun k st => Forall (fun p => (p.1 < k)%nat)
                             (tensor_attempts (trace st))) H Hbefore)
    with (k := s) as (st_s & Hrun & HI & Hold); [| |done|lia|].
  { by rewrite tensor_attempts_initial. }
  { intros k st b _ _ _ HP _ _.
    destruct (tensor_attempts_stepped k b st) as (L & -> & HL).
    apply Forall_app. split.
    - eapply Forall_impl; [done|]. simpl. lia.
    - eapply Forall_impl; [done|]. simpl. lia. }
  destruct (next_train_batch_total (adjusted a s st_s) (train_nonempty w a H))
    as [b Hb].
  destruct (body_train s b st_s H HI Hb) as [Hbody HIpre].
  set (pre := trained w a s b st_s) in *.
  set (r := round_of a s).
  assert (r < n_tests_total a)%nat as Hr by by apply round_in_range.
  pose proof (pool_length pre H HIpre) as Hpool.
  destruct (lookup_lt_is_Some_2 (all_test_data pre) i) as [bi Hbi]; [lia|].
  set (st_i := tested_from w a s r 0 (take i (all_test_data pre)) pre).
  assert (length (take i (all_test_data pre)) = i) as Hlen.
  { rewrite length_take. lia. }
  destruct (tested_from_ok s r (take i (all_test_data pre)) 0 pre H HIpre)
    as [Hprefix HIi]; [|done|lia|].
  { intros _ j Hjr. apply Hround. lia. }
  fold st_i in Hprefix, HIi.
  set (st := emitted (Print (advice msg)) (emitted (ToTensor s i) st_i)).
  assert (test_batch w a s (Z.of_nat r) i bi st_i = Raise (RuntimeError msg) st)
    as Hfail.
  { unfold test_batch. rewrite Hj. unfold when. simpl negb. cbv iota.
    unfold print, emit. unfold bind, modify, raise. rewrite Hmsg. done. }
  assert (body w a s st_s = Raise (RuntimeError msg) st) as Hraise.
  { rewrite Hbody. unfold py_mod. rewrite bool_decide_eq_false_2 by lia.
    simpl unwrap. rewrite bind_ret. rewrite bool_decide_eq_true_2 by done.
    unfold when, evaluate, py_floordiv. rewrite bool_decide_eq_false_2 by lia.
    simpl unwrap. rewrite bind_ret. rewrite (round_of_Z s Hd). fold r.
    mstep (eq_refl : gets all_test_data pre = Ok (all_test_data pre) pre).
    apply bind_Raise.
    rewrite <- (take_drop_middle _ _ _ Hbi), for_enumerate_app.
    mstep Hprefix. rewrite Hlen. simpl. by apply bind_Raise. }
  assert (run_steps w a (S s) = Raise (RuntimeError msg) st) as Hrun'.
  { by rewrite (run_steps_S s st_s Hrun). }
  exists st_s, st. split; [done|]. split; [done|].
  split; [apply (run_steps_raise (S s) (S s) _ _ Hrun'); lia|].
  destruct (inv_net w a pre HIpre Hj) as (n & arr & Hn & Harr & _).
  destruct (tensor_attempts_tested_from s r (take i (all_test_data pre)) 0 pre)
    as (L & HL & _ & Hexact).
  rewrite Hexact in HL by (by rewrite ?Hn, ?Harr). rewrite Hlen in HL. fold st_i in HL.
  split; [|split; [|split]].
  - exists (trace st_i). subst st. simpl. by rewrite <- app_assoc.
  - subst st. rewrite !tensor_attempts_emitted.
    cbn [tensor_attempt option_list]. rewrite app_nil_r.
    pose proof (tensor_attempts_trained s b st_s) as Htr. fold pre in Htr.
    rewrite HL, Htr, <- app_assoc. f_equal.
    by rewrite seq_S, fmap_app.
  - done.
  - subst st. simpl.
    destruct (tested_from_frame s r (take i (all_test_data pre)) 0 pre)
      as (_ & _ & _ & _ & _ & _ & Hf).
    fold st_i in Hf. rewrite Hf.
    destruct (trained_frame s b st_s) as (_ & _ & _ & Hf'). by fold pre in Hf'.
Qed.

(** ** The restore path *)

Lemma printed_app (line : string) (tr1 tr2 : list (@Event Acc)) :
  printed line (tr1 ++ tr2) = printed line tr1 || printed line tr2.
Proof. apply existsb_app. Qed.

(** Deciding whether two lines are equal, when they are the same term or
    start with different characters. *)
Ltac decide_lines :=
  repeat match goal with
         | |- context [bool_decide (?x = ?y)] =>
           first
             [ rewrite (bool_decide_eq_true_2 (x = y) eq_refl)
             | rewrite (bool_decide_eq_false_2 (x = y))
                 by (let Heq := fresh in intros Heq; discriminate Heq) ]
         end.

(** C6, as the driver has it.  The restore path is looked at only when
    there is a trainable network and the path is not the empty string.
    Then, when the path names no file, the driver prints the two lines of
    the error, loads nothing, and enters the loop with the network as
    constructed; when it names a file, the driver loads it and prints that
    it did, and no error.  In reference-only mode, and with an empty path,
    none of these lines is printed and nothing is loaded.  In every case the
    first step ends without an exception. *)
Theorem restore_missing_file (p : string) :
  Healthy w a → ToTensorWorks w → restore_path a = Some p → 1 <= n_steps a →
  ∃ st0 st1,
    run_steps w a 0 = Ok tt st0 ∧ run_steps w a 1 = Ok tt st1 ∧
    if just_ref a then
      net st0 = None ∧
      printed ("ERROR: Cannot load file `" +:+ p +:+ "`.") (trace st0) = false ∧
      printed "File does not exist! Exit loading..." (trace st0) = false ∧
      printed ("Loaded the weights of trained SNN model from `" +:+ p +:+ "`.")
        (trace st0) = false
    else if bool_decide (p = ""%string) then
      net st0 = Some (fresh_net w) ∧
      printed ("ERROR: Cannot load file `" +:+ p +:+ "`.") (trace st0) = false ∧
      printed "File does not exist! Exit loading..." (trace st0) = false ∧
      printed ("Loaded the weights of trained SNN model from `" +:+ p +:+ "`.")
        (trace st0) = false
    else if isfile w p then
      ∃ state_dict,
        torch_load w p = inr state_dict ∧
        net st0 = Some {| weights := state_dict;
                          dcll_slices := dcll_slices (fresh_net w) |} ∧
        printed ("Loaded the weights of trained SNN model from `" +:+ p +:+ "`.")
          (trace st0) = true ∧
        printed ("ERROR: Cannot load file `" +:+ p +:+ "`.") (trace st0) = false
    else
      net st0 = Some (fresh_net w) ∧
      printed ("ERROR: Cannot load file `" +:+ p +:+ "`.") (trace st0) = true ∧
      printed "File does not exist! Exit loading..." (trace st0) = true ∧
      printed ("Loaded the weights of trained SNN model from `" +:+ p +:+ "`.")
        (trace st0) = false.
Proof.
  intros H Ht Hp Hn.
  destruct (run_steps_total 1 H Ht) as (st1 & Hrun1 & _); [lia|].
  exists (initial w a), st1. split; [by apply run_steps_0|]. split; [done|].
  assert (just_ref a = true ∨ just_ref a = false) as [Hj|Hj]
    by (destruct (just_ref a); auto).
  { rewrite Hj. unfold initial. cbn [net trace]. rewrite Hj, app_nil_r.
    unfold hashes. split; [done|].
    cbn [printed existsb orb]. by decide_lines. }
  rewrite Hj. unfold initial. cbn [net trace]. rewrite Hj.
  unfold restored_net, restorable, restore_lines, truthy. rewrite Hp.
  rewrite !printed_app. unfold hashes, dashes.
  case_bool_decide as Hne; cbn [negb andb].
  - split; [done|]. cbn [printed existsb app orb]. by decide_lines.
  - destruct (isfile w p) eqn:Hf; cbn [andb].
    + destruct (restore_loadable w a H p Hj Hp Hne Hf) as [sd Hsd].
      exists sd. rewrite Hsd. split; [done|]. split; [done|].
      cbn [printed existsb app orb]. by decide_lines.
    + split; [done|]. cbn [printed existsb app orb]. by decide_lines.
Qed.

End Properties.

(** * The driver on the small worlds *)

Ltac demo_healthy :=
  constructor;
  [ done | done | done | done
  | vm_compute; lia
  | intros p ? Hp; try discriminate Hp;
    injection Hp as <-; intros _ Hf; discriminate Hf
  | intros k; discriminate
  | intros k b Hb; simpl in Hb;
    repeat (apply elem_of_cons in Hb as [->|Hb]);
    [ repeat constructor; by vm_compute .. | by apply elem_of_nil in Hb ]
  | intros _; split; [reflexivity|]; split;
    [ repeat constructor; discriminate
    | eexists _, _; split; [reflexivity|]; split; [reflexivity|discriminate] ]
  | discriminate
  | reflexivity ].

Lemma demo_healthy_args : Healthy Demo.world Demo.args.
Proof. demo_healthy. Qed.


Lemma demo_healthy_just_ref : Healthy Demo.world Demo.args_just_ref.
Proof. demo_healthy. Qed.

Lemma demo_healthy_restore : Healthy Demo.world Demo.args_restore.
Proof. demo_healthy. Qed.

Lemma demo_healthy_small_device : Healthy Demo.small_device Demo.args.
Proof. demo_healthy. Qed.


Lemma demo_healthy_reshuffled : Healthy Demo.reshuffled Demo.args.
Proof.
  constructor;
    [ done | done | done | done
    | vm_compute; lia
    | intros p ? Hp; discriminate Hp
    | intros [|k]; discriminate
    |
    | intros _; split; [reflexivity|]; split;
      [ repeat constructor; discriminate
      | eexists _, _; split; [reflexivity|]; split; [reflexivity|discriminate] ]
    | discriminate
    | reflexivity ].
  intros [|k] b Hb; simpl in Hb;
    repeat (apply elem_of_cons in Hb as [->|Hb]);
    try (by apply elem_of_nil in Hb); repeat constructor; by vm_compute.
Qed.

Lemma demo_ceilings_exact : ceilings_exact Demo.args.
Proof. repeat split; by vm_compute. Qed.

(** Beyond 53 bits the ceiling in binary64 is not the exact one:
    [2 ^ 53 + 1] steps with an interval of [2 ^ 53] are two rounds, and
    lines 190-191 compute one row. *)
Lemma float_ceil_div_beyond :
  float_ceil_div (2 ^ 53 + 1) (2 ^ 53) = Some 1 ∧
  ceil_div (2 ^ 53 + 1) (2 ^ 53) = Some 2.
Proof. split; vm_compute; reflexivity. Qed.

Lemma demo_to_tensor : ToTensorWorks Demo.world.
Proof. by intros step i. Qed.

Lemma demo_batch_size (k : nat) (b : Batch) :
  b ∈ train_data Demo.world k →
  Z.of_nat (length (labels b)) = batch_size Demo.args.
Proof.
  intros Hb. simpl in Hb.
  repeat (apply elem_of_cons in Hb as [->|Hb]); try reflexivity.
  by apply elem_of_nil in Hb.
Qed.

(** Five steps with an interval of two: the rounds of steps 0, 2 and 4. *)
Lemma evaluation_schedule_witness :
  ∃ st, run_steps Demo.world Demo.args 5 = Ok tt st ∧
        evaluated_steps (trace st) = [0; 2; 4]%nat.
Proof.
  destruct (evaluation_schedule Demo.world Demo.args 5
              demo_healthy_args demo_to_tensor ltac:(simpl; lia))
    as (st & Hrun & Htrace & _).
  exists st. split; [exact Hrun|]. rewrite Htrace. reflexivity.
Defined.



(** The training set has two batches: step 2 starts with an exhausted
    iterator.  With the loader that shuffles it gets the first batch of the
    second iteration, and with the loader that can be iterated only once the
    run ends there. *)
Lemma train_iteration_restarts_witness :
  (∃ st st1 b st2,
     run_steps Demo.reshuffled Demo.args 2 = Ok tt st ∧
     adjust_learning_rates Demo.args 2 st = Ok tt st1 ∧
     next_train_batch Demo.reshuffled st1 = Ok b st2 ∧
     gen_train st1 = [] ∧
     head (train_data Demo.reshuffled 1) = Some b ∧
     ∃ st', run_steps Demo.reshuffled Demo.args 3 = Ok tt st') ∧
  (∃ st', run Demo.one_pass Demo.args = Raise StopIteration st').
Proof.
  split.
  - destruct (train_iteration_restarts Demo.reshuffled Demo.args 2) as [HA _].
    destruct (HA demo_healthy_reshuffled ltac:(by intros step i)
                ltac:(simpl; lia))
      as (st & st1 & b & st2 & Hrun & Hadj & Hnext & _ & _ & _ & Hrestart & Hend).
    assert (gen_train st1 = [] ∧ epoch st1 = 1%nat) as [Hnil Hepoch].
    { assert (∃ st0, run_steps Demo.reshuffled Demo.args 2 = Ok tt st0 ∧
                     adjust_learning_rates Demo.args 2 st0 = Ok tt st0 ∧
                     gen_train st0 = [] ∧ epoch st0 = 1%nat)
        as (st0 & Hrun0 & Hadj0 & Hnil0 & Hepoch0).
      { eexists. split; [vm_compute; reflexivity|].
        split; [reflexivity|]. split; reflexivity. }
      rewrite Hrun0 in Hrun. injection Hrun as <-.
      rewrite Hadj0 in Hadj. injection Hadj as <-. by split. }
    destruct (Hrestart Hnil) as (Hhead & _). rewrite Hepoch in Hhead.
    exists st, st1, b, st2. repeat (split; [assumption|]). exact Hend.
  - destruct (train_iteration_restarts Demo.one_pass Demo.args 2) as [_ HB].
    edestruct HB as (st' & _ & _ & Hraise);
      [vm_compute; reflexivity|reflexivity|reflexivity|reflexivity|].
    exists st'. apply Hraise. simpl. lia.
Defined.

(** C4: with the loader that shuffles, the batch that step 2 gets after the
    restart is not the first batch of the first iteration; and with the
    loader that can be iterated only once, the restart ends the run with
    [StopIteration], two steps having been made. *)
Lemma restart_yields_another_batch :
  (∃ st b st2,
     run_steps Demo.reshuffled Demo.args 2 = Ok tt st ∧ gen_train st = [] ∧
     next_train_batch Demo.reshuffled st = Ok b st2 ∧
     head (train_data Demo.reshuffled 0) = Some (Demo.batch [0; 1; 2; 0]) ∧
     b = Demo.batch [9; 9; 3; 1]) ∧
  (∃ st, run Demo.one_pass Demo.args = Raise StopIteration st ∧
         training_steps (trace st) = [0; 1]%nat).
Proof.
  split.
  - eexists _, _, _. split; [vm_compute; reflexivity|].
    split; [reflexivity|]. split; [vm_compute; reflexivity|].
    split; reflexivity.
  - eexists. split; [vm_compute; reflexivity|]. vm_compute. reflexivity.
Qed.

(** Five steps of four examples: the counts sum to twenty. *)
Lemma label_counter_total_witness :
  ∃ st, run_steps Demo.world Demo.args 5 = Ok tt st ∧
        sum_Z (label_train_counts st) = 20 ∧
        Forall (fun c => 0 <= c) (label_train_counts st).
Proof.
  destruct (label_counter_total Demo.world Demo.args 5
              demo_healthy_args demo_to_tensor demo_batch_size
              ltac:(simpl; lia) ltac:(simpl; lia))
    as (_ & st & Hrun & _ & Hpos & Hsum & _).
  exists st. split; [exact Hrun|]. split; [exact Hsum|exact Hpos].
Defined.

(** The second test batch of the round of step 2 does not fit the device. *)
Lemma tensor_error_propagates_witness :
  ∃ st, run Demo.small_device Demo.args
        = Raise (RuntimeError "CUDA out of memory") st ∧
        ∃ tr, trace st =
              tr ++ [ToTensor 2 1;
                     Print "- Exception: CUDA out of memory. Try to decrease your batch_size_test with the --batch_size_test argument."].
Proof.
  destruct (tensor_error_propagates Demo.small_device Demo.args 2 1
              "CUDA out of memory" demo_healthy_small_device eq_refl
              ltac:(simpl; lia) eq_refl ltac:(vm_compute; lia))
    as (_ & st & _ & _ & Hrun & Htrace & _).
  - intros step j Hstep. simpl. rewrite bool_decide_eq_false_2 by lia. reflexivity.
  - intros j Hj. simpl. rewrite bool_decide_eq_false_2 by lia. reflexivity.
  - reflexivity.
  - exists st. split; [exact Hrun|exact Htrace].
Defined.

(** After the first round only, the second row is as [np.empty] left it. *)
Lemma artifacts_after_round_witness :
  ∃ st arr,
    run_steps Demo.world Demo.args 2 = Ok tt st ∧
    files st !! os_path_join (out_dir Demo.world) "acc_test.npy"
    = Some (Npy3 arr) ∧
    acc_test st = Some arr ∧ shape3 Demo.world Demo.args arr ∧
    recorded Demo.world Demo.args 0 0 st ∧
    untouched Demo.world Demo.args 1 0 st.
Proof.
  destruct (artifacts_after_round Demo.world Demo.args 0 2
              demo_healthy_args demo_to_tensor demo_ceilings_exact
              ltac:(vm_compute; lia) ltac:(simpl; lia))
    as (_ & _ & _ & st & Hrun & _ & Hmem & Hdisk & Hrows).
  simpl in Hmem, Hdisk.
  destruct Hmem as (arr & Hacc & Hshape).
  destruct Hdisk as (arr' & Hacc' & Hf3 & _).
  rewrite Hacc in Hacc'. injection Hacc' as <-.
  exists st, arr. repeat (split; [assumption|]). split.
  - apply (Hrows 0%nat 0%nat); vm_compute; lia.
  - apply (Hrows 1%nat 0%nat); vm_compute; lia.
Defined.

(** C10: in reference-only mode [acc_test] is not allocated when the loop
    starts; and with saving disabled no artifact is on disk after the first
    round. *)
Lemma artifacts_not_always_there :
  (∃ st0, run_steps Demo.world Demo.args_just_ref 0 = Ok tt st0 ∧
          acc_test st0 = None) ∧
  (∃ st, run_steps Demo.world Demo.args_no_save 1 = Ok tt st ∧
         evaluated_steps (trace st) = [0%nat] ∧
         files st !! os_path_join (out_dir Demo.world) "acc_test.npy" = None ∧
         files st !! os_path_join (out_dir Demo.world) "acc_test_ref.npy" = None).
Proof.
  split.
  - eexists. split; [vm_compute; reflexivity|reflexivity].
  - eexists. split; [vm_compute; reflexivity|].
    repeat split; vm_compute; reflexivity.
Qed.

(** ** The modes in which nothing is saved, and the names of the checkpoints *)

(** C3: with saving disabled the three rounds are run and no accuracy file
    is written. *)
Lemma accuracy_files_not_written :
  ∃ st, run Demo.world Demo.args_no_save = Ok tt st ∧
        evaluated_steps (trace st) = [0; 2; 4]%nat ∧
        files st !! os_path_join (out_dir Demo.world) "acc_test.npy" = None ∧
        files st !! os_path_join (out_dir Demo.world) "acc_test_ref.npy" = None.
Proof.
  eexists. split; [vm_compute; reflexivity|].
  repeat split; vm_compute; reflexivity.
Qed.

Lemma accuracy_artifacts_witness :
  ∃ st arr,
    run_steps Demo.world Demo.args 5 = Ok tt st ∧
    files st !! os_path_join (out_dir Demo.world) "acc_test.npy"
    = Some (Npy3 arr) ∧
    files st !! os_path_join (out_dir Demo.world) "acc_test_ref.npy"
    = Some (Npy2 (acc_test_ref st)) ∧
    shape3 Demo.world Demo.args arr ∧ shape2 Demo.args (acc_test_ref st).
Proof.
  destruct (accuracy_artifacts Demo.world Demo.args 5
              demo_healthy_args demo_to_tensor demo_ceilings_exact
              ltac:(lia) ltac:(simpl; lia))
    as (_ & _ & _ & _ & st & Hrun & arr & _ & Hf3 & Hf2 & Hs3 & Hs2 & _).
  exists st, arr. repeat (split; [assumption|]). assumption.
Defined.

(** C6: a restore path that names no file is not reported in
    reference-only mode, nor when it is the empty string. *)
Lemma missing_restore_file_not_reported :
  (isfile Demo.world "missing.pth" = false ∧
   ∃ st, run Demo.world Demo.args_just_ref_restore = Ok tt st ∧
         printed "ERROR: Cannot load file `missing.pth`." (trace st) = false ∧
         printed "File does not exist! Exit loading..." (trace st) = false) ∧
  (restore_path Demo.args_empty_restore = Some ""%string ∧
   isfile Demo.world "" = false ∧
   ∃ st, run Demo.world Demo.args_empty_restore = Ok tt st ∧
         printed "ERROR: Cannot load file ``." (trace st) = false ∧
         printed "File does not exist! Exit loading..." (trace st) = false).
Proof.
  split.
  - split; [reflexivity|]. eexists. split; [vm_compute; reflexivity|].
    split; vm_compute; reflexivity.
  - split; [reflexivity|]. split; [reflexivity|].
    eexists. split; [vm_compute; reflexivity|].
    split; vm_compute; reflexivity.
Qed.

Lemma restore_missing_file_witness :
  ∃ st0 st1,
    run_steps Demo.world Demo.args_restore 0 = Ok tt st0 ∧
    run_steps Demo.world Demo.args_restore 1 = Ok tt st1 ∧
    net st0 = Some (fresh_net Demo.world) ∧
    printed "ERROR: Cannot load file `missing.pth`." (trace st0) = true.
Proof.
  destruct (restore_missing_file Demo.world Demo.args_restore "missing.pth"
              demo_healthy_restore demo_to_tensor eq_refl ltac:(simpl; lia))
    as (st0 & st1 & Hrun0 & Hrun1 & Hcase).
  simpl in Hcase. destruct Hcase as (Hnet & Herr & _).
  exists st0, st1. repeat (split; [assumption|]). exact Herr.
Defined.

(** C8: the checkpoint of round 1, run at step 2, is named after the step. *)
Lemma checkpoint_named_after_step :
  round_of Demo.args 2 = 1%nat ∧
  ∃ st, run Demo.world Demo.args = Ok tt st ∧
        files st !! os_path_join (out_dir Demo.world) (parameters_name 1) = None ∧
        files st !! os_path_join (out_dir Demo.world) (parameters_name 2)
        = Some (Pth 3%nat).
Proof.
  split; [reflexivity|]. eexists. split; [vm_compute; reflexivity|].
  split; vm_compute; reflexivity.
Qed.

Lemma checkpoint_per_round_witness :
  ∃ st st_2 n,
    run_steps Demo.world Demo.args 5 = Ok tt st ∧
    run_steps Demo.world Demo.args 3 = Ok tt st_2 ∧ net st_2 = Some n ∧
    files st !! os_path_join (out_dir Demo.world) (parameters_name 2)
    = Some (Pth (weights n)).
Proof.
  destruct (checkpoint_per_round Demo.world Demo.args 5
              demo_healthy_args demo_to_tensor eq_refl eq_refl ltac:(simpl; lia))
    as (st & Hrun & Hfiles & _).
  destruct (Hfiles 2%nat ltac:(lia) eq_refl) as (st_2 & n & Hrun2 & Hn & Hf).
  exists st, st_2, n. repeat (split; [assumption|]). exact Hf.
Defined.

(** C9: in reference-only mode the three rounds are run and no array is
    saved. *)
Lemma reference_only_saves_nothing :
  ∃ st, run Demo.world Demo.args_just_ref = Ok tt st ∧
        evaluated_steps (trace st) = [0; 2; 4]%nat ∧
        acc_test st = None ∧
        files st !! os_path_join (out_dir Demo.world) "acc_test.npy" = None ∧
        files st !! os_path_join (out_dir Demo.world) "acc_test_ref.npy" = None.
Proof.
  eexists. split; [vm_compute; reflexivity|].
  repeat split; vm_compute; reflexivity.
Qed.

Lemma reference_only_rounds_witness :
  ∃ st, run_steps Demo.world Demo.args_just_ref 5 = Ok tt st ∧
        acc_test st = None ∧
        files st = files (initial Demo.world Demo.args_just_ref).
Proof.
  destruct (reference_only_rounds Demo.world Demo.args_just_ref 5
              demo_healthy_just_ref demo_to_tensor eq_refl ltac:(simpl; lia))
    as (st & Hrun & Hacc & _ & _ & Hfiles & _).
  exists st. split; [exact Hrun|]. split; [exact Hacc|exact Hfiles].
Defined.

(** * Further properties *)

Section Further.
Context {Samples Weights RefWeights Acc : Type}.
Variable w : @World Samples Weights RefWeights Acc.
Variable a : Args.
Local Abbreviation State := (@St Samples Weights RefWeights Acc).

(** Running the first command of a sequence whose result is known. *)
Ltac mrun H :=
  match goal with
  | |- bind ?m ?k ?st = _ => rewrite (bind_Ok m k st _ _ H); cbv beta
  | |- bind ?m ?k ?st = _ ∧ _ => rewrite (bind_Ok m k st _ _ H); cbv beta
  end.

(** ** Before the loop, in all its outcomes *)

Lemma ceil_div_lower (x y : Z) : - y < x → 0 < y → 0 <= - (- x / y).
Proof.
  intros Hx Hy. assert (- x / y < 1); [|lia].
  apply Z.div_lt_upper_bound; lia.
Qed.

Lemma ceil_div_negative (x y : Z) : x <= - y → 0 < y → - (- x / y) < 0.
Proof.
  intros Hx Hy. assert (1 <= - x / y); [|lia].
  apply Z.div_le_lower_bound; lia.
Qed.

Lemma restore_start (st : State) :
  (∀ p, just_ref a = false → restore_path a = Some p → p ≠ ""%string →
        isfile w p = true → ∃ state_dict, torch_load w p = inr state_dict) →
  just_ref a = false → net st = Some (fresh_net w) →
  restore w a st =
  Ok tt (set_trace (trace st ++ restore_lines w a)
           (set_net (Some (restored_net w a)) st)).
Proof.
  intros H Hj Hn. unfold restore, restore_lines, restored_net, restorable.
  destruct (restore_path a) as [p|] eqn:Hp.
  - destruct (truthy (Some p)) eqn:Htr; simpl.
    + destruct (isfile w p) eqn:Hf; simpl.
      * destruct (H p) as [sd Hsd]; try done.
        { intros ->. done. }
        unfold get_net, print, emit. unfold bind, modify, unwrap, gets, ret.
        rewrite Hsd. simpl. rewrite Hn. simpl. f_equal.
        unfold set_trace, set_net. simpl. f_equal. by rewrite <- !app_assoc.
      * unfold print, emit. unfold bind, modify, ret. simpl.
        f_equal. destruct st; simpl in *. subst. unfold set_trace, set_net. simpl.
        f_equal. by rewrite <- !app_assoc.
    + unfold ret. f_equal. rewrite app_nil_r. destruct st; simpl in *. by subst.
  - unfold ret. f_equal. rewrite app_nil_r. destruct st; simpl in *. by subst.
Qed.

(** The lines before the loop, up to the point where the test loader is
    asked for the pool. *)
Lemma setup_upto_pool :
  Startable w a →
  setup w a (boot w) =
  (do pool <- unwrap StopIteration (take_exactly (n_test a) (test_loader w));
   modify (set_all_test_data pool) >>
   modify (set_label_train_counts (replicate (Z.to_nat (target_size a)) 0)))
    (before_pool w a).
Proof.
  intros H.
  pose proof (start_interval w a H) as Hd.
  pose proof (start_batch_size_test w a H) as Hb.
  pose proof (ceil_div_lower _ _ (start_steps w a H) Hd) as Hr.
  pose proof (ceil_div_lower _ _ (start_test_samples w a H) Hb) as Ht.
  unfold setup.
  do 4 (rewrite (bind_Ok (print _) _ _ _ tt eq_refl)).
  unfold ceil_div. rewrite !bool_decide_eq_false_2 by lia.
  simpl unwrap. rewrite !bind_ret.
  match goal with |- bind _ _ ?st = _ => set (st0 := st) end.
  set (st1 := if just_ref a
              then st0
              else set_acc_test (Some (garbage3 w a))
                     (set_trace (trace st0 ++ restore_lines w a)
                        (set_net (Some (restored_net w a)) st0))).
  assert (when (negb (just_ref a))
            (modify (set_net (Some (fresh_net w))) >>
             restore w a >>
             do n <- get_net;
             do arr <- unwrap ValueError
                         (np_empty3 w (- (- n_steps a / n_test_interval a))
                            (- (- n_test_samples a / batch_size_test a))
                            (length (dcll_slices n)));
             modify (set_acc_test (Some arr))) st0 = Ok tt st1) as Hnet.
  { subst st1. destruct (just_ref a) eqn:Hj; simpl; [done|].
    rewrite (bind_Ok (modify _) _ _ _ tt eq_refl).
    mrun (restore_start (set_net (Some (fresh_net w)) st0) (start_restore w a H) Hj eq_refl).
    unfold get_net, bind, gets, unwrap, ret, np_empty3, modify. simpl.
    rewrite bool_decide_eq_true_2 by lia. rewrite restored_net_slices. done. }
  mrun Hnet.
  unfold np_empty2. rewrite bool_decide_eq_true_2 by lia. simpl unwrap.
  rewrite bind_ret. rewrite (bind_Ok (modify _) _ _ _ tt eq_refl).
  assert (when (negb (no_save a))
            (save w "log_dir.txt" (Txt (log_dir w)) >>
             save w "args.txt" (TxtArgs a) >>
             save w "args.pkl" (PklArgs a))
            (set_acc_test_ref (garbage2 w a) st1) =
          Ok tt (set_files (if no_save a then ∅ else metadata w a)
                   (set_acc_test_ref (garbage2 w a) st1))) as Hsave.
  { subst st1 st0. unfold when, save, bind, modify, metadata.
    destruct (just_ref a), (no_save a); simpl; done. }
  unfold garbage2, n_test, n_tests_total in Hsave.
  mrun Hsave.
  rewrite (bind_Ok (modify _) _ _ _ tt eq_refl).
  unfold n_test. f_equal.
  subst st1 st0. unfold before_pool, initial.
  destruct (just_ref a), (no_save a); simpl; try done.
Qed.

Lemma setup_start :
  Startable w a → (n_test a <= length (test_loader w))%nat →
  setup w a (boot w) = Ok tt (initial w a).
Proof.
  intros H Hl. rewrite (setup_upto_pool H). unfold take_exactly.
  rewrite bool_decide_eq_true_2 by done. done.
Qed.


Lemma run_steps_start :
  Startable w a → (n_test a <= length (test_loader w))%nat →
  run_steps w a 0 = Ok tt (initial w a).
Proof.
  intros H Hl. unfold run_steps. mrun (setup_start H Hl). done.
Qed.

Lemma setup_raise (e : Exc) (st : State) :
  setup w a (boot w) = Raise e st → run w a = Raise e st.
Proof.
  intros Hs. unfold run, main.
  rewrite (bind_Raise _ _ _ _ _ Hs). done.
Qed.

(** Readings of a trace that look at no printed line find nothing in a
    trace of printed lines. *)
Lemma omap_prints {B} (f : @Event Acc → option B) (tr : list (@Event Acc)) :
  (∀ line, f (Print line) = None) → Forall is_print tr → omap f tr = [].
Proof.
  intros Hf. induction 1 as [|e tr [line ->] _ IH]; [done|].
  simpl. by rewrite Hf.
Qed.

Lemma initial_prints : Forall is_print (trace (initial w a)).
Proof.
  unfold initial; simpl. repeat (constructor; [by eexists|]).
  destruct (just_ref a); [constructor|].
  unfold restore_lines. destruct (restore_path a) as [p|]; [|constructor].
  destruct (truthy (Some p)); [|constructor].
  destruct (isfile w p); simpl; repeat (constructor; [by eexists|]); constructor.
Qed.

(** X1. Lines 186-191: a batch size for testing or a test interval of zero
    makes the division under [np.ceil] raise [ZeroDivisionError], right after
    the four lines of the header: no network has been built, no array
    allocated and no file written. *)
Theorem zero_divisor_before_setup :
  batch_size_test a = 0 ∨ n_test_interval a = 0 →
  ∃ st, run w a = Raise ZeroDivisionError st ∧
        net st = None ∧ acc_test st = None ∧ acc_test_ref st = [] ∧
        files st = ∅ ∧
        trace st = [Print hashes;
                    Print ("- Logging directory: " +:+ log_dir w);
                    Print ("- Output directory: " +:+ out_dir w);
                    Print hashes].
Proof.
  intros Hz. eexists. split.
  - apply setup_raise. unfold setup.
    do 4 (rewrite (bind_Ok (print _) _ _ _ tt eq_refl)).
    unfold ceil_div.
    destruct (bool_decide (batch_size_test a = 0)) eqn:Hb; [reflexivity|].
    apply bool_decide_eq_false in Hb.
    rewrite (bool_decide_eq_true_2 (n_test_interval a = 0)) by tauto.
    reflexivity.
  - done.
Qed.

(** X2. Lines 241 and 259: with positive divisors, a number of steps of at
    most [- n_test_interval] (or a number of test samples of at most
    [- batch_size_test]) gives a negative ceiling, and [np.empty] raises
    [ValueError] on it: the run ends before the loop, with nothing written,
    instead of running zero iterations. *)
Theorem negative_dimension_rejected :
  0 < n_test_interval a → 0 < batch_size_test a →
  (∀ p, just_ref a = false → restore_path a = Some p → p ≠ ""%string →
        isfile w p = true → ∃ state_dict, torch_load w p = inr state_dict) →
  n_steps a <= - n_test_interval a ∨ n_test_samples a <= - batch_size_test a →
  ∃ st, run w a = Raise ValueError st ∧
        acc_test st = None ∧ acc_test_ref st = [] ∧ files st = ∅.
Proof.
  intros Hd Hb Hload Hneg.
  assert (¬ (0 <= - (- n_steps a / n_test_interval a) ∧
             0 <= - (- n_test_samples a / batch_size_test a))) as Hdims.
  { intros [? ?]. destruct Hneg as [Hn|Hn].
    - pose proof (ceil_div_negative _ _ Hn Hd). lia.
    - pose proof (ceil_div_negative _ _ Hn Hb). lia. }
  assert (just_ref a = true ∨ just_ref a = false) as [Hj|Hj]
    by (destruct (just_ref a); auto).
  - eexists. split.
    + apply setup_raise. unfold setup.
      do 4 (rewrite (bind_Ok (print _) _ _ _ tt eq_refl)).
      unfold ceil_div. rewrite !bool_decide_eq_false_2 by lia.
      simpl unwrap. rewrite !bind_ret. rewrite Hj. simpl negb.
      rewrite (bind_Ok (when false _) _ _ _ tt eq_refl).
      unfold np_empty2. rewrite bool_decide_eq_false_2 by done.
      reflexivity.
    + done.
  - eexists. split.
    + apply setup_raise. unfold setup.
      do 4 (rewrite (bind_Ok (print _) _ _ _ tt eq_refl)).
      unfold ceil_div. rewrite !bool_decide_eq_false_2 by lia.
      simpl unwrap. rewrite !bind_ret. rewrite Hj. simpl negb.
      apply bind_Raise. unfold when.
      rewrite (bind_Ok (modify _) _ _ _ tt eq_refl).
      match goal with |- bind _ _ ?st = _ => set (st0 := st) end.
      mrun (restore_start st0 Hload Hj eq_refl).
      unfold get_net, bind, gets, unwrap, ret, np_empty3. simpl.
      rewrite bool_decide_eq_false_2 by done. reflexivity.
    + done.
Qed.



(** X5. Lines 317-321: with an empty training loader the second [next],
    the one of the [except] branch, raises [StopIteration] at step 0.  The
    iterator has been created twice, no label has been counted and no
    network trained. *)
Theorem empty_training_loader :
  Startable w a → (n_test a <= length (test_loader w))%nat →
  0 < n_steps a → train_data w 0 = [] → train_data w 1 = [] →
  ∃ st, run w a = Raise StopIteration st ∧
        epoch st = 2%nat ∧
        label_train_counts st = replicate (Z.to_nat (target_size a)) 0 ∧
        net st = net (initial w a) ∧ ref_net st = ref_net (initial w a) ∧
        training_steps (trace st) = [] ∧
        files st = files (initial w a).
Proof.
  intros H Hl Hn H0 H1.
  exists (set_gen_train [] 2 (initial w a)).
  assert (run_steps w a 1 = Raise StopIteration (set_gen_train [] 2 (initial w a)))
    as Hrun.
  { rewrite (run_steps_S w a 0 _ (run_steps_start H Hl)).
    unfold body, adjust_learning_rates. simpl bool_decide.
    rewrite (bind_Ok (when false _) _ _ _ tt eq_refl).
    apply bind_Raise. unfold next_train_batch, bind, gets, modify, raise.
    simpl. rewrite H0.
    change (epoch (initial w a)) with 1%nat. rewrite H1. reflexivity. }
  split.
  { apply (run_steps_raise w a 1 1 _ _ Hrun); lia. }
  repeat split; try done.
  apply omap_prints; [done|apply initial_prints].
Qed.

(** X6. Lines 229-232: when the restore path names an existing file and
    [torch.load] or [load_state_dict] raises on it, that exception is not
    caught: it ends the run before any array is allocated or any file
    written, with the network holding whatever [load_state_dict] had copied,
    and neither the line of the missing file nor the line of the successful
    load is printed.  Only a missing file is skipped. *)
Theorem restore_unloadable_file (p : string) (e : Exc) (held : Weights) :
  batch_size_test a ≠ 0 → n_test_interval a ≠ 0 →
  just_ref a = false → restore_path a = Some p → p ≠ ""%string →
  isfile w p = true → torch_load w p = inl (e, held) →
  ∃ st, run w a = Raise e st ∧
        net st = Some {| weights := held;
                         dcll_slices := dcll_slices (fresh_net w) |} ∧
        acc_test st = None ∧ files st = ∅ ∧
        printed ("ERROR: Cannot load file `" +:+ p +:+ "`.") (trace st) = false ∧
        printed ("Loaded the weights of trained SNN model from `" +:+ p +:+ "`.")
          (trace st) = false.
Proof.
  intros Hb Hd Hj Hp Hne Hf Hload. eexists. split.
  { apply setup_raise. unfold setup.
    do 4 (rewrite (bind_Ok (print _) _ _ _ tt eq_refl)).
    unfold ceil_div. rewrite !bool_decide_eq_false_2 by done.
    simpl unwrap. rewrite !bind_ret. rewrite Hj. simpl negb.
    apply bind_Raise. unfold when.
    rewrite (bind_Ok (modify _) _ _ _ tt eq_refl).
    apply bind_Raise. unfold restore. rewrite Hp. unfold truthy.
    rewrite bool_decide_eq_false_2 by done. simpl negb. unfold when.
    rewrite (bind_Ok (print _) _ _ _ tt eq_refl).
    apply bind_Raise. rewrite Hf. simpl negb. cbv iota.
    rewrite Hload. reflexivity. }
  simpl. repeat split; try done.
Qed.

(** ** The label counter at its bounds *)

Lemma count_label_outside (l : Z) (st : State) :
  l < - Z.of_nat (length (label_train_counts st)) ∨
  Z.of_nat (length (label_train_counts st)) <= l →
  count_label l st = Raise IndexError st.
Proof.
  intros Hl. unfold count_label, bind, gets, unwrap, py_index.
  rewrite !bool_decide_eq_false_2 by lia. reflexivity.
Qed.

(** X7. Lines 322-323: a label outside [[-n, n)], [n] the length of the
    counter, raises [IndexError] in the middle of the batch: the labels
    before it stay counted, the ones after it are not. *)
Theorem label_out_of_range (good rest : list Z) (bad : Z) (st : State) :
  Forall (fun l => - Z.of_nat (length (label_train_counts st)) <= l
                   < Z.of_nat (length (label_train_counts st))) good →
  bad < - Z.of_nat (length (label_train_counts st)) ∨
  Z.of_nat (length (label_train_counts st)) <= bad →
  for_ (good ++ bad :: rest) count_label st = Raise IndexError (counted good st).
Proof.
  intros Hgood Hbad. rewrite for__app.
  mrun (count_labels_ok good st Hgood). simpl for_.
  apply bind_Raise, count_label_outside. simpl. by rewrite counted_length.
Qed.

Lemma counted1_mod (counts : list Z) (l : Z) :
  - Z.of_nat (length counts) <= l < Z.of_nat (length counts) →
  counted1 counts (l mod Z.of_nat (length counts)) = counted1 counts l.
Proof.
  intros Hl. unfold counted1, py_index.
  destruct (decide (0 <= l)) as [Hpos|Hneg].
  - by rewrite Z.mod_small by lia.
  - assert (l mod Z.of_nat (length counts) = l + Z.of_nat (length counts)) as ->.
    { symmetry. apply Z.mod_unique_pos with (q := -1); lia. }
    rewrite (bool_decide_eq_true_2 (0 <= l + _ < _)) by lia.
    rewrite (bool_decide_eq_false_2 (0 <= l < _)) by lia.
    by rewrite bool_decide_eq_true_2 by lia.
Qed.

(** One label in range adds one to the entry of its class and leaves the
    other entries as they are. *)
Lemma counted1_entry (counts : list Z) (l : Z) (j : nat) (c : Z) :
  - Z.of_nat (length counts) <= l < Z.of_nat (length counts) →
  counts !! j = Some c →
  counted1 counts l !! j =
  Some (if bool_decide (l mod Z.of_nat (length counts) = Z.of_nat j)
        then wrap64 (c + 1) else c).
Proof.
  intros Hl Hj. rewrite <- (counted1_mod counts l Hl).
  pose proof (Z.mod_pos_bound l (Z.of_nat (length counts)) ltac:(lia)) as Hm.
  unfold counted1, py_index. rewrite bool_decide_eq_true_2 by done.
  case_bool_decide as Heq.
  - rewrite Heq, Nat2Z.id, list_lookup_alter_eq, Hj. done.
  - rewrite list_lookup_alter_ne by lia. done.
Qed.

Lemma hits_cons (n j : nat) (l : Z) (ls : list Z) :
  hits n j (l :: ls) =
  (if bool_decide (l mod Z.of_nat n = Z.of_nat j) then 1 else 0) + hits n j ls.
Proof.
  unfold hits. rewrite filter_cons.
  case_bool_decide; case_decide; try done; simpl length; lia.
Qed.

Lemma counted_entries (ls : list Z) (counts : list Z) (j : nat) (c : Z) :
  Forall (fun l => - Z.of_nat (length counts) <= l < Z.of_nat (length counts)) ls →
  Forall (fun c => - 2 ^ 63 <= c ∧ c + Z.of_nat (length ls) < 2 ^ 63) counts →
  counts !! j = Some c →
  foldl counted1 counts ls !! j = Some (c + hits (length counts) j ls).
Proof.
  revert counts c. induction ls as [|l ls IH]; intros counts c Hls Hfit Hj.
  - simpl. rewrite Hj. f_equal. unfold hits. simpl. lia.
  - inversion Hls as [|? ? Hl Hls']; subst. simpl foldl.
    pose proof (proj1 (Forall_lookup _ _) Hfit j c Hj) as Hc. simpl in Hc.
    simpl length in Hc.
    assert (Forall (fun x => - Z.of_nat (length (counted1 counts l))
                             <= x < Z.of_nat (length (counted1 counts l))) ls)
      as Hls''.
    { eapply Forall_impl; [exact Hls'|]. intros x Hx. simpl.
      by rewrite counted1_length. }
    assert (Forall (fun c => - 2 ^ 63 <= c ∧ c + Z.of_nat (length ls) < 2 ^ 63)
              (counted1 counts l)) as Hfit'.
    { apply Forall_lookup. intros i x Hx.
      destruct (lookup_lt_is_Some_2 counts i) as [y Hy].
      { apply lookup_lt_Some in Hx. by rewrite counted1_length in Hx. }
      rewrite (counted1_entry counts l i y Hl Hy) in Hx. injection Hx as <-.
      pose proof (proj1 (Forall_lookup _ _) Hfit i y Hy) as Hyb. simpl in Hyb.
      case_bool_decide.
      - rewrite wrap64_small by lia. lia.
      - lia. }
    pose proof (counted1_entry counts l j c Hl Hj) as Hj'.
    rewrite (IH _ _ Hls'' Hfit' Hj'), counted1_length, hits_cons.
    f_equal. case_bool_decide; [|lia].
    rewrite wrap64_small by lia. lia.
Qed.

(** X8. Lines 322-323: a negative label of at least [-n] is counted from
    the end, as numpy indexes.  Counting a batch of labels in [[-n, n)]
    raises nothing and adds to the entry of each class [j] the number of
    labels [l] of the batch with [l mod n = j], so that the label [-1] is
    counted for the last class; the entries are [int64] and are taken not to
    overflow. *)
Theorem negative_labels_wrap (ls : list Z) (st : State) :
  Forall (fun l => - Z.of_nat (length (label_train_counts st)) <= l
                   < Z.of_nat (length (label_train_counts st))) ls →
  Forall (fun c => - 2 ^ 63 <= c ∧ c + Z.of_nat (length ls) < 2 ^ 63)
    (label_train_counts st) →
  ∃ st', for_ ls count_label st = Ok tt st' ∧
         length (label_train_counts st') = length (label_train_counts st) ∧
         ∀ j c, label_train_counts st !! j = Some c →
                label_train_counts st' !! j
                = Some (c + hits (length (label_train_counts st)) j ls).
Proof.
  intros Hls Hfit. exists (counted ls st).
  split; [by apply count_labels_ok|]. split.
  - simpl. by rewrite counted_length.
  - intros j c Hj. simpl. by apply counted_entries.
Qed.

(** ** What a step sends out *)

Lemma trace_adjusted (step : nat) (st : State) :
  trace (adjusted a step st) =
  trace st ++ (if adjusts step then [Print "- Adjusting learning rates"] else []).
Proof.
  unfold adjusted. destruct (adjusts step), (just_ref a); simpl;
    by rewrite ?app_nil_r.
Qed.

Lemma trace_trained (step : nat) (b : Batch) (st : State) :
  trace (trained w a step b st) =
  trace st ++
  (if adjusts step then [Print "- Adjusting learning rates"] else []) ++
  (if just_ref a then []
   else match net (adjusted a step st) with
        | Some n => [PrintTraining step (net_learn w step n b).2]
        | None => []
        end).
Proof.
  unfold trained. simpl.
  destruct (advanced_frame w (adjusted a step st)) as (Hn & _ & _ & _ & _ & _ & _ & Htr).
  destruct (just_ref a).
  - simpl. by rewrite Htr, trace_adjusted, app_nil_r.
  - unfold trained_net. simpl. rewrite Hn.
    destruct (net (adjusted a step st)); simpl;
      rewrite Htr, trace_adjusted, ?app_nil_r; by rewrite <- ?app_assoc.
Qed.

Lemma trace_tested (step r i : nat) (b : Batch) (st : State) :
  (just_ref a = false → is_Some (net st) ∧ is_Some (acc_test st)) →
  trace (tested w a step r i b st) = trace st ++ tested_events a step i.
Proof.
  intros Hnet. unfold tested, tested_ref, tested_net, tested_events.
  destruct (just_ref a).
  - destruct (bool_decide (i = 0%nat)); simpl; by rewrite ?app_nil_r.
  - destruct Hnet as [[n ->] [arr ->]]; [done|].
    destruct (bool_decide (i = 0%nat)); simpl; by rewrite <- ?app_assoc.
Qed.

Lemma tested_bound (step r i : nat) (b : Batch) (st : State) :
  (just_ref a = false → is_Some (net st) ∧ is_Some (acc_test st)) →
  just_ref a = false →
  is_Some (net (tested w a step r i b st)) ∧
  is_Some (acc_test (tested w a step r i b st)).
Proof.
  intros Hnet Hj. destruct (Hnet Hj) as [[n Hn] [arr Harr]].
  destruct (tested_frame w a step r i b st) as (Hn' & _).
  rewrite Hn', Hn. rewrite (tested_acc_test w a step r i b st n arr Hj Hn Harr).
  eauto.
Qed.

Lemma trace_tested_from (step r : nat) (pool : list Batch) (i : nat) (st : State) :
  (just_ref a = false → is_Some (net st) ∧ is_Some (acc_test st)) →
  trace (tested_from w a step r i pool st) =
  trace st ++ concat (tested_events a step <$> seq i (length pool)).
Proof.
  revert i st. induction pool as [|b pool IH]; intros i st Hnet; simpl.
  - by rewrite app_nil_r.
  - rewrite IH by (by apply tested_bound).
    rewrite trace_tested by done. by rewrite <- app_assoc.
Qed.

Lemma tested_from_bound (step r : nat) (pool : list Batch) (i : nat) (st : State) :
  (just_ref a = false → is_Some (net st) ∧ is_Some (acc_test st)) →
  just_ref a = false →
  is_Some (net (tested_from w a step r i pool st)) ∧
  is_Some (acc_test (tested_from w a step r i pool st)).
Proof.
  revert i st. induction pool as [|b pool IH]; intros i st Hnet Hj; simpl.
  - by apply Hnet.
  - apply IH; [|done]. intros _. by apply tested_bound.
Qed.

Lemma trace_saved_round (step : nat) (st : State) :
  is_Some (net st) → is_Some (acc_test st) →
  trace (saved_round w step st) =
  trace st ++
  [Print dashes;
   Print ("- Saved network parameters to `" +:+
          os_path_join (out_dir w) (parameters_name step) +:+ "`.");
   Print dashes].
Proof.
  intros [n Hn] [arr Harr]. unfold saved_round. rewrite Hn, Harr. simpl.
  by rewrite <- !app_assoc.
Qed.

Lemma trace_evaluated (step : nat) (pre : State) :
  Healthy w a → Inv w a pre → evaluates a step = true →
  trace (evaluated w a step pre) =
  trace pre ++ round_events w a step (evaluated w a step pre).
Proof.
  intros H HI Hev.
  assert (just_ref a = false → is_Some (net pre) ∧ is_Some (acc_test pre)) as Hnet.
  { intros Hj. destruct (inv_net w a pre HI Hj) as (n & arr & -> & -> & _). eauto. }
  unfold round_events.
  unfold evaluated. rewrite Hev.
  set (st1 := tested_from w a step (round_of a step) 0 (all_test_data pre) pre).
  set (st2 := (if negb (just_ref a) && negb (no_save a)
               then saved_round w step else id) st1).
  assert (trace st1 =
          trace pre ++ concat (tested_events a step <$> seq 0 (n_test a))) as H1.
  { subst st1. rewrite trace_tested_from by done.
    by rewrite (pool_length w a pre H HI). }
  assert (trace st2 =
          trace st1 ++
          (if negb (just_ref a) && negb (no_save a)
           then [Print dashes;
                 Print ("- Saved network parameters to `" +:+
                        os_path_join (out_dir w) (parameters_name step) +:+ "`.");
                 Print dashes]
           else [])) as H2.
  { subst st2. destruct (just_ref a) eqn:Hj; simpl; [by rewrite app_nil_r|].
    destruct (no_save a); simpl; [by rewrite app_nil_r|].
    destruct (tested_from_bound step (round_of a step) (all_test_data pre) 0 pre)
      as [? ?]; [intros _; by apply Hnet|done|].
    by apply trace_saved_round. }
  unfold reported. simpl. rewrite H2, H1. by rewrite <- !app_assoc.
Qed.

Lemma trace_stepped (step : nat) (b : Batch) (st : State) :
  Healthy w a → Inv w a st →
  trace (stepped w a step b st) =
  trace st ++ step_events w a step b st (stepped w a step b st).
Proof.
  intros H HI. unfold step_events.
  destruct (evaluates a step) eqn:Hev.
  - unfold stepped. rewrite trace_evaluated; [|done|by apply trained_Inv|done].
    rewrite trace_trained. by rewrite <- !app_assoc.
  - unfold stepped, evaluated. rewrite Hev, trace_trained.
    by rewrite app_nil_r.
Qed.

(** ** Readings of what a step sends out *)

Lemma omap_tested_events {B} (f : @Event Acc → option B) (step : nat) (l : list nat) :
  (∀ i, omap f (tested_events a step i) = []) →
  omap f (concat (tested_events a step <$> l)) = [].
Proof.
  intros Hf. induction l as [|i l IH]; [done|].
  by rewrite fmap_cons, concat_cons, omap_app, Hf, IH.
Qed.

Lemma training_steps_round (step : nat) (st' : State) :
  training_steps (round_events w a step st') = [].
Proof.
  unfold training_steps, round_events. rewrite !omap_app.
  rewrite omap_tested_events.
  - by destruct (negb (just_ref a) && negb (no_save a)).
  - intros i. unfold tested_events.
    by destruct (just_ref a), (bool_decide (i = 0%nat)).
Qed.

Lemma training_steps_step (step : nat) (b : Batch) (st st' : State) :
  Inv w a st →
  training_steps (step_events w a step b st st') =
  if just_ref a then [] else [step].
Proof.
  intros HI. unfold step_events. unfold training_steps at 1.
  rewrite !omap_app. fold (training_steps (if evaluates a step
                                           then round_events w a step st' else [])).
  assert (training_steps (if evaluates a step then round_events w a step st' else [])
          = []) as ->.
  { destruct (evaluates a step); [apply training_steps_round|done]. }
  assert (omap training_step
            (if adjusts step then [Print "- Adjusting learning rates"] else [])
          = []) as -> by (by destruct (adjusts step)).
  destruct (just_ref a) eqn:Hj; [done|].
  destruct (inv_net w a _ (adjusted_Inv w a step st HI) Hj) as (n & arr & -> & _).
  done.
Qed.

Lemma label_reports_step (step : nat) (b : Batch) (st st' : State) :
  label_reports (step_events w a step b st st') =
  if evaluates a step then [label_train_counts st'] else [].
Proof.
  unfold step_events, label_reports. rewrite !omap_app.
  assert (omap label_report
            (if adjusts step then [Print "- Adjusting learning rates"] else [])
          = []) as -> by (by destruct (adjusts step)).
  assert (omap label_report
            (if just_ref a then []
             else match net (adjusted a step st) with
                  | Some n => [PrintTraining step (net_learn w step n b).2]
                  | None => []
                  end) = []) as ->.
  { destruct (just_ref a); [done|]. by destruct (net (adjusted a step st)). }
  destruct (evaluates a step); [|done].
  unfold round_events. rewrite !omap_app. rewrite omap_tested_events.
  - by destruct (negb (just_ref a) && negb (no_save a)).
  - intros i. unfold tested_events.
    by destruct (just_ref a), (bool_decide (i = 0%nat)).
Qed.

Lemma tensor_attempts_tested_events (step : nat) (l : list nat) :
  @tensor_attempts Acc (concat (tested_events a step <$> l)) =
  if just_ref a then [] else (fun j => (step, j)) <$> l.
Proof.
  unfold tensor_attempts. induction l as [|i l IH].
  - by destruct (just_ref a).
  - rewrite !fmap_cons, concat_cons, omap_app, IH. unfold tested_events.
    by destruct (just_ref a), (bool_decide (i = 0%nat)).
Qed.

Lemma tensor_attempts_step (step : nat) (b : Batch) (st st' : State) :
  tensor_attempts (step_events w a step b st st') =
  if evaluates a step && negb (just_ref a)
  then (fun j => (step, j)) <$> seq 0 (n_test a) else [].
Proof.
  unfold step_events. unfold tensor_attempts at 1. rewrite !omap_app.
  assert (omap tensor_attempt
            (if adjusts step then [Print "- Adjusting learning rates"] else [])
          = []) as -> by (by destruct (adjusts step)).
  assert (omap tensor_attempt
            (if just_ref a then []
             else match net (adjusted a step st) with
                  | Some n => [PrintTraining step (net_learn w step n b).2]
                  | None => []
                  end) = []) as ->.
  { destruct (just_ref a); [done|]. by destruct (net (adjusted a step st)). }
  destruct (evaluates a step); [|done].
  unfold round_events. rewrite !omap_app.
  fold (@tensor_attempts Acc (concat (tested_events a step <$> seq 0 (n_test a)))).
  rewrite tensor_attempts_tested_events.
  destruct (just_ref a), (no_save a); simpl; by rewrite ?app_nil_r.
Qed.

Lemma training_steps_after (K : nat) :
  Healthy w a → ToTensorWorks w → Z.of_nat K <= n_steps a →
  ∃ st, run_steps w a K = Ok tt st ∧ Inv w a st ∧
        training_steps (trace st) = if just_ref a then [] else seq 0 K.
Proof.
  intros H Ht HK.
  destruct (run_steps_ind w a
              (fun k st =>
                 training_steps (trace st) = if just_ref a then [] else seq 0 k)
              H Ht) with (k := K) as (st & Hrun & HI & HP); [| |done|by eauto].
  - unfold training_steps.
    rewrite (omap_prints _ _ (fun _ => eq_refl) initial_prints).
    by destruct (just_ref a).
  - intros k st b _ _ HI HP _ _.
    rewrite (trace_stepped k b st H HI). unfold training_steps at 1.
    rewrite omap_app. fold (training_steps (trace st)).
    fold (training_steps (step_events w a k b st (stepped w a k b st))).
    rewrite HP, training_steps_step by done.
    destruct (just_ref a); [done|]. by rewrite seq_S.
Qed.

Lemma tensor_attempts_after (K : nat) :
  Healthy w a → ToTensorWorks w → Z.of_nat K <= n_steps a →
  ∃ st, run_steps w a K = Ok tt st ∧ Inv w a st ∧
        tensor_attempts (trace st) =
        if just_ref a then []
        else concat ((fun s => (fun j => (s, j)) <$> seq 0 (n_test a)) <$>
                     filter (fun s => Z.of_nat s mod n_test_interval a = 0)
                       (seq 0 K)).
Proof.
  intros H Ht HK.
  destruct (run_steps_ind w a
              (fun k st =>
                 tensor_attempts (trace st) =
                 if just_ref a then []
                 else concat ((fun s => (fun j => (s, j)) <$> seq 0 (n_test a)) <$>
                              filter (fun s => Z.of_nat s mod n_test_interval a = 0)
                                (seq 0 k)))
              H Ht) with (k := K) as (st & Hrun & HI & HP); [| |done|by eauto].
  - rewrite (tensor_attempts_initial w a). by destruct (just_ref a).
  - intros k st b _ _ HI HP _ _.
    rewrite (trace_stepped k b st H HI). unfold tensor_attempts at 1.
    rewrite omap_app. fold (tensor_attempts (trace st)).
    fold (tensor_attempts (step_events w a k b st (stepped w a k b st))).
    rewrite HP, tensor_attempts_step.
    destruct (just_ref a); [by rewrite andb_false_r|].
    rewrite andb_true_r, seq_S, filter_app, fmap_app, concat_app. f_equal.
    simpl. rewrite filter_cons, filter_nil. unfold evaluates.
    case_bool_decide; case_decide; try done. simpl. by rewrite app_nil_r.
Qed.

(** X9. Lines 328-350: when the trainable network exists, every step
    prints its [TRAINING] line, once and in the order of the steps; in
    reference-only mode no such line is ever printed. *)
Theorem training_line_per_step (K : nat) :
  Healthy w a → ToTensorWorks w → Z.of_nat K <= n_steps a →
  ∃ st, run_steps w a K = Ok tt st ∧
        training_steps (trace st) = if just_ref a then [] else seq 0 K.
Proof.
  intros H Ht HK.
  destruct (training_steps_after K H Ht HK) as (st & Hrun & _ & Hst). eauto.
Qed.

(** X10. Lines 292-293 and 366-382: the pool of test batches is taken once
    from the test loader and stays the same for the whole run, and every
    evaluation round puts each batch of the pool on the device exactly once,
    in the order of the pool; between rounds and in reference-only mode no
    test spike train is built. *)
Theorem rounds_cover_pool (K : nat) :
  Healthy w a → ToTensorWorks w → Z.of_nat K <= n_steps a →
  ∃ st, run_steps w a K = Ok tt st ∧
        all_test_data st = take (n_test a) (test_loader w) ∧
        length (all_test_data st) = n_test a ∧
        tensor_attempts (trace st) =
        if just_ref a then []
        else concat ((fun s => (fun j => (s, j)) <$> seq 0 (n_test a)) <$>
                     filter (fun s => Z.of_nat s mod n_test_interval a = 0)
                       (seq 0 K)).
Proof.
  intros H Ht HK.
  destruct (tensor_attempts_after K H Ht HK) as (st & Hrun & HI & Hst).
  exists st. split; [done|]. split; [apply (inv_pool w a st HI)|].
  split; [by apply (pool_length w a)|done].
Qed.

(** X11. Line 431: the counter whose percentages a round prints already
    holds the batch of the step of the round.  Under the conditions of the
    label counter, the counter printed by the round of step [s] sums to
    [(s + 1) * batch_size], so that with a positive batch size the division
    by [np.sum(label_train_counts)] is never one by zero. *)
Theorem label_percentages_total (K : nat) :
  Healthy w a → ToTensorWorks w →
  (∀ k b, b ∈ train_data w k → Z.of_nat (length (labels b)) = batch_size a) →
  Z.of_nat K <= n_steps a →
  Z.of_nat K * batch_size a < 2 ^ 63 →
  ∃ st, run_steps w a K = Ok tt st ∧
        Forall2 (fun s counts =>
                   sum_Z counts = (Z.of_nat s + 1) * batch_size a ∧
                   (0 < batch_size a → sum_Z counts ≠ 0))
          (filter (fun s => Z.of_nat s mod n_test_interval a = 0) (seq 0 K))
          (label_reports (trace st)).
Proof.
  intros H Ht Hbs HK Hfit.
  destruct (run_steps_ind w a
              (fun k st =>
                 (k <= K)%nat →
                 Forall (fun c => 0 <= c) (label_train_counts st) ∧
                 sum_Z (label_train_counts st) = Z.of_nat k * batch_size a ∧
                 Forall2 (fun s counts =>
                            sum_Z counts = (Z.of_nat s + 1) * batch_size a ∧
                            (0 < batch_size a → sum_Z counts ≠ 0))
                   (filter (fun s => Z.of_nat s mod n_test_interval a = 0) (seq 0 k))
                   (label_reports (trace st))) H Ht) with (k := K)
    as (st & Hrun & HI & HP); [| |done|].
  - intros _. split; [|split].
    + simpl. apply Forall_replicate. lia.
    + simpl. rewrite sum_Z_replicate_0. lia.
    + unfold label_reports.
      rewrite (omap_prints _ _ (fun _ => eq_refl) initial_prints). constructor.
  - intros k st b Hk Hrun HI HP Hb Hrun' HkK.
    destruct HP as (Hall & Hsum & Hrep); [lia|].
    destruct (fetched_source w a _ b (adjusted_Inv w a k st HI) Hb) as [k0 Hk0].
    pose proof (Hbs k0 b Hk0) as Hlen.
    destruct (counted_spec (labels b) (label_train_counts st) Hall)
      as (Hall' & Hsum' & Hle).
    + rewrite (inv_counts w a st HI).
      eapply Forall_impl; [by apply (labels_in_range w a H k0 b)|].
      simpl. intros l Hl. unfold target_size in *. destruct (data a); simpl in *; lia.
    + rewrite Hsum, Hlen. nia.
    + rewrite <- (stepped_counts w a k b st) in Hall', Hsum'.
      split; [done|]. split; [lia|].
      rewrite (trace_stepped k b st H HI). unfold label_reports at 1.
      rewrite omap_app. fold (label_reports (trace st)).
      fold (label_reports (step_events w a k b st (stepped w a k b st))).
      rewrite label_reports_step, seq_S, filter_app.
      apply Forall2_app; [done|].
      simpl. rewrite filter_cons, filter_nil. unfold evaluates.
      case_bool_decide; case_decide; try done.
      constructor; [|constructor]. split; [lia|]. nia.
  - exists st. split; [done|]. by apply HP.
Qed.

(** ** The summary writer *)

Local Abbreviation Comp := (@M Samples Weights RefWeights Acc).

Lemma closes_snoc (tr : list (@Event Acc)) (e : Event) :
  closes (tr ++ [e]) = (closes tr + if is_close e then 1 else 0)%nat.
Proof.
  unfold closes. rewrite List.filter_app, length_app. simpl.
  by destruct (is_close e).
Qed.

Lemma keeps_ret {A} (x : A) : keeps_open (ret x : Comp A).
Proof. by intros st. Qed.

Lemma keeps_raise {A} (e : Exc) : keeps_open (raise e : Comp A).
Proof. by intros st. Qed.

Lemma keeps_gets {A} (f : State → A) : keeps_open (gets f).
Proof. by intros st. Qed.

Lemma keeps_modify (f : State → State) :
  (∀ st, trace (f st) = trace st) → keeps_open (modify f).
Proof. intros Hf st Hst. simpl. by rewrite Hf. Qed.

Lemma keeps_emit (e : Event) : is_close e = false → keeps_open (emit e : Comp unit).
Proof. intros He st Hst. simpl. rewrite closes_snoc, Hst, He. done. Qed.

Lemma keeps_bind {A B} (m : Comp A) (k : A → Comp B) :
  keeps_open m → (∀ x, keeps_open (k x)) → keeps_open (bind m k).
Proof.
  intros Hm Hk st Hst. unfold bind. specialize (Hm st Hst).
  destruct (m st) as [x st'|e st']; simpl in *; [by apply Hk|done].
Qed.

Lemma keeps_unwrap {A} (e : Exc) (o : option A) : keeps_open (unwrap e o : Comp A).
Proof. destruct o; [apply keeps_ret|apply keeps_raise]. Qed.

Lemma keeps_lift {A} (r : Exc + A) : keeps_open (lift r : Comp A).
Proof. destruct r; [apply keeps_raise|apply keeps_ret]. Qed.

Lemma keeps_when (b : bool) (m : Comp unit) : keeps_open m → keeps_open (when b m).
Proof. intros Hm. destruct b; [done|apply keeps_ret]. Qed.

Lemma keeps_for_ {A} (l : list A) (f : A → Comp unit) :
  (∀ x, keeps_open (f x)) → keeps_open (for_ l f).
Proof.
  intros Hf. induction l as [|x l IH]; simpl; [apply keeps_ret|].
  apply keeps_bind; [apply Hf|by intros _].
Qed.

Lemma keeps_for_enumerate {A} (l : list A) (i : nat) (f : nat → A → Comp unit) :
  (∀ i x, keeps_open (f i x)) → keeps_open (for_enumerate i l f).
Proof.
  intros Hf. revert i. induction l as [|x l IH]; intros i; simpl; [apply keeps_ret|].
  apply keeps_bind; [apply Hf|by intros _].
Qed.

(** Every statement but the last is one of these. *)
Ltac keeps :=
  repeat first
    [ apply keeps_ret | apply keeps_raise | apply keeps_gets
    | apply keeps_unwrap | apply keeps_lift
    | apply keeps_emit; reflexivity
    | apply keeps_modify; intros; reflexivity
    | apply keeps_when
    | apply keeps_for_; intros ?
    | apply keeps_for_enumerate; intros ? ?
    | apply keeps_bind; [|intros ?]
    | match goal with
      | |- keeps_open (match ?x with _ => _ end) => destruct x
      end ].

Lemma keeps_setup : keeps_open (setup w a).
Proof.
  unfold setup, restore, save, print, get_net. keeps.
Qed.

Lemma keeps_body (step : nat) : keeps_open (body w a step).
Proof.
  unfold body, adjust_learning_rates, next_train_batch, train_net, train_ref,
    evaluate, report_round, save_round, save, print, get_net, get_acc_test.
  keeps.
Qed.

(** X12. Line 435: [writer.close()] is the last statement and stands in no
    [finally]: a run that ends normally has closed the summary writer once,
    as its last action, and a run that ends with an exception, whichever and
    wherever it was raised, has never closed it. *)
Theorem writer_closed_at_end_only :
  match run w a with
  | Ok _ st => closes (trace st) = 1%nat ∧ last (trace st) = Some WriterClose
  | Raise _ st => closes (trace st) = 0%nat
  end.
Proof.
  unfold run, main.
  pose proof (keeps_bind _ _ keeps_setup
                (fun _ => keeps_for_ (seq 0 (Z.to_nat (n_steps a))) _ keeps_body)
                (boot w) eq_refl) as Hopen.
  unfold bind in *. unfold steps.
  destruct (setup w a (boot w)) as [[] st0|e st0]; [|done].
  destruct (for_ (seq 0 (Z.to_nat (n_steps a))) (body w a) st0) as [[] st1|e st1];
    [|done].
  simpl in *. rewrite closes_snoc, Hopen. split; [done|]. by rewrite last_snoc.
Qed.

(** ** The files written before the loop *)

Ltac paths_differ :=
  first
    [ apply parameters_path_fresh; solve [repeat constructor]
    | apply not_eq_sym, parameters_path_fresh; solve [repeat constructor]
    | let Heq := fresh in
      intros Heq; apply os_path_join_inj in Heq; [discriminate Heq|reflexivity..] ].

Lemma metadata_lookup :
  metadata w a !! os_path_join (out_dir w) "log_dir.txt" = Some (Txt (log_dir w)) ∧
  metadata w a !! os_path_join (out_dir w) "args.txt" = Some (TxtArgs a) ∧
  metadata w a !! os_path_join (out_dir w) "args.pkl" = Some (PklArgs a).
Proof.
  unfold metadata. split; [|split].
  - rewrite !lookup_insert_ne by paths_differ. apply lookup_insert_eq.
  - rewrite lookup_insert_ne by paths_differ. apply lookup_insert_eq.
  - apply lookup_insert_eq.
Qed.

Lemma stepped_keeps_metadata (k : nat) (b : Batch) (st : State) (name : string) :
  Healthy w a → Inv w a st → Z.of_nat k < n_steps a →
  name ∈ ["log_dir.txt"; "args.txt"; "args.pkl"]%string →
  files (stepped w a k b st) !! os_path_join (out_dir w) name =
  files st !! os_path_join (out_dir w) name.
Proof.
  intros H HI Hk Hname. unfold stepped.
  pose proof (trained_Inv w a k b st HI) as HIpre.
  destruct (trained_frame w a k b st) as (_ & _ & _ & Hfiles).
  rewrite <- Hfiles.
  destruct (evaluates a k) eqn:Hev; [|unfold evaluated; by rewrite Hev].
  destruct (evaluated_arrays w a k _ H HIpre Hk Hev) as (_ & _ & Hsave & Hkeep).
  destruct (negb (just_ref a) && negb (no_save a)) eqn:Hmode.
  - apply andb_true_iff in Hmode as [Hj Hs].
    apply negb_true_iff in Hj. apply negb_true_iff in Hs.
    destruct (Hsave Hj) as (n & arr & arr' & _ & _ & _ & _ & Hfs).
    rewrite (Hfs Hs).
    repeat (apply elem_of_cons in Hname as [->|Hname]);
      try (by apply elem_of_nil in Hname);
      by rewrite !lookup_insert_ne by paths_differ.
  - by rewrite (Hkeep eq_refl).
Qed.

(** X13. Lines 266-275: the three files that describe the run are written
    before the loop when saving is on, in reference-only mode too, and no
    step touches them: after any number of steps they hold the logging
    directory and the arguments; with saving off they never exist. *)
Theorem run_description_kept (K : nat) :
  Healthy w a → ToTensorWorks w → Z.of_nat K <= n_steps a →
  ∃ st, run_steps w a K = Ok tt st ∧
        files st !! os_path_join (out_dir w) "log_dir.txt" =
        (if no_save a then None else Some (Txt (log_dir w))) ∧
        files st !! os_path_join (out_dir w) "args.txt" =
        (if no_save a then None else Some (TxtArgs a)) ∧
        files st !! os_path_join (out_dir w) "args.pkl" =
        (if no_save a then None else Some (PklArgs a)).
Proof.
  intros H Ht HK.
  destruct (run_steps_ind w a
              (fun k st =>
                 ∀ name, name ∈ ["log_dir.txt"; "args.txt"; "args.pkl"]%string →
                         files st !! os_path_join (out_dir w) name =
                         files (initial w a) !! os_path_join (out_dir w) name)
              H Ht) with (k := K) as (st & Hrun & _ & HP); [done| |done|].
  - intros k st b Hk _ HI HP _ _ name Hname.
    rewrite stepped_keeps_metadata by done. by apply HP.
  - exists st. split; [done|].
    destruct metadata_lookup as (Hm1 & Hm2 & Hm3).
    rewrite !HP by (repeat constructor). unfold initial; cbn [files].
    destruct (no_save a); [by rewrite !lookup_empty|done].
Qed.

(** ** The arrays at the end of a run *)

Lemma round_step_in_run (r : nat) :
  0 < n_test_interval a → 0 <= n_steps a → (r < n_tests_total a)%nat →
  (round_step a r < Z.to_nat (n_steps a))%nat.
Proof.
  intros Hd Hn Hr. unfold n_tests_total in Hr.
  assert (Z.of_nat r * n_test_interval a < n_steps a) as Hlt.
  { assert (Z.of_nat r < - (- n_steps a / n_test_interval a)) as Hr' by lia.
    assert (- n_steps a / n_test_interval a < - Z.of_nat r) as Hq by lia.
    destruct (decide (Z.of_nat r * n_test_interval a < n_steps a)); [done|].
    assert (- Z.of_nat r <= - n_steps a / n_test_interval a); [|lia].
    apply Z.div_le_lower_bound; lia. }
  rewrite <- (round_step_Z a r Hd) in Hlt. lia.
Qed.

(** X14. Lines 186-191 and 395-405: the arrays have exactly as many rows
    as the run has evaluation rounds: [r] is a row if and only if the step
    of round [r] is a step of the run.  When the run ends normally the
    arrays have their full shapes and every entry has been written by its
    round, so that none holds what [np.empty] left there.  This is for
    arguments of at most 53 bits, on which the ceilings that the driver
    computes in binary64 are the exact ones. *)
Theorem complete_run_fills_arrays :
  Healthy w a → ToTensorWorks w → ceilings_exact a →
  float_ceil_div (n_steps a) (n_test_interval a)
  = Some (Z.of_nat (n_tests_total a)) ∧
  float_ceil_div (n_test_samples a) (batch_size_test a)
  = Some (Z.of_nat (n_test a)) ∧
  (∀ r, (r < n_tests_total a)%nat ↔
        (round_step a r < Z.to_nat (n_steps a))%nat) ∧
  ∃ st, run w a = Ok tt st ∧
        shape2 a (acc_test_ref st) ∧
        (just_ref a = false → ∃ arr, acc_test st = Some arr ∧ shape3 w a arr) ∧
        ∀ r j, (r < n_tests_total a)%nat → (j < n_test a)%nat →
               recorded w a r j st.
Proof.
  intros H Ht Hce.
  pose proof (interval_pos w a H) as Hd. pose proof (steps_nonneg w a H) as Hn.
  split; [apply (float_ceilings w a H Hce)|].
  split; [apply (float_ceilings w a H Hce)|].
  split.
  { intros r. split; [by apply round_step_in_run|].
    intros Hr. pose proof (ceil_spec (n_steps a) (n_test_interval a) Hn Hd) as Hc.
    fold (n_tests_total a) in Hc.
    pose proof (round_step_Z a r Hd). nia. }
  destruct (arrays_after w a (Z.to_nat (n_steps a)) H Ht) as (st & Hrun & HI & Harr);
    [lia|].
  exists (emitted WriterClose st). split; [by apply run_main|].
  split; [apply (inv_acc_test_ref w a st HI)|]. split.
  { intros Hj. destruct (inv_net w a st HI Hj) as (n & arr & _ & Ha & _ & Hsh).
    by exists arr. }
  intros r j Hr Hj. pose proof (round_step_in_run r Hd Hn Hr) as Hlt.
  specialize (Harr r j Hr Hj).
  by rewrite decide_True in Harr by done.
Qed.

(** ** The statistics of a round *)

Lemma ref_stats_tested_events (step n i : nat) :
  @ref_stats Acc (concat (tested_events a step <$> seq i n)) =
  if bool_decide (i = 0 ∧ 0 < n)%nat then [step] else [].
Proof.
  unfold ref_stats. revert i. induction n as [|n IH]; intros i.
  - simpl. by rewrite bool_decide_eq_false_2 by lia.
  - rewrite <- cons_seq, fmap_cons, concat_cons, omap_app, IH.
    rewrite (bool_decide_eq_false_2 (S i = 0 ∧ _)%nat) by lia.
    rewrite app_nil_r. unfold tested_events.
    destruct (just_ref a); repeat case_bool_decide; try done; lia.
Qed.

Lemma net_stats_tested_events (step n i : nat) :
  @net_stats Acc (concat (tested_events a step <$> seq i n)) =
  if bool_decide (i = 0 ∧ 0 < n)%nat && negb (just_ref a) then [step] else [].
Proof.
  unfold net_stats. revert i. induction n as [|n IH]; intros i.
  - simpl. by rewrite bool_decide_eq_false_2 by lia.
  - rewrite <- cons_seq, fmap_cons, concat_cons, omap_app, IH.
    rewrite (bool_decide_eq_false_2 (S i = 0 ∧ _)%nat) by lia.
    rewrite app_nil_r. unfold tested_events.
    destruct (just_ref a); repeat case_bool_decide; try done; lia.
Qed.

Lemma ref_stats_step_events (step : nat) (b : Batch) (st st' : State) :
  ref_stats (step_events w a step b st st') =
  if evaluates a step && bool_decide (0 < n_test a)%nat then [step] else [].
Proof.
  unfold step_events. unfold ref_stats at 1. rewrite !omap_app.
  assert (omap ref_stats_step
            (if adjusts step then [Print "- Adjusting learning rates"] else [])
          = []) as -> by (by destruct (adjusts step)).
  assert (omap ref_stats_step
            (if just_ref a then []
             else match net (adjusted a step st) with
                  | Some n => [PrintTraining step (net_learn w step n b).2]
                  | None => []
                  end) = []) as ->.
  { destruct (just_ref a); [done|]. by destruct (net (adjusted a step st)). }
  destruct (evaluates a step); [|done].
  unfold round_events. rewrite !omap_app.
  fold (@ref_stats Acc (concat (tested_events a step <$> seq 0 (n_test a)))).
  rewrite ref_stats_tested_events.
  assert (omap (@ref_stats_step Acc)
            (if negb (just_ref a) && negb (no_save a)
             then [Print dashes;
                   Print ("- Saved network parameters to `" +:+
                          os_path_join (out_dir w) (parameters_name step) +:+ "`.");
                   Print dashes]
             else []) = []) as ->
    by (by destruct (negb (just_ref a) && negb (no_save a))).
  simpl. rewrite app_nil_r. by repeat case_bool_decide; try lia.
Qed.

Lemma net_stats_step_events (step : nat) (b : Batch) (st st' : State) :
  net_stats (step_events w a step b st st') =
  if evaluates a step && bool_decide (0 < n_test a)%nat && negb (just_ref a)
  then [step] else [].
Proof.
  unfold step_events. unfold net_stats at 1. rewrite !omap_app.
  assert (omap net_stats_step
            (if adjusts step then [Print "- Adjusting learning rates"] else [])
          = []) as -> by (by destruct (adjusts step)).
  assert (omap net_stats_step
            (if just_ref a then []
             else match net (adjusted a step st) with
                  | Some n => [PrintTraining step (net_learn w step n b).2]
                  | None => []
                  end) = []) as ->.
  { destruct (just_ref a); [done|]. by destruct (net (adjusted a step st)). }
  destruct (evaluates a step); [|done].
  unfold round_events. rewrite !omap_app.
  fold (@net_stats Acc (concat (tested_events a step <$> seq 0 (n_test a)))).
  rewrite net_stats_tested_events.
  assert (omap (@net_stats_step Acc)
            (if negb (just_ref a) && negb (no_save a)
             then [Print dashes;
                   Print ("- Saved network parameters to `" +:+
                          os_path_join (out_dir w) (parameters_name step) +:+ "`.");
                   Print dashes]
             else []) = []) as ->
    by (by destruct (negb (just_ref a) && negb (no_save a))).
  simpl. rewrite app_nil_r.
  destruct (just_ref a); repeat case_bool_decide; try done; lia.
Qed.

(** X15. Lines 397-398 and 407-408: a round hands statistics to the summary
    writer for its first test batch only: once per round for the reference
    network, once per round for the trainable network when there is one, in
    the order of the rounds, and never when the pool is empty. *)
Theorem statistics_once_per_round (K : nat) :
  Healthy w a → ToTensorWorks w → Z.of_nat K <= n_steps a →
  ∃ st, run_steps w a K = Ok tt st ∧
        ref_stats (trace st) =
        (if bool_decide (0 < n_test a)%nat
         then filter (fun s => Z.of_nat s mod n_test_interval a = 0) (seq 0 K)
         else []) ∧
        net_stats (trace st) =
        (if bool_decide (0 < n_test a)%nat && negb (just_ref a)
         then filter (fun s => Z.of_nat s mod n_test_interval a = 0) (seq 0 K)
         else []).
Proof.
  intros H Ht HK.
  destruct (run_steps_ind w a
              (fun k st =>
                 ref_stats (trace st) =
                 (if bool_decide (0 < n_test a)%nat
                  then filter (fun s => Z.of_nat s mod n_test_interval a = 0) (seq 0 k)
                  else []) ∧
                 net_stats (trace st) =
                 (if bool_decide (0 < n_test a)%nat && negb (just_ref a)
                  then filter (fun s => Z.of_nat s mod n_test_interval a = 0) (seq 0 k)
                  else []))
              H Ht) with (k := K) as (st & Hrun & _ & HP); [| |done|by eauto].
  - unfold ref_stats, net_stats.
    rewrite !(omap_prints _ _ (fun _ => eq_refl) initial_prints).
    by destruct (bool_decide (0 < n_test a)%nat), (just_ref a).
  - intros k st b _ _ HI [Href Hnet] _ _.
    rewrite (trace_stepped k b st H HI). unfold ref_stats at 1, net_stats at 1.
    rewrite !omap_app. fold (ref_stats (trace st)). fold (net_stats (trace st)).
    fold (ref_stats (step_events w a k b st (stepped w a k b st))).
    fold (net_stats (step_events w a k b st (stepped w a k b st))).
    rewrite Href, Hnet, ref_stats_step_events, net_stats_step_events.
    rewrite seq_S, filter_app. simpl. rewrite filter_cons, filter_nil.
    unfold evaluates.
    destruct (bool_decide (0 < n_test a)%nat), (just_ref a);
      case_bool_decide; case_decide; simpl; try done; by rewrite ?app_nil_r.
Qed.

End Further.

(** * The keyword arguments *)

(** X17. Lines 125-177 and 330-331: for either data set the dictionary of
    the training encoder and the one of the test encoder hold the same
    entries but for the durations, which come from [n_iters] and
    [n_iters_test]; they are the same dictionary when these agree.  The
    assignment in the loop writes the value the entry already has, so that
    the training encoder is called with the same arguments at every step. *)
Theorem encoder_kwargs_agree (a : Args) (e : Encoding) (k : nat) :
  (∀ key, key ≠ "max_duration"%string → key ≠ "min_duration"%string →
          to_st_train_kwargs (kwargs a e) !! key =
          to_st_test_kwargs (kwargs a e) !! key) ∧
  to_st_train_kwargs (kwargs a e) !! "max_duration"%string = Some (VInt (n_iters e)) ∧
  to_st_test_kwargs (kwargs a e) !! "max_duration"%string
  = Some (VInt (n_iters_test e)) ∧
  (n_iters e = n_iters_test e →
   to_st_train_kwargs (kwargs a e) = to_st_test_kwargs (kwargs a e)) ∧
  Nat.iter k (resampled e) (to_st_train_kwargs (kwargs a e))
  = to_st_train_kwargs (kwargs a e).
Proof.
  assert (resampled e (to_st_train_kwargs (kwargs a e))
          = to_st_train_kwargs (kwargs a e)) as Hsame.
  { unfold resampled, kwargs. destruct (data a); simpl.
    - by rewrite insert_insert_eq.
    - apply insert_id. rewrite lookup_insert_ne by done. apply lookup_insert_eq. }
  split; [|split; [|split; [|split]]].
  - intros key Hmax Hmin. unfold kwargs. destruct (data a); simpl.
    + by rewrite !(lookup_insert_ne _ "max_duration"),
        !(lookup_insert_ne _ "min_duration") by done.
    + destruct (decide (key = "gs_stdev"%string)) as [->|Hgs].
      * by rewrite !lookup_insert_eq.
      * by rewrite !(lookup_insert_ne _ "gs_stdev"),
          !(lookup_insert_ne _ "max_duration") by done.
  - unfold kwargs. destruct (data a); simpl.
    + apply lookup_insert_eq.
    + rewrite lookup_insert_ne by done. apply lookup_insert_eq.
  - unfold kwargs. destruct (data a); simpl.
    + apply lookup_insert_eq.
    + rewrite lookup_insert_ne by done. apply lookup_insert_eq.
  - intros Heq. unfold kwargs. destruct (data a); simpl; by rewrite Heq.
  - induction k as [|k IH]; simpl; [done|]. by rewrite IH.
Qed.

(** * The further properties on the small worlds *)

Ltac demo_startable :=
  constructor;
  [ simpl; lia | simpl; lia | simpl; lia | simpl; lia
  | intros p ? Hp; try discriminate Hp ].

Lemma demo_startable_args : Startable Demo.world Demo.args.
Proof. demo_startable. Qed.



Lemma demo_startable_no_training_data : Startable Demo.no_training_data Demo.args.
Proof. demo_startable. Qed.

(** A test interval of zero. *)
Lemma zero_divisor_before_setup_witness :
  ∃ st, run Demo.world Demo.args_zero_interval = Raise ZeroDivisionError st ∧
        files st = ∅.
Proof.
  destruct (zero_divisor_before_setup Demo.world Demo.args_zero_interval
              (or_intror eq_refl))
    as (st & Hrun & _ & _ & _ & Hfiles & _).
  exists st. split; [exact Hrun|exact Hfiles].
Defined.

(** Minus five steps with an interval of two: a ceiling of minus two. *)
Lemma negative_dimension_rejected_witness :
  ∃ st, run Demo.world Demo.args_negative_steps = Raise ValueError st ∧
        files st = ∅.
Proof.
  destruct (negative_dimension_rejected Demo.world Demo.args_negative_steps)
    as (st & Hrun & _ & _ & Hfiles).
  - reflexivity.
  - reflexivity.
  - intros p _ Hp. discriminate Hp.
  - left. simpl. lia.
  - exists st. split; [exact Hrun|exact Hfiles].
Defined.



Lemma empty_training_loader_witness :
  ∃ st, run Demo.no_training_data Demo.args = Raise StopIteration st ∧
        epoch st = 2%nat.
Proof.
  destruct (empty_training_loader Demo.no_training_data Demo.args
              demo_startable_no_training_data ltac:(vm_compute; lia)
              ltac:(simpl; lia) eq_refl eq_refl)
    as (st & Hrun & Hepoch & _).
  exists st. split; [exact Hrun|exact Hepoch].
Defined.

Lemma restore_unloadable_file_witness :
  ∃ st, run Demo.corrupt_file Demo.args_corrupt
        = Raise (RuntimeError "Error(s) in loading state_dict") st ∧
        (weights <$> net st) = Some 5%nat ∧ files st = ∅.
Proof.
  destruct (restore_unloadable_file Demo.corrupt_file Demo.args_corrupt
              "corrupt.pth" (RuntimeError "Error(s) in loading state_dict") 5%nat
              ltac:(discriminate) ltac:(discriminate)
              eq_refl eq_refl ltac:(discriminate) eq_refl eq_refl)
    as (st & Hrun & Hnet & _ & Hfiles & _).
  exists st. split; [exact Hrun|]. split; [|exact Hfiles].
  rewrite Hnet. reflexivity.
Defined.

(** Ten classes, and a batch whose third label is ten. *)
Lemma label_out_of_range_witness :
  ∃ st, for_ [0; 1; 10; 2] count_label (initial Demo.world Demo.args)
        = Raise IndexError st ∧
        label_train_counts st = [1; 1; 0; 0; 0; 0; 0; 0; 0; 0].
Proof.
  eexists. split.
  - apply (label_out_of_range [0; 1] [2] 10 (initial Demo.world Demo.args)).
    + repeat constructor; by vm_compute.
    + right. simpl. lia.
  - reflexivity.
Defined.

(** Ten classes: the two labels -1 are counted for class 9. *)
Lemma negative_labels_wrap_witness :
  ∃ st, for_ [-1; 3; -1] count_label (initial Demo.world Demo.args) = Ok tt st ∧
        label_train_counts st !! 9%nat = Some 2 ∧
        label_train_counts st !! 3%nat = Some 1 ∧
        label_train_counts st !! 0%nat = Some 0.
Proof.
  destruct (negative_labels_wrap [-1; 3; -1] (initial Demo.world Demo.args))
    as (st & Hrun & _ & Hentries).
  - repeat constructor; by vm_compute.
  - repeat constructor; by vm_compute.
  - exists st. split; [exact Hrun|]. split; [|split].
    + exact (Hentries 9%nat 0 eq_refl).
    + exact (Hentries 3%nat 0 eq_refl).
    + exact (Hentries 0%nat 0 eq_refl).
Defined.

Lemma training_line_per_step_witness :
  ∃ st, run_steps Demo.world Demo.args 5 = Ok tt st ∧
        training_steps (trace st) = [0; 1; 2; 3; 4]%nat.
Proof.
  destruct (training_line_per_step Demo.world Demo.args 5
              demo_healthy_args demo_to_tensor ltac:(simpl; lia))
    as (st & Hrun & Htrace).
  exists st. split; [exact Hrun|exact Htrace].
Defined.

(** Two test batches, and the rounds of steps 0, 2 and 4. *)
Lemma rounds_cover_pool_witness :
  ∃ st, run_steps Demo.world Demo.args 5 = Ok tt st ∧
        tensor_attempts (trace st) =
        [(0, 0); (0, 1); (2, 0); (2, 1); (4, 0); (4, 1)]%nat.
Proof.
  destruct (rounds_cover_pool Demo.world Demo.args 5
              demo_healthy_args demo_to_tensor ltac:(simpl; lia))
    as (st & Hrun & _ & _ & Htrace).
  exists st. split; [exact Hrun|]. rewrite Htrace. reflexivity.
Defined.

(** Batches of four: the rounds of steps 0, 2 and 4 print counters that
    sum to 4, 12 and 20. *)
Lemma label_percentages_total_witness :
  ∃ st, run_steps Demo.world Demo.args 5 = Ok tt st ∧
        Forall2 (fun s counts => sum_Z counts = (Z.of_nat s + 1) * 4)
          [0; 2; 4]%nat (label_reports (trace st)).
Proof.
  destruct (label_percentages_total Demo.world Demo.args 5
              demo_healthy_args demo_to_tensor demo_batch_size
              ltac:(simpl; lia) ltac:(simpl; lia))
    as (st & Hrun & Hsums).
  exists st. split; [exact Hrun|].
  eapply Forall2_impl; [exact Hsums|]. intros s counts [Hsum _]. exact Hsum.
Defined.

Lemma run_description_kept_witness :
  ∃ st, run_steps Demo.world Demo.args 5 = Ok tt st ∧
        files st !! "results/MNIST/Jan01_00-00-00/args.txt"%string
        = Some (TxtArgs Demo.args).
Proof.
  destruct (run_description_kept Demo.world Demo.args 5
              demo_healthy_args demo_to_tensor ltac:(simpl; lia))
    as (st & Hrun & _ & Hargs & _).
  exists st. split; [exact Hrun|exact Hargs].
Defined.

(** Five steps with an interval of two: three rows, all of them written. *)
Lemma complete_run_fills_arrays_witness :
  ∃ st, run Demo.world Demo.args = Ok tt st ∧
        recorded Demo.world Demo.args 2 1 st.
Proof.
  destruct (complete_run_fills_arrays Demo.world Demo.args
              demo_healthy_args demo_to_tensor demo_ceilings_exact)
    as (_ & _ & _ & st & Hrun & _ & _ & Hrows).
  exists st. split; [exact Hrun|].
  apply (Hrows 2%nat 1%nat); vm_compute; lia.
Defined.

Lemma statistics_once_per_round_witness :
  ∃ st, run_steps Demo.world Demo.args 5 = Ok tt st ∧
        ref_stats (trace st) = [0; 2; 4]%nat ∧
        net_stats (trace st) = [0; 2; 4]%nat.
Proof.
  destruct (statistics_once_per_round Demo.world Demo.args 5
              demo_healthy_args demo_to_tensor ltac:(simpl; lia))
    as (st & Hrun & Href & Hnet).
  exists st. split; [exact Hrun|]. split; [exact Href|exact Hnet].
Defined.
